(** * setup-gcloud: the [run] coordinator of [src/main.ts]

    A shallow embedding of the action's entry point.  The program is pure
    orchestration: it reads step inputs, calls the tool provisioner and the
    credential broker, and reports through the host runner.  The embedding
    keeps that shape:

    - JavaScript strings are sequences of UTF-16 code units ([list N]);
    - every collaborator that lives outside [main.ts] is a field of a
      [World] record that says what the collaborator answers;
    - [run] is written in a small monad that threads the process
      environment, collects the calls made to the collaborators in order,
      and distinguishes a JavaScript exception from [process.exit];
    - [run] is one long function; it is cut here into the blocks its own
      comments announce ([provision], [installComponents], [authenticate],
      [configureProject]), each with the lines of [main.ts] it renders.

    The first half of the file holds the definitions, the second half the
    lemmas and, last, the properties of the specification. *)

From Stdlib Require Import NArith ZArith String Ascii List Bool Lia Sorted.
From stdpp Require Import base option list gmap.
Import ListNotations.

Local Open Scope N_scope.
Local Open Scope list_scope.

(** ** JavaScript strings *)

Module JsString.

(** A string value: its UTF-16 code units. *)
Abbreviation jsstring := (list N).

(** String literals of the source, written as Rocq strings. *)
Definition js (s : string) : jsstring :=
  List.map N_of_ascii (list_ascii_of_string s).

Fixpoint eqb (a b : jsstring) : bool :=
  match a, b with
  | [], [] => true
  | x :: a', y :: b' => N.eqb x y && eqb a' b'
  | _, _ => false
  end.

(** [if (s)] on a string: only the empty string is falsy. *)
Definition truthy (s : jsstring) : bool :=
  match s with
  | [] => false
  | _ :: _ => true
  end.

(** [if (v)] on a [string | undefined]. *)
Definition truthy_opt (v : option jsstring) : bool :=
  match v with
  | None => false
  | Some s => truthy s
  end.

(** A value interpolated in a template literal: [undefined] prints as
    the nine letters of its name. *)
Definition interpolate (v : option jsstring) : jsstring :=
  match v with
  | None => js "undefined"
  | Some s => s
  end.

(** ECMAScript [WhiteSpace] and [LineTerminator] code units, the ones
    [String.prototype.trim] strips. *)
Definition is_whitespace (c : N) : bool :=
  (N.leb 9 c && N.leb c 13)            (* TAB, LF, VT, FF, CR *)
  || N.eqb c 32                        (* SPACE *)
  || N.eqb c 160                       (* NO-BREAK SPACE *)
  || N.eqb c 5760                      (* OGHAM SPACE MARK *)
  || (N.leb 8192 c && N.leb c 8202)    (* EN QUAD .. HAIR SPACE *)
  || N.eqb c 8232 || N.eqb c 8233      (* LINE / PARAGRAPH SEPARATOR *)
  || N.eqb c 8239                      (* NARROW NO-BREAK SPACE *)
  || N.eqb c 8287                      (* MEDIUM MATHEMATICAL SPACE *)
  || N.eqb c 12288                     (* IDEOGRAPHIC SPACE *)
  || N.eqb c 65279.                    (* ZERO WIDTH NO-BREAK SPACE *)

Fixpoint trimStart (s : jsstring) : jsstring :=
  match s with
  | [] => []
  | c :: s' => if is_whitespace c then trimStart s' else s
  end.

Definition trimEnd (s : jsstring) : jsstring :=
  List.rev (trimStart (List.rev s)).

(** [s.trim()] *)
Definition trim (s : jsstring) : jsstring := trimEnd (trimStart s).

(** [s.split(sep)] for a one-code-unit separator: the pieces between the
    separators, empty pieces included; never an empty array. *)
Fixpoint split (sep : N) (s : jsstring) : list jsstring :=
  match s with
  | [] => [[]]
  | c :: s' =>
      if N.eqb c sep then [] :: split sep s'
      else match split sep s' with
           | [] => [[c]]
           | piece :: pieces => (c :: piece) :: pieces
           end
  end.

(** [pieces.join(sep)], the inverse of [split]. *)
Fixpoint join (sep : N) (pieces : list jsstring) : jsstring :=
  match pieces with
  | [] => []
  | [p] => p
  | p :: rest => p ++ sep :: join sep rest
  end.

Definition comma : N := 44.

(** Number of separators in a string. *)
Definition occurrences (sep : N) (s : jsstring) : nat :=
  List.length (List.filter (N.eqb sep) s).

(** The string neither starts nor ends with white space. *)
Definition starts_clean (s : jsstring) : bool :=
  match s with
  | [] => true
  | c :: _ => negb (is_whitespace c)
  end.
Definition is_trimmed (s : jsstring) : bool :=
  starts_clean s && starts_clean (List.rev s).

(** [a + b] on strings, and the pieces of a template literal. *)
Definition cat (a b : jsstring) : jsstring := a ++ b.
Arguments cat : simpl never.

End JsString.
Import JsString.

(** ** Values exchanged with the collaborators *)

(** A thrown JavaScript value, as far as [main.ts] inspects it:
    [isAxiosError(error)] and [error.response?.status]. *)
Record js_error : Type := JsError {
  is_axios_error : bool;
  response_status : option Z;
  error_ref : N
}.

(** What a call to a collaborator does: it returns or it throws. *)
Inductive outcome (A : Type) : Type :=
| Returns (a : A)
| Raises (e : js_error).
Arguments Returns {A} a.
Arguments Raises {A} e.

(** One observable call made by [run], in program order. *)
Inductive event : Type :=
| EvAxiosGet (url : jsstring) (timeout : Z)
| EvError (msg : jsstring)
| EvInfo (msg : jsstring)
| EvWarning (msg : jsstring)
| EvDebug (msg : jsstring)
| EvExportVariable (name value : jsstring)
| EvProcessEnvAssign (name value : jsstring)
| EvGetInput (name : jsstring)
| EvBestVersion (range : jsstring)
| EvToolCacheFind (tool version : jsstring)
| EvAddPath (dir : jsstring)
| EvInstallGcloudSDK (version : jsstring) (useCache : bool)
| EvInstallComponent (components : list jsstring)
| EvAuthenticateGcloudSDK (credFile : jsstring)
| EvIsAuthenticated
| EvSetProject (projectId : jsstring)
| EvSetOutput (name : jsstring) (value : option jsstring)
| EvSetFailed (msg : jsstring).

(** Everything [run] depends on and does not define itself. *)
Record World : Type := {
  (** [process.env] when the step starts *)
  initial_env : gmap jsstring jsstring;
  (** [require('../package.json').version] *)
  appVersion : jsstring;
  (** [axios.get(url, { timeout })] *)
  axios_get : jsstring -> Z -> outcome unit;
  (** [@google-github-actions/actions-utils] *)
  isPinnedToHead : bool;
  pinnedToHeadWarning : jsstring -> jsstring;
  parseBoolean : jsstring -> outcome bool;
  presence : jsstring -> option jsstring;
  errorMessage : js_error -> jsstring;
  (** [@actions/core] and [@actions/tool-cache] *)
  getInput : jsstring -> jsstring;
  toolCache_find : jsstring -> jsstring -> jsstring;
  (** [path.join] and [path.delimiter] *)
  path_join : jsstring -> jsstring -> jsstring;
  path_delimiter : jsstring;
  (** [@google-github-actions/setup-cloud-sdk] *)
  bestVersion : jsstring -> outcome jsstring;
  installGcloudSDK : jsstring -> bool -> outcome unit;
  installComponent : list jsstring -> outcome unit;
  authenticateGcloudSDK : jsstring -> outcome unit;
  isAuthenticated : outcome bool;
  setProject : jsstring -> outcome unit
}.

(** ** The effect monad *)

(** What a step can write of its surroundings: [process.env] of the
    running process, the variables the runner hands on to later steps (what
    [core.exportVariable] appends to the job's environment file), and the
    directories the runner puts on the search path of later steps (what
    [core.addPath] appends to the job's path file), the latest first. *)
Record state : Type := State {
  process_env : gmap jsstring jsstring;
  job_env : gmap jsstring jsstring;
  job_path : list jsstring
}.

(** How a computation ends. *)
Inductive completion (A : Type) : Type :=
| Normal (a : A)
| Throw (e : js_error)
| Exit (code : Z).
Arguments Normal {A} a.
Arguments Throw {A} e.
Arguments Exit {A} code.

Record result (A : Type) : Type := Result {
  ended : completion A;
  final : state;
  calls : list event
}.
Arguments Result {A} ended final calls.
Arguments ended {A} r.
Arguments final {A} r.
Arguments calls {A} r.

Definition M (A : Type) : Type := state -> result A.

Definition ret {A : Type} (a : A) : M A :=
  fun s => Result (Normal a) s [].

Definition bind {A B : Type} (m : M A) (k : A -> M B) : M B :=
  fun s =>
    match m s with
    | Result (Normal a) s1 l1 =>
        match k a s1 with
        | Result c s2 l2 => Result c s2 (l1 ++ l2)
        end
    | Result (Throw e) s1 l1 => Result (Throw e) s1 l1
    | Result (Exit c) s1 l1 => Result (Exit c) s1 l1
    end.

Declare Scope action_scope.
Delimit Scope action_scope with action.
Notation "x <- m ;; k" := (bind m (fun x => k))
  (at level 100, m at next level, right associativity) : action_scope.
Notation "m ;; k" := (bind m (fun _ => k))
  (at level 100, right associativity) : action_scope.
Local Open Scope action_scope.

(** [try { body } catch (err) { handler(err) }]: [process.exit] is not an
    exception and passes through. *)
Definition try_catch {A : Type} (body : M A) (handler : js_error -> M A) : M A :=
  fun s =>
    match body s with
    | Result (Throw e) s1 l1 =>
        match handler e s1 with
        | Result c s2 l2 => Result c s2 (l1 ++ l2)
        end
    | r => r
    end.

Definition emit (e : event) : M unit :=
  fun s => Result (Normal tt) s [e].

(** [await f(...)]: record the call, then return or throw as it does. *)
Definition await {A : Type} (e : event) (o : outcome A) : M A :=
  fun s =>
    match o with
    | Returns a => Result (Normal a) s [e]
    | Raises err => Result (Throw err) s [e]
    end.

Definition when (b : bool) (m : M unit) : M unit :=
  if b then m else ret tt.

(** [process.exit(code)] *)
Definition process_exit {A : Type} (code : Z) : M A :=
  fun s => Result (Exit code) s [].

(** [process.env.NAME] *)
Definition read_process_env (name : jsstring) : M (option jsstring) :=
  fun s => Result (Normal (process_env s !! name)) s [].

(** [process.env.NAME = value]: visible to this process and its children
    only. *)
Definition assign_process_env (name value : jsstring) : M unit :=
  fun s =>
    Result (Normal tt)
           (State (<[name := value]> (process_env s)) (job_env s) (job_path s))
           [EvProcessEnvAssign name value].

(** [core.exportVariable(name, value)]: sets [process.env] and hands the
    variable on to the following steps of the job. *)
Definition core_exportVariable (name value : jsstring) : M unit :=
  fun s =>
    Result (Normal tt)
           (State (<[name := value]> (process_env s))
                  (<[name := value]> (job_env s))
                  (job_path s))
           [EvExportVariable name value].

(** ** The program *)

Module Text.

(** The literals of [main.ts]; [dq] is the double quote. *)
Definition dq : jsstring := [34].
Definition api_url_prefix : jsstring :=
  js "https://agent.api.stepsecurity.io/v1/github/".
Definition api_url_suffix : jsstring := js "/actions/subscription".
Definition subscription_invalid : jsstring :=
  js "Subscription is not valid. Reach out to support@stepsecurity.io".
Definition api_unreachable : jsstring :=
  js "Timeout or API not reachable. Continuing to next step.".
Definition skipping_installation : jsstring :=
  js "Skipping installation (" ++ dq ++ js "skip_install" ++ dq ++ js " was true)".
Definition ignoring_version : jsstring :=
  js "Ignoring " ++ dq ++ js "version" ++ dq ++ js " because " ++ dq ++ js "skip_install" ++ dq ++ js " was true!".
Definition components_may_fail : jsstring :=
  js "Installing custom components with the system-provided gcloud may fail. Set " ++ dq ++ js "skip_install" ++ dq ++ js " to false to install a managed version.".
Definition version_unset : jsstring :=
  js "version was unset, defaulting to any version".
Definition resolving_latest : jsstring := js "resolving latest version".
Definition resolved_latest_to : jsstring := js "resolved latest version to ".
Definition no_version_matching : jsstring :=
  js "no version of gcloud matching " ++ dq.
Definition is_installed : jsstring :=
  dq ++ js " is installed".
Definition authenticated_ok : jsstring := js "Successfully authenticated".
Definition not_authenticated : jsstring :=
  js "The gcloud CLI is not authenticated (or it is not installed). Authenticate by adding the " ++ dq ++ js "google-github-actions/auth" ++ dq ++ js " step prior this one.".
Definition project_ok : jsstring := js "Successfully set default project".
Definition failed_with : jsstring :=
  js "google-github-actions/setup-gcloud failed with: ".

Definition any_version : jsstring := js "> 0.0.0".
Definition latest : jsstring := js "latest".
Definition gcloud : jsstring := js "gcloud".
Definition bin : jsstring := js "bin".
Definition v3 : jsstring := js "v3".

Definition GITHUB_REPOSITORY : jsstring := js "GITHUB_REPOSITORY".
Definition PATH : jsstring := js "PATH".
Definition GOOGLE_GHA_CREDS_PATH : jsstring := js "GOOGLE_GHA_CREDS_PATH".
Definition CLOUDSDK_METRICS_ENVIRONMENT : jsstring :=
  js "CLOUDSDK_METRICS_ENVIRONMENT".
Definition CLOUDSDK_METRICS_ENVIRONMENT_VERSION : jsstring :=
  js "CLOUDSDK_METRICS_ENVIRONMENT_VERSION".
Definition CLOUDSDK_CORE_DISABLE_PROMPTS : jsstring :=
  js "CLOUDSDK_CORE_DISABLE_PROMPTS".
Definition metrics_environment : jsstring := js "github-actions-setup-gcloud".

Definition skip_install : jsstring := js "skip_install".
Definition version : jsstring := js "version".
Definition install_components : jsstring := js "install_components".
Definition project_id : jsstring := js "project_id".
Definition cache : jsstring := js "cache".

End Text.

(** The runner's logging and reporting calls ([@actions/core]). *)
Definition core_error (msg : jsstring) : M unit := emit (EvError msg).
Definition core_info (msg : jsstring) : M unit := emit (EvInfo msg).
Definition core_warning (msg : jsstring) : M unit := emit (EvWarning msg).
Definition core_debug (msg : jsstring) : M unit := emit (EvDebug msg).
Definition core_setOutput (name : jsstring) (value : option jsstring) : M unit :=
  emit (EvSetOutput name value).
Definition core_setFailed (msg : jsstring) : M unit := emit (EvSetFailed msg).

(** A call that leaves no trace of its own but may throw. *)
Definition attempt {A : Type} (o : outcome A) : M A :=
  fun s =>
    match o with
    | Returns a => Result (Normal a) s []
    | Raises err => Result (Throw err) s []
    end.

(** A [string | undefined] where TypeScript has narrowed it to [string]. *)
Definition narrowed (v : option jsstring) : jsstring :=
  match v with
  | Some s => s
  | None => []
  end.

(** [error.response?.status === code] *)
Definition status_is (error : js_error) (code : Z) : bool :=
  match response_status error with
  | Some c => Z.eqb c code
  | None => false
  end.

Section Program.

Variable w : World.

Definition core_getInput (name : jsstring) : M jsstring :=
  fun s => Result (Normal (getInput w name)) s [EvGetInput name].

Definition toolCache_find_call (tool version : jsstring) : M jsstring :=
  fun s =>
    Result (Normal (toolCache_find w tool version)) s
           [EvToolCacheFind tool version].

(** [core.addPath(dir)]: puts [dir] in front of [PATH] of the running
    process, [`${dir}${path.delimiter}${process.env['PATH']}`], and on the
    search path of the following steps. *)
Definition core_addPath (dir : jsstring) : M unit :=
  fun s =>
    let PATH :=
      cat dir (cat (path_delimiter w) (interpolate (process_env s !! Text.PATH))) in
    Result (Normal tt)
           (State (<[Text.PATH := PATH]> (process_env s))
                  (job_env s)
                  (dir :: job_path s))
           [EvAddPath dir].

(** [validateSubscription], lines 42-55. *)
Definition validateSubscription : M unit :=
  repository <- read_process_env Text.GITHUB_REPOSITORY ;;
  let API_URL :=
    cat Text.api_url_prefix (cat (interpolate repository) Text.api_url_suffix) in
  try_catch
    (await (EvAxiosGet API_URL 3000) (axios_get w API_URL 3000))
    (fun error =>
       if is_axios_error error && status_is error 403
       then core_error Text.subscription_invalid ;; process_exit 1
       else core_info Text.api_unreachable).

(** Lines 96-104: the version to look for when installation is wanted. *)
Definition resolve (version : option jsstring) : M jsstring :=
  version <-
    (if negb (truthy_opt version) then
       core_debug Text.version_unset ;; ret Text.any_version
     else ret (narrowed version)) ;;
  if eqb version Text.latest then
    core_debug Text.resolving_latest ;;
    resolved <- await (EvBestVersion Text.any_version)
                      (bestVersion w Text.any_version) ;;
    core_debug (cat Text.resolved_latest_to resolved) ;;
    ret resolved
  else ret version.

(** Lines 106-113: use the cached tool or install it. *)
Definition acquire (version : jsstring) (cache : bool) : M unit :=
  toolPath <- toolCache_find_call Text.gcloud version ;;
  if negb (eqb toolPath []) then
    core_addPath (path_join w toolPath Text.bin)
  else
    core_debug (cat Text.no_version_matching (cat version Text.is_installed)) ;;
    await (EvInstallGcloudSDK version cache) (installGcloudSDK w version cache).

(** Lines 79-114.  The value is [version] as the rest of [run] sees it. *)
Definition provision (skipInstall : bool) (version : option jsstring)
    (components : jsstring) (cache : bool) : M (option jsstring) :=
  if skipInstall then
    core_info Text.skipping_installation ;;
    when (truthy_opt version && negb (eqb (narrowed version) Text.latest))
         (core_warning Text.ignoring_version) ;;
    when (truthy components) (core_warning Text.components_may_fail) ;;
    ret version
  else
    version <- resolve version ;;
    acquire version cache ;;
    ret (Some version).

(** Lines 116-119. *)
Definition installComponents (components : jsstring) : M unit :=
  when (truthy components)
       (let list := List.map trim (split comma components) in
        await (EvInstallComponent list) (installComponent w list)).

(** Lines 121-141. *)
Definition authenticate : M unit :=
  credFile <- read_process_env Text.GOOGLE_GHA_CREDS_PATH ;;
  if truthy_opt credFile then
    await (EvAuthenticateGcloudSDK (narrowed credFile))
          (authenticateGcloudSDK w (narrowed credFile)) ;;
    core_info Text.authenticated_ok
  else
    authed <- try_catch (await EvIsAuthenticated (isAuthenticated w))
                        (fun _ => ret false) ;;
    when (negb authed) (core_warning Text.not_authenticated).

(** Lines 143-147. *)
Definition configureProject (projectId : jsstring) : M unit :=
  when (truthy projectId)
       (await (EvSetProject projectId) (setProject w projectId) ;;
        core_info Text.project_ok).

(** Lines 116-149: what follows the installation decision, whatever it
    was. *)
Definition finish (components projectId : jsstring)
    (version : option jsstring) : M unit :=
  installComponents components ;;
  authenticate ;;
  configureProject projectId ;;
  core_setOutput Text.version version.

(** Lines 79-149: everything the [try] block does once the inputs are
    read. *)
Definition steps (skipInstall : bool) (version : option jsstring)
    (components projectId : jsstring) (cache : bool) : M unit :=
  version <- provision skipInstall version components cache ;;
  finish components projectId version.

(** Lines 73-149: the [try] block. *)
Definition main : M unit :=
  skipInstall <-
    (raw <- core_getInput Text.skip_install ;; attempt (parseBoolean w raw)) ;;
  version <- (raw <- core_getInput Text.version ;; ret (presence w raw)) ;;
  components <- core_getInput Text.install_components ;;
  projectId <- core_getInput Text.project_id ;;
  cache <- (raw <- core_getInput Text.cache ;; attempt (parseBoolean w raw)) ;;
  steps skipInstall version components projectId cache.

(** Lines 150-153: the [catch] block. *)
Definition report_failure (err : js_error) : M unit :=
  let msg := errorMessage w err in
  core_setFailed (cat Text.failed_with msg).

(** Lines 58-70: what [run] does before the [try] block. *)
Definition preamble : M unit :=
  validateSubscription ;;
  core_exportVariable Text.CLOUDSDK_METRICS_ENVIRONMENT Text.metrics_environment ;;
  core_exportVariable Text.CLOUDSDK_METRICS_ENVIRONMENT_VERSION (appVersion w) ;;
  assign_process_env Text.CLOUDSDK_CORE_DISABLE_PROMPTS (js "1") ;;
  when (isPinnedToHead w) (core_warning (pinnedToHeadWarning w Text.v3)).

(** [run], lines 57-154. *)
Definition run : M unit :=
  preamble ;;
  try_catch main report_failure.

(** The step as the runner starts it: [process.env] as found, nothing
    exported yet. *)
Definition start : state := State (initial_env w) ∅ [].

Definition execute : result unit := run start.

End Program.

(** ** Concrete worlds *)

Module Sample.

(** The usual reading of a boolean input: empty means [false], anything
    that is not a boolean word throws. *)
Definition parse_boolean (s : jsstring) : outcome bool :=
  if eqb s (js "true") then Returns true
  else if eqb s (js "false") || eqb s [] then Returns false
  else Raises (JsError false None 1).

(** The usual reading of an optional input: blank means [undefined]. *)
Definition presence_of (s : jsstring) : option jsstring :=
  let t := trim s in
  if truthy t then Some t else None.

(** An input left out of the workflow file. *)
Definition blank : string := EmptyString.

Record setup : Type := Setup {
  skip_install : string;
  version : string;
  install_components : string;
  project_id : string;
  cache : string;
  cached : bool;
  credentials : option string;
  subscription : outcome unit
}.

Definition get_input (c : setup) (name : jsstring) : jsstring :=
  if eqb name Text.skip_install then js (skip_install c)
  else if eqb name Text.version then js (version c)
  else if eqb name Text.install_components then js (install_components c)
  else if eqb name Text.project_id then js (project_id c)
  else if eqb name Text.cache then js (cache c)
  else [].

(** A runner where every collaborator succeeds, the newest release is
    500.0.0, and the tool cache is warm or cold as [cached] says. *)
Definition world (c : setup) : World := {|
  initial_env :=
    match credentials c with
    | Some p => {[ Text.GOOGLE_GHA_CREDS_PATH := js p ]}
    | None => ∅
    end;
  appVersion := js "3.0.1";
  axios_get := fun _ _ => subscription c;
  isPinnedToHead := false;
  pinnedToHeadWarning := fun ref => js "pinned at HEAD, use " ++ ref;
  parseBoolean := parse_boolean;
  presence := presence_of;
  errorMessage := fun _ => js "failure";
  getInput := get_input c;
  toolCache_find :=
    fun tool v => if cached c then js "/opt/hostedtoolcache/gcloud/" ++ v else [];
  path_join := fun a b => a ++ js "/" ++ b;
  path_delimiter := js ":";
  bestVersion := fun _ => Returns (js "500.0.0");
  installGcloudSDK := fun _ _ => Returns tt;
  installComponent := fun _ => Returns tt;
  authenticateGcloudSDK := fun _ => Returns tt;
  isAuthenticated := Returns false;
  setProject := fun _ => Returns tt
|}.

(** The same runner, except that installing components fails. *)
Definition components_failure : js_error := JsError false None 7.
Definition with_failing_components (c : setup) : World := {|
  initial_env := initial_env (world c);
  appVersion := appVersion (world c);
  axios_get := axios_get (world c);
  isPinnedToHead := isPinnedToHead (world c);
  pinnedToHeadWarning := pinnedToHeadWarning (world c);
  parseBoolean := parseBoolean (world c);
  presence := presence (world c);
  errorMessage := errorMessage (world c);
  getInput := getInput (world c);
  toolCache_find := toolCache_find (world c);
  path_join := path_join (world c);
  path_delimiter := path_delimiter (world c);
  bestVersion := bestVersion (world c);
  installGcloudSDK := installGcloudSDK (world c);
  installComponent := fun _ => Raises components_failure;
  authenticateGcloudSDK := authenticateGcloudSDK (world c);
  isAuthenticated := isAuthenticated (world c);
  setProject := setProject (world c)
|}.

(** The same runner, except that the installer fails whenever it is
    called. *)
Definition installer_failure : js_error := JsError false None 5.
Definition with_failing_installer (c : setup) : World := {|
  initial_env := initial_env (world c);
  appVersion := appVersion (world c);
  axios_get := axios_get (world c);
  isPinnedToHead := isPinnedToHead (world c);
  pinnedToHeadWarning := pinnedToHeadWarning (world c);
  parseBoolean := parseBoolean (world c);
  presence := presence (world c);
  errorMessage := errorMessage (world c);
  getInput := getInput (world c);
  toolCache_find := toolCache_find (world c);
  path_join := path_join (world c);
  path_delimiter := path_delimiter (world c);
  bestVersion := bestVersion (world c);
  installGcloudSDK := fun _ _ => Raises installer_failure;
  installComponent := installComponent (world c);
  authenticateGcloudSDK := authenticateGcloudSDK (world c);
  isAuthenticated := isAuthenticated (world c);
  setProject := setProject (world c)
|}.

Definition defaults : setup :=
  Setup blank blank blank blank blank false None (Returns tt).

(** [version: latest] on a runner with a cold tool cache. *)
Definition latest_cold : setup :=
  Setup "false" "latest" blank blank "true" false None (Returns tt).

(** [version: 4.0.0] on a runner that has it cached. *)
Definition pinned_warm : setup :=
  Setup "false" "4.0.0" blank blank blank true None (Returns tt).

(** Credentials left by an earlier authentication step. *)
Definition with_credentials : setup :=
  Setup "true" blank blank blank blank false (Some "/tmp/creds.json"%string) (Returns tt).

(** The credentials variable is in the environment, holding nothing. *)
Definition empty_credentials : setup :=
  Setup "true" blank blank blank blank false (Some blank) (Returns tt).

(** [version: 4.0.0], cached, with components to add. *)
Definition warm_with_components : setup :=
  Setup "false" "4.0.0" " a, b ,c" blank blank true None (Returns tt).

(** A repository that the validation endpoint turns away. *)
Definition turned_away : setup :=
  Setup blank blank blank blank blank false None
        (Raises (JsError true (Some 403%Z) 0)).

(** [install_components] with a stray comma. *)
Definition stray_comma : setup :=
  Setup "true" blank "a,,b" blank blank false None (Returns tt).

(** [skip_install: true] together with a pinned version. *)
Definition skip_pinned : setup :=
  Setup "true" "1.2.3" blank blank blank false None (Returns tt).

End Sample.

(** ** Observing a run *)

(** Kinds of calls. *)
Definition is_latest_resolution (e : event) : bool :=
  match e with EvBestVersion _ => true | _ => false end.
Definition is_cache_probe (e : event) : bool :=
  match e with EvToolCacheFind _ _ => true | _ => false end.
Definition is_install (e : event) : bool :=
  match e with EvInstallGcloudSDK _ _ => true | _ => false end.
Definition is_component_install (e : event) : bool :=
  match e with EvInstallComponent _ => true | _ => false end.
Definition is_authentication (e : event) : bool :=
  match e with
  | EvAuthenticateGcloudSDK _ | EvIsAuthenticated => true
  | _ => false
  end.
Definition is_path_addition (e : event) : bool :=
  match e with EvAddPath _ => true | _ => false end.
Definition is_output (e : event) : bool :=
  match e with EvSetOutput _ _ => true | _ => false end.
Definition is_failure_report (e : event) : bool :=
  match e with EvSetFailed _ => true | _ => false end.
Definition is_export (e : event) : bool :=
  match e with EvExportVariable _ _ => true | _ => false end.

(** A warning with exactly this text. *)
Definition warns (msg : jsstring) (e : event) : bool :=
  match e with EvWarning m => eqb m msg | _ => false end.

(** The calls of one kind, in order. *)
Definition only (P : event -> bool) (l : list event) : list event :=
  List.filter P l.

(** [API_URL] of line 43, with the repository name the step starts with. *)
Definition api_url (w : World) : jsstring :=
  cat Text.api_url_prefix
      (cat (interpolate (initial_env w !! Text.GITHUB_REPOSITORY))
           Text.api_url_suffix).

(** The validation endpoint answered 403 (line 48). *)
Definition rejected (w : World) : bool :=
  match axios_get w (api_url w) 3000 with
  | Returns _ => false
  | Raises error => is_axios_error error && status_is error 403
  end.

(** What the entitlement check logs when it lets the run pass. *)
Definition check_calls (w : World) : list event :=
  EvAxiosGet (api_url w) 3000 ::
  match axios_get w (api_url w) 3000 with
  | Returns _ => []
  | Raises _ => [EvInfo Text.api_unreachable]
  end.

(** The calls of lines 62-70. *)
Definition publish_calls (w : World) : list event :=
  [EvExportVariable Text.CLOUDSDK_METRICS_ENVIRONMENT Text.metrics_environment;
   EvExportVariable Text.CLOUDSDK_METRICS_ENVIRONMENT_VERSION (appVersion w);
   EvProcessEnvAssign Text.CLOUDSDK_CORE_DISABLE_PROMPTS (js "1")]
  ++ (if isPinnedToHead w
      then [EvWarning (pinnedToHeadWarning w Text.v3)]
      else []).

(** The environments once line 65 has run. *)
Definition ready (w : World) : state :=
  State (<[Text.CLOUDSDK_CORE_DISABLE_PROMPTS := js "1"]>
           (<[Text.CLOUDSDK_METRICS_ENVIRONMENT_VERSION := appVersion w]>
              (<[Text.CLOUDSDK_METRICS_ENVIRONMENT := Text.metrics_environment]>
                 (initial_env w))))
        (<[Text.CLOUDSDK_METRICS_ENVIRONMENT_VERSION := appVersion w]>
           (<[Text.CLOUDSDK_METRICS_ENVIRONMENT := Text.metrics_environment]> ∅))
        [].

(** The five reads of lines 73-77. *)
Definition input_reads : list event :=
  [EvGetInput Text.skip_install; EvGetInput Text.version;
   EvGetInput Text.install_components; EvGetInput Text.project_id;
   EvGetInput Text.cache].

(** What the [catch] block reports for the way the [try] block ended. *)
Definition failure_calls (w : World) {A : Type} (c : completion A) : list event :=
  match c with
  | Throw e => [EvSetFailed (cat Text.failed_with (errorMessage w e))]
  | _ => []
  end.

(** The version lines 96-104 arrive at, or the exception of the
    latest-resolution call. *)
Definition resolved_version (w : World) (version : option jsstring)
    : outcome jsstring :=
  if truthy_opt version then
    if eqb (narrowed version) Text.latest
    then bestVersion w Text.any_version
    else Returns (narrowed version)
  else Returns Text.any_version.

(** The exception with which the delegated operation recorded as [e]
    fails in world [w], for the five operations whose failure [run] does
    not handle locally. *)
Definition raised (w : World) (e : event) : option js_error :=
  let thrown {A : Type} (o : outcome A) :=
    match o with
    | Returns _ => None
    | Raises x => Some x
    end in
  match e with
  | EvBestVersion range => thrown (bestVersion w range)
  | EvInstallGcloudSDK version useCache =>
      thrown (installGcloudSDK w version useCache)
  | EvInstallComponent components => thrown (installComponent w components)
  | EvAuthenticateGcloudSDK credFile => thrown (authenticateGcloudSDK w credFile)
  | EvSetProject projectId => thrown (setProject w projectId)
  | _ => None
  end.

(** Whenever one of the calls the computation made fails in [w], the
    computation ended by throwing that failure. *)
Definition propagates (w : World) {A : Type} (m : M A) : Prop :=
  forall s e x,
    In e (calls (m s)) -> raised w e = Some x -> ended (m s) = Throw x.

(** The notice about a mutable reference, if the run shows it, is not
    the text [msg]. *)
Definition pinned_notice_differs (w : World) (msg : jsstring) : Prop :=
  isPinnedToHead w = true -> pinnedToHeadWarning w Text.v3 <> msg.

(** The computation writes nothing of its surroundings and does not end
    the process. *)
Definition contained {A : Type} (m : M A) : Prop :=
  forall s, final (m s) = s /\ forall c, ended (m s) <> Exit c.

(** [s'] is [s] but for the search path: the exported variables are the
    same, and so is every variable of [process.env] other than [PATH]. *)
Definition same_but_path (s s' : state) : Prop :=
  job_env s' = job_env s /\
  forall name,
    name <> Text.PATH -> process_env s' !! name = process_env s !! name.

(** The computation writes at most the search path and does not end the
    process. *)
Definition sheltered {A : Type} (m : M A) : Prop :=
  forall s, same_but_path s (final (m s)) /\ forall c, ended (m s) <> Exit c.

(** The calls [l] happened first, then [r]. *)
Definition prepend {B : Type} (l : list event) (r : result B) : result B :=
  Result (ended r) (final r) (l ++ calls r).

(** Every call the computation makes, from any state, satisfies [Q]. *)
Definition every (Q : event -> Prop) {A : Type} (m : M A) : Prop :=
  forall s, Forall Q (calls (m s)).

(** ** Further observations *)

Definition is_project_configuration (e : event) : bool :=
  match e with EvSetProject _ => true | _ => false end.

(** The place of a call in the order of [run]; the logging calls have
    none of their own. *)
Definition stage (e : event) : option nat :=
  match e with
  | EvAxiosGet _ _ => Some 0
  | EvExportVariable _ _ | EvProcessEnvAssign _ _ => Some 1
  | EvGetInput _ => Some 2
  | EvBestVersion _ => Some 3
  | EvToolCacheFind _ _ => Some 4
  | EvAddPath _ | EvInstallGcloudSDK _ _ => Some 5
  | EvInstallComponent _ => Some 6
  | EvAuthenticateGcloudSDK _ | EvIsAuthenticated => Some 7
  | EvSetProject _ => Some 8
  | EvSetOutput _ _ => Some 9
  | EvSetFailed _ => Some 10
  | EvError _ | EvInfo _ | EvWarning _ | EvDebug _ => None
  end%nat.

Definition stages (l : list event) : list nat := omap stage l.

(** The calls the computation makes come in stage order and stay between
    two stages. *)
Definition within (lo hi : nat) {A : Type} (m : M A) : Prop :=
  forall s,
    StronglySorted le (stages (calls (m s))) /\
    Forall (fun n => (lo <= n <= hi)%nat) (stages (calls (m s))).

(** Every call the computation makes belongs to stage [n] or is a logging
    call. *)
Definition at_stage (n : nat) (e : event) : Prop :=
  match stage e with
  | Some k => k = n
  | None => True
  end.

(** The exception with which the call recorded as [e] fails in [w], for
    every call of [run] that can throw: the five of [raised], and the two
    whose exception [run] handles on the spot -- the entitlement request
    (lines 45-54) and the authentication check (lines 128-132). *)
Definition threw (w : World) (e : event) : option js_error :=
  match e with
  | EvAxiosGet url timeout =>
      match axios_get w url timeout with
      | Returns _ => None
      | Raises x => Some x
      end
  | EvIsAuthenticated =>
      match isAuthenticated w with
      | Returns _ => None
      | Raises x => Some x
      end
  | _ => raised w e
  end.

(** More concrete runners. *)
Module Cases.

Import Sample.

(** [skip_install: maybe] *)
Definition bad_skip_install : setup :=
  Setup "maybe" "1.2.3" "alpha" "my-project" "true" false None (Returns tt).

(** [cache: maybe] *)
Definition bad_cache : setup :=
  Setup "false" "1.2.3" "alpha" "my-project" "maybe" false None (Returns tt).

(** [version: 4.0.0] on a runner that does not have it cached. *)
Definition pinned_cold : setup :=
  Setup "false" "4.0.0" blank blank "true" false None (Returns tt).

(** Everything asked for at once. *)
Definition full : setup :=
  Setup "false" "4.0.0" "alpha, beta" "my-project" "true" false
        (Some "/tmp/creds.json"%string) (Returns tt).

(** The system-provided gcloud with extra components. *)
Definition skip_with_components : setup :=
  Setup "true" blank "alpha, beta" blank blank false None (Returns tt).

(** [version: 4.0.0] on a runner that has it cached and has a search
    path. *)
Definition warm_runner : World := {|
  initial_env := {[ Text.PATH := js "/usr/bin" ]};
  appVersion := appVersion (world pinned_warm);
  axios_get := axios_get (world pinned_warm);
  isPinnedToHead := isPinnedToHead (world pinned_warm);
  pinnedToHeadWarning := pinnedToHeadWarning (world pinned_warm);
  parseBoolean := parseBoolean (world pinned_warm);
  presence := presence (world pinned_warm);
  errorMessage := errorMessage (world pinned_warm);
  getInput := getInput (world pinned_warm);
  toolCache_find := toolCache_find (world pinned_warm);
  path_join := path_join (world pinned_warm);
  path_delimiter := path_delimiter (world pinned_warm);
  bestVersion := bestVersion (world pinned_warm);
  installGcloudSDK := installGcloudSDK (world pinned_warm);
  installComponent := installComponent (world pinned_warm);
  authenticateGcloudSDK := authenticateGcloudSDK (world pinned_warm);
  isAuthenticated := isAuthenticated (world pinned_warm);
  setProject := setProject (world pinned_warm)
|}.

(** A runner where nobody is authenticated and asking about it fails. *)
Definition unauthenticated : World := {|
  initial_env := initial_env (world defaults);
  appVersion := appVersion (world defaults);
  axios_get := axios_get (world defaults);
  isPinnedToHead := isPinnedToHead (world defaults);
  pinnedToHeadWarning := pinnedToHeadWarning (world defaults);
  parseBoolean := parseBoolean (world defaults);
  presence := presence (world defaults);
  errorMessage := errorMessage (world defaults);
  getInput := getInput (world defaults);
  toolCache_find := toolCache_find (world defaults);
  path_join := path_join (world defaults);
  path_delimiter := path_delimiter (world defaults);
  bestVersion := bestVersion (world defaults);
  installGcloudSDK := installGcloudSDK (world defaults);
  installComponent := installComponent (world defaults);
  authenticateGcloudSDK := authenticateGcloudSDK (world defaults);
  isAuthenticated := Raises (JsError false None 9);
  setProject := setProject (world defaults)
|}.

End Cases.

(** The same runner with other answers to the two pre-flight checks: the
    entitlement request and the notice about a mutable reference. *)
Definition with_preflight (w : World)
    (request : jsstring -> Z -> outcome unit)
    (pinned : bool) (notice : jsstring -> jsstring) : World := {|
  initial_env := initial_env w;
  appVersion := appVersion w;
  axios_get := request;
  isPinnedToHead := pinned;
  pinnedToHeadWarning := notice;
  parseBoolean := parseBoolean w;
  presence := presence w;
  errorMessage := errorMessage w;
  getInput := getInput w;
  toolCache_find := toolCache_find w;
  path_join := path_join w;
  path_delimiter := path_delimiter w;
  bestVersion := bestVersion w;
  installGcloudSDK := installGcloudSDK w;
  installComponent := installComponent w;
  authenticateGcloudSDK := authenticateGcloudSDK w;
  isAuthenticated := isAuthenticated w;
  setProject := setProject w
|}.

(** ** Laws of the monad *)

Section Laws.

Context {A B : Type}.

Lemma bind_unfold (m : M A) (k : A -> M B) (s : state) :
  bind m k s =
  match ended (m s) with
  | Normal a => prepend (calls (m s)) (k a (final (m s)))
  | Throw e => Result (Throw e) (final (m s)) (calls (m s))
  | Exit c => Result (Exit c) (final (m s)) (calls (m s))
  end.
Proof.
  unfold bind, prepend.
  destruct (m s) as [[a | e | c] s1 l1]; cbn; [ | reflexivity | reflexivity ].
  destruct (k a s1); reflexivity.
Qed.

Lemma bind_normal (m : M A) (k : A -> M B) (s s1 : state) a l :
  m s = Result (Normal a) s1 l ->
  bind m k s = prepend l (k a s1).
Proof. intros H. rewrite bind_unfold, H. reflexivity. Qed.

Lemma try_catch_unfold (body : M B) (handler : js_error -> M B) (s : state) :
  try_catch body handler s =
  match ended (body s) with
  | Throw e => prepend (calls (body s)) (handler e (final (body s)))
  | _ => body s
  end.
Proof.
  unfold try_catch, prepend.
  destruct (body s) as [[a | e | c] s1 l1]; cbn; try reflexivity.
  destruct (handler e s1); reflexivity.
Qed.

End Laws.

Lemma calls_prepend {A : Type} l (r : result A) :
  calls (prepend l r) = l ++ calls r.
Proof. reflexivity. Qed.

Lemma ended_prepend {A : Type} l (r : result A) :
  ended (prepend l r) = ended r.
Proof. reflexivity. Qed.

Lemma final_prepend {A : Type} l (r : result A) :
  final (prepend l r) = final r.
Proof. reflexivity. Qed.

Lemma only_app P l1 l2 : only P (l1 ++ l2) = only P l1 ++ only P l2.
Proof. apply List.filter_app. Qed.

Lemma only_none P l : Forall (fun e => P e = false) l -> only P l = [].
Proof.
  induction 1 as [ | e l He _ IH ]; [ reflexivity | ].
  cbn. rewrite He. exact IH.
Qed.

Lemma in_only P e l : In e l -> P e = true -> In e (only P l).
Proof. intros H1 H2. apply List.filter_In. split; assumption. Qed.

(** ** Properties of every call a computation makes *)

Section Every.

Variable Q : event -> Prop.

Lemma every_ret {A : Type} (a : A) : every Q (ret a).
Proof. intros s. constructor. Qed.

Lemma every_emit e : Q e -> every Q (emit e).
Proof. intros H s. repeat constructor. exact H. Qed.

Lemma every_await {A : Type} e (o : outcome A) : Q e -> every Q (await e o).
Proof. intros H s. unfold await. destruct o; repeat constructor; exact H. Qed.

Lemma every_attempt {A : Type} (o : outcome A) : every Q (attempt o).
Proof. intros s. unfold attempt. destruct o; constructor. Qed.

Lemma every_exit {A : Type} c : every Q (@process_exit A c).
Proof. intros s. constructor. Qed.

Lemma every_read_process_env name : every Q (read_process_env name).
Proof. intros s. constructor. Qed.

Lemma every_bind {A B : Type} (m : M A) (k : A -> M B) :
  every Q m -> (forall a, every Q (k a)) -> every Q (bind m k).
Proof.
  intros Hm Hk s. rewrite bind_unfold.
  specialize (Hm s).
  destruct (ended (m s)); cbn; try exact Hm.
  apply Forall_app. split; [ exact Hm | apply Hk ].
Qed.

Lemma every_try_catch {A : Type} (m : M A) (h : js_error -> M A) :
  every Q m -> (forall e, every Q (h e)) -> every Q (try_catch m h).
Proof.
  intros Hm Hh s. rewrite try_catch_unfold.
  specialize (Hm s).
  destruct (ended (m s)); cbn; try exact Hm.
  apply Forall_app. split; [ exact Hm | apply Hh ].
Qed.

Lemma every_when (b : bool) (m : M unit) :
  (b = true -> every Q m) -> every Q (when b m).
Proof. destruct b; cbn; [ auto | intros _; apply every_ret ]. Qed.

Lemma every_if {A : Type} (b : bool) (m1 m2 : M A) :
  (b = true -> every Q m1) -> (b = false -> every Q m2) ->
  every Q (if b then m1 else m2).
Proof. destruct b; auto. Qed.

End Every.

Lemma every_getInput (Q : event -> Prop) w name :
  Q (EvGetInput name) -> every Q (core_getInput w name).
Proof. intros H s. repeat constructor. exact H. Qed.

Lemma every_find (Q : event -> Prop) w tool v :
  Q (EvToolCacheFind tool v) -> every Q (toolCache_find_call w tool v).
Proof. intros H s. repeat constructor. exact H. Qed.

Lemma every_addPath (Q : event -> Prop) w dir :
  Q (EvAddPath dir) -> every Q (core_addPath w dir).
Proof. intros H s. repeat constructor. exact H. Qed.

(** One syntax-directed step, and the search that repeats it. *)
Ltac every_step :=
  cbv beta;
  lazymatch goal with
  | |- every _ (bind _ _) => apply every_bind; [ | intros ? ]
  | |- every _ (try_catch _ _) => apply every_try_catch; [ | intros ? ]
  | |- every _ (when _ _) => apply every_when; intros ?
  | |- every _ (if _ then _ else _) => apply every_if; intros ?
  | |- every _ (ret _) => apply every_ret
  | |- every _ (attempt _) => apply every_attempt
  | |- every _ (process_exit _) => apply every_exit
  | |- every _ (read_process_env _) => apply every_read_process_env
  | |- every _ (await _ _) => apply every_await
  | |- every _ (emit _) => apply every_emit
  | |- every _ (core_getInput _ _) => apply every_getInput
  | |- every _ (toolCache_find_call _ _ _) => apply every_find
  | |- every _ (core_addPath _ _) => apply every_addPath
  | |- every _ (let x := _ in _) => cbv zeta
  end.

Ltac every_call :=
  unfold main, steps, finish, provision, resolve, acquire, installComponents,
    authenticate, configureProject, report_failure,
    core_error, core_info, core_warning, core_debug,
    core_setOutput, core_setFailed;
  repeat every_step.

(** ** String equality *)

Lemma eqb_eq a b : eqb a b = true <-> a = b.
Proof.
  revert b. induction a as [ | x a IH ]; intros [ | y b ]; cbn;
    try (split; [ discriminate | congruence ]); [ tauto | ].
  rewrite andb_true_iff, N.eqb_eq, IH.
  split; [ intros [-> ->]; reflexivity | intros H; injection H; auto ].
Qed.

Lemma eqb_neq a b : eqb a b = false <-> a <> b.
Proof.
  rewrite <- eqb_eq. destruct (eqb a b); split; congruence.
Qed.

Lemma truthy_eqb_nil s : truthy s = negb (eqb s []).
Proof. destruct s; reflexivity. Qed.

(** ** [split] and [trim] *)

Lemma split_not_empty sep s : split sep s <> [].
Proof.
  destruct s as [ | c s ]; cbn; [ discriminate | ].
  destruct (N.eqb c sep); [ discriminate | ].
  destruct (split sep s); discriminate.
Qed.

Lemma split_length sep s :
  List.length (split sep s) = S (occurrences sep s).
Proof.
  unfold occurrences.
  induction s as [ | c s IH ]; [ reflexivity | ].
  cbn. rewrite (N.eqb_sym sep c).
  destruct (N.eqb c sep); cbn; [ rewrite IH; reflexivity | ].
  destruct (split sep s) as [ | piece pieces ]; [ discriminate | exact IH ].
Qed.

Lemma join_split sep s : join sep (split sep s) = s.
Proof.
  induction s as [ | c s IH ]; [ reflexivity | ].
  cbn. destruct (N.eqb c sep) eqn:E.
  - apply N.eqb_eq in E. subst c.
    pose proof (split_not_empty sep s) as Hne.
    destruct (split sep s) as [ | piece pieces ]; [ congruence | ].
    change (join sep ([] :: piece :: pieces))
      with (sep :: join sep (piece :: pieces)).
    rewrite IH. reflexivity.
  - pose proof (split_not_empty sep s) as Hne.
    destruct (split sep s) as [ | piece pieces ]; [ congruence | ].
    rewrite <- IH. destruct pieces; reflexivity.
Qed.

Lemma trimStart_suffix s : exists ws, s = ws ++ trimStart s.
Proof.
  induction s as [ | c s [ws IH] ]; [ exists []; reflexivity | ].
  cbn. destruct (is_whitespace c).
  - exists (c :: ws). cbn. rewrite <- IH. reflexivity.
  - exists []. reflexivity.
Qed.

Lemma trimStart_clean s : starts_clean (trimStart s) = true.
Proof.
  induction s as [ | c s IH ]; [ reflexivity | ].
  cbn. destruct (is_whitespace c) eqn:E; [ exact IH | ].
  cbn. rewrite E. reflexivity.
Qed.

Lemma trimEnd_prefix s : exists ws, s = trimEnd s ++ ws.
Proof.
  unfold trimEnd. destruct (trimStart_suffix (List.rev s)) as [ws H].
  exists (List.rev ws).
  rewrite <- List.rev_app_distr, <- H, List.rev_involutive. reflexivity.
Qed.

Lemma trim_is_trimmed s : is_trimmed (trim s) = true.
Proof.
  unfold is_trimmed, trim. apply andb_true_intro. split.
  - pose proof (trimStart_clean s) as Hclean.
    destruct (trimEnd_prefix (trimStart s)) as [ws H].
    destruct (trimEnd (trimStart s)) as [ | c t ]; [ reflexivity | ].
    rewrite H in Hclean. exact Hclean.
  - unfold trimEnd. rewrite List.rev_involutive. apply trimStart_clean.
Qed.

Section Contained.

Lemma contained_ret {A : Type} (a : A) : contained (ret a).
Proof. intros s. split; [ reflexivity | discriminate ]. Qed.

Lemma contained_emit e : contained (emit e).
Proof. intros s. split; [ reflexivity | discriminate ]. Qed.

Lemma contained_await {A : Type} e (o : outcome A) : contained (await e o).
Proof. intros s. unfold await. destruct o; (split; [ reflexivity | discriminate ]). Qed.

Lemma contained_attempt {A : Type} (o : outcome A) : contained (attempt o).
Proof. intros s. unfold attempt. destruct o; (split; [ reflexivity | discriminate ]). Qed.

Lemma contained_read_process_env name : contained (read_process_env name).
Proof. intros s. split; [ reflexivity | discriminate ]. Qed.

Lemma contained_bind {A B : Type} (m : M A) (k : A -> M B) :
  contained m -> (forall a, contained (k a)) -> contained (bind m k).
Proof.
  intros Hm Hk s. rewrite bind_unfold.
  destruct (Hm s) as [Hs Hc].
  destruct (ended (m s)) as [a | e | c] eqn:E; cbn.
  - rewrite Hs. apply Hk.
  - split; [ exact Hs | discriminate ].
  - destruct (Hc c). reflexivity.
Qed.

Lemma contained_try_catch {A : Type} (m : M A) (h : js_error -> M A) :
  contained m -> (forall e, contained (h e)) -> contained (try_catch m h).
Proof.
  intros Hm Hh s. rewrite try_catch_unfold.
  destruct (Hm s) as [Hs Hc].
  destruct (ended (m s)) as [a | e | c] eqn:E; cbn.
  - split; [ exact Hs | rewrite E; discriminate ].
  - rewrite Hs. apply Hh.
  - destruct (Hc c). reflexivity.
Qed.

Lemma contained_when (b : bool) (m : M unit) :
  contained m -> contained (when b m).
Proof. destruct b; cbn; [ auto | intros _; apply contained_ret ]. Qed.

Lemma contained_if {A : Type} (b : bool) (m1 m2 : M A) :
  contained m1 -> contained m2 -> contained (if b then m1 else m2).
Proof. destruct b; auto. Qed.

End Contained.

Create HintDb contained.
#[local] Hint Resolve contained_ret contained_emit contained_await
  contained_attempt contained_read_process_env contained_bind
  contained_try_catch contained_when contained_if : contained.

Lemma bind_contained {A B : Type} (m : M A) (k : A -> M B) s :
  contained m ->
  bind m k s =
  match ended (m s) with
  | Throw e => Result (Throw e) s (calls (m s))
  | Normal a => prepend (calls (m s)) (k a s)
  | Exit c => Result (Exit c) s (calls (m s))
  end.
Proof.
  intros H. rewrite bind_unfold. destruct (H s) as [-> _]. reflexivity.
Qed.

(** ** Computations that write the search path at most *)

Lemma same_but_path_refl s : same_but_path s s.
Proof. split; [ reflexivity | intros name _; reflexivity ]. Qed.

Lemma same_but_path_trans s1 s2 s3 :
  same_but_path s1 s2 -> same_but_path s2 s3 -> same_but_path s1 s3.
Proof.
  intros [Hjob Henv] [Hjob' Henv']. split.
  - rewrite Hjob'. exact Hjob.
  - intros name Hname. rewrite Henv' by exact Hname. apply Henv, Hname.
Qed.

Lemma same_but_path_credentials s s' :
  same_but_path s s' ->
  process_env s' !! Text.GOOGLE_GHA_CREDS_PATH
  = process_env s !! Text.GOOGLE_GHA_CREDS_PATH.
Proof.
  intros [_ H]. apply H. intros Heq. vm_compute in Heq. discriminate Heq.
Qed.

Section Sheltered.

Lemma sheltered_contained {A : Type} (m : M A) : contained m -> sheltered m.
Proof.
  intros H s. destruct (H s) as [Hs Hexit].
  split; [ rewrite Hs; apply same_but_path_refl | exact Hexit ].
Qed.

Lemma sheltered_bind {A B : Type} (m : M A) (k : A -> M B) :
  sheltered m -> (forall a, sheltered (k a)) -> sheltered (bind m k).
Proof.
  intros Hm Hk s. rewrite bind_unfold.
  destruct (Hm s) as [Hs Hc].
  destruct (ended (m s)) as [a | e | c] eqn:E; cbn.
  - destruct (Hk a (final (m s))) as [Hs' Hc'].
    split; [ exact (same_but_path_trans _ _ _ Hs Hs') | exact Hc' ].
  - split; [ exact Hs | discriminate ].
  - destruct (Hc c). reflexivity.
Qed.

Lemma sheltered_try_catch {A : Type} (m : M A) (h : js_error -> M A) :
  sheltered m -> (forall e, sheltered (h e)) -> sheltered (try_catch m h).
Proof.
  intros Hm Hh s. rewrite try_catch_unfold.
  destruct (Hm s) as [Hs Hc].
  destruct (ended (m s)) as [a | e | c] eqn:E; cbn.
  - split; [ exact Hs | rewrite E; discriminate ].
  - destruct (Hh e (final (m s))) as [Hs' Hc'].
    split; [ exact (same_but_path_trans _ _ _ Hs Hs') | exact Hc' ].
  - destruct (Hc c). reflexivity.
Qed.

Lemma sheltered_if {A : Type} (b : bool) (m1 m2 : M A) :
  sheltered m1 -> sheltered m2 -> sheltered (if b then m1 else m2).
Proof. destruct b; auto. Qed.

Lemma sheltered_cases {A : Type} (m : M A) s :
  sheltered m ->
  (exists a, ended (m s) = Normal a) \/ (exists e, ended (m s) = Throw e).
Proof.
  intros H. destruct (H s) as [_ Hexit].
  destruct (ended (m s)) as [a | e | c]; eauto.
  destruct (Hexit c). reflexivity.
Qed.

End Sheltered.

Section Phases.

Variable w : World.

Lemma contained_getInput name : contained (core_getInput w name).
Proof. intros s. split; [ reflexivity | discriminate ]. Qed.

Lemma contained_find tool v : contained (toolCache_find_call w tool v).
Proof. intros s. split; [ reflexivity | discriminate ]. Qed.

Hint Resolve contained_getInput contained_find : contained.

Ltac contained_tac :=
  unfold core_error, core_info, core_warning, core_debug,
    core_setOutput, core_setFailed;
  auto 20 with contained.

Lemma contained_resolve v : contained (resolve w v).
Proof. unfold resolve. contained_tac. Qed.

Lemma contained_installComponents comps : contained (installComponents w comps).
Proof. unfold installComponents. contained_tac. Qed.

Lemma contained_authenticate : contained (authenticate w).
Proof.
  unfold authenticate. apply contained_bind; [ contained_tac | intros credFile ].
  contained_tac.
Qed.

Lemma contained_configureProject p : contained (configureProject w p).
Proof. unfold configureProject. contained_tac. Qed.

Hint Resolve contained_resolve contained_installComponents
  contained_authenticate contained_configureProject : contained.

Lemma contained_finish comps p v : contained (finish w comps p v).
Proof. unfold finish. contained_tac. Qed.

Hint Resolve contained_finish : contained.

Lemma contained_report_failure e : contained (report_failure w e).
Proof. unfold report_failure. contained_tac. Qed.

(** [core.addPath] writes [PATH] and the path of the later steps. *)
Lemma sheltered_addPath dir : sheltered (core_addPath w dir).
Proof.
  intros s. split; [ | discriminate ].
  split; [ reflexivity | ].
  intros name Hname. unfold core_addPath. cbn [final process_env].
  apply lookup_insert_ne. intros Heq. exact (Hname (eq_sym Heq)).
Qed.

Ltac sheltered_tac :=
  first [ apply sheltered_contained; solve [ contained_tac ]
        | apply sheltered_addPath
        | apply sheltered_bind; [ sheltered_tac | intros ?; sheltered_tac ]
        | apply sheltered_if; sheltered_tac ].

Lemma sheltered_acquire v c : sheltered (acquire w v c).
Proof. unfold acquire. sheltered_tac. Qed.

Lemma sheltered_provision sk v comps c : sheltered (provision w sk v comps c).
Proof.
  unfold provision. apply sheltered_if; [ sheltered_tac | ].
  apply sheltered_bind; [ sheltered_tac | intros rv ].
  apply sheltered_bind; [ apply sheltered_acquire | intros _; sheltered_tac ].
Qed.

Lemma sheltered_steps sk v comps p c : sheltered (steps w sk v comps p c).
Proof.
  unfold steps.
  apply sheltered_bind; [ apply sheltered_provision | intros v' ].
  sheltered_tac.
Qed.

Lemma sheltered_main : sheltered (main w).
Proof.
  unfold main.
  do 5 (apply sheltered_bind; [ sheltered_tac | intros ? ]).
  apply sheltered_steps.
Qed.

Lemma sheltered_boundary : sheltered (try_catch (main w) (report_failure w)).
Proof.
  apply sheltered_try_catch; [ apply sheltered_main | intros e ].
  apply sheltered_contained, contained_report_failure.
Qed.

(** The error boundary always hands control back normally. *)
Lemma boundary_ended s :
  ended (try_catch (main w) (report_failure w) s) = Normal tt.
Proof.
  rewrite try_catch_unfold.
  destruct (sheltered_main s) as [_ Hexit].
  destruct (ended (main w s)) as [[] | e | c] eqn:E.
  - exact E.
  - reflexivity.
  - destruct (Hexit c). reflexivity.
Qed.

Lemma boundary_final s :
  same_but_path s (final (try_catch (main w) (report_failure w) s)).
Proof. apply sheltered_boundary. Qed.

Lemma validateSubscription_start :
  validateSubscription w (start w) =
  if rejected w
  then Result (Exit 1) (start w)
              [EvAxiosGet (api_url w) 3000; EvError Text.subscription_invalid]
  else Result (Normal tt) (start w) (check_calls w).
Proof.
  unfold validateSubscription, rejected, check_calls.
  rewrite (bind_normal _ _ (start w) (start w)
             (initial_env w !! Text.GITHUB_REPOSITORY) []) by reflexivity.
  fold (api_url w). rewrite try_catch_unfold. unfold await.
  destruct (axios_get w (api_url w) 3000) as [[] | error]; cbn; [ reflexivity | ].
  destruct (is_axios_error error && status_is error 403); reflexivity.
Qed.

Lemma preamble_start :
  preamble w (start w) =
  if rejected w
  then Result (Exit 1) (start w)
              [EvAxiosGet (api_url w) 3000; EvError Text.subscription_invalid]
  else Result (Normal tt) (ready w) (check_calls w ++ publish_calls w).
Proof.
  unfold preamble. rewrite bind_unfold, validateSubscription_start.
  destruct (rejected w); [ reflexivity | ].
  unfold publish_calls. cbn -[insert Text.metrics_environment js].
  destruct (isPinnedToHead w); reflexivity.
Qed.

Lemma execute_unfold :
  execute w =
  if rejected w
  then Result (Exit 1) (start w)
              [EvAxiosGet (api_url w) 3000; EvError Text.subscription_invalid]
  else prepend (check_calls w ++ publish_calls w)
               (try_catch (main w) (report_failure w) (ready w)).
Proof.
  unfold execute, run. rewrite bind_unfold, preamble_start.
  destruct (rejected w); reflexivity.
Qed.

Lemma main_unfold s :
  main w s =
  match parseBoolean w (getInput w Text.skip_install) with
  | Raises e => Result (Throw e) s [EvGetInput Text.skip_install]
  | Returns sk =>
      match parseBoolean w (getInput w Text.cache) with
      | Raises e => Result (Throw e) s input_reads
      | Returns c =>
          prepend input_reads
            (steps w sk (presence w (getInput w Text.version))
               (getInput w Text.install_components)
               (getInput w Text.project_id) c s)
      end
  end.
Proof.
  unfold main, core_getInput, attempt, ret, bind at 1 2 3 4 5 6 7 8.
  destruct (parseBoolean w (getInput w Text.skip_install)) as [sk | e];
    [ | reflexivity ].
  destruct (parseBoolean w (getInput w Text.cache)) as [c | e];
    [ | reflexivity ].
  unfold prepend.
  destruct (steps w sk _ _ _ c s); reflexivity.
Qed.

(** *** What each block of [run] does, case by case *)

Ltac unfold_calls :=
  unfold core_error, core_info, core_warning, core_debug, core_addPath,
    core_setOutput, core_setFailed, toolCache_find_call, core_getInput,
    read_process_env, await, attempt, emit, ret, when.

Lemma provision_skip v comps c s :
  provision w true v comps c s =
  Result (Normal v) s
    (EvInfo Text.skipping_installation ::
     (if truthy_opt v && negb (eqb (narrowed v) Text.latest)
      then [EvWarning Text.ignoring_version] else [])
     ++ (if truthy comps then [EvWarning Text.components_may_fail] else [])).
Proof.
  unfold provision, bind. unfold_calls.
  destruct (truthy_opt v && negb (eqb (narrowed v) Text.latest));
    destruct (truthy comps); reflexivity.
Qed.

Lemma resolve_unset v s :
  truthy_opt v = false ->
  resolve w v s = Result (Normal Text.any_version) s [EvDebug Text.version_unset].
Proof.
  intros H. unfold resolve, bind. unfold_calls. rewrite H. reflexivity.
Qed.

Lemma resolve_literal v s :
  truthy_opt v = true -> eqb (narrowed v) Text.latest = false ->
  resolve w v s = Result (Normal (narrowed v)) s [].
Proof.
  intros H1 H2. unfold resolve, bind. unfold_calls. rewrite H1. cbn [negb].
  rewrite H2. reflexivity.
Qed.

Lemma resolve_latest v s :
  truthy_opt v = true -> eqb (narrowed v) Text.latest = true ->
  resolve w v s =
  match bestVersion w Text.any_version with
  | Returns r =>
      Result (Normal r) s
        [EvDebug Text.resolving_latest; EvBestVersion Text.any_version;
         EvDebug (cat Text.resolved_latest_to r)]
  | Raises e =>
      Result (Throw e) s
        [EvDebug Text.resolving_latest; EvBestVersion Text.any_version]
  end.
Proof.
  intros H1 H2. unfold resolve, bind. unfold_calls. rewrite H1. cbn [negb].
  rewrite H2. destruct (bestVersion w Text.any_version); reflexivity.
Qed.

Lemma acquire_hit v c s :
  eqb (toolCache_find w Text.gcloud v) [] = false ->
  let dir := path_join w (toolCache_find w Text.gcloud v) Text.bin in
  acquire w v c s =
  Result (Normal tt) (final (core_addPath w dir s))
    [EvToolCacheFind Text.gcloud v; EvAddPath dir].
Proof.
  intros H. unfold acquire, bind. unfold_calls. rewrite H. reflexivity.
Qed.

Lemma acquire_miss v c s :
  eqb (toolCache_find w Text.gcloud v) [] = true ->
  acquire w v c s =
  let l := [EvToolCacheFind Text.gcloud v;
            EvDebug (cat Text.no_version_matching (cat v Text.is_installed));
            EvInstallGcloudSDK v c] in
  match installGcloudSDK w v c with
  | Returns _ => Result (Normal tt) s l
  | Raises e => Result (Throw e) s l
  end.
Proof.
  intros H. unfold acquire, bind. unfold_calls. rewrite H. cbn [negb].
  destruct (installGcloudSDK w v c) as [[] | e]; reflexivity.
Qed.

Lemma installComponents_unfold comps s :
  installComponents w comps s =
  if truthy comps then
    let l := List.map trim (split comma comps) in
    match installComponent w l with
    | Returns _ => Result (Normal tt) s [EvInstallComponent l]
    | Raises e => Result (Throw e) s [EvInstallComponent l]
    end
  else Result (Normal tt) s [].
Proof.
  unfold installComponents. unfold_calls.
  destruct (truthy comps); [ | reflexivity ].
  cbv zeta. destruct (installComponent w _) as [[] | e]; reflexivity.
Qed.

Lemma authenticate_unfold s :
  authenticate w s =
  let credFile := process_env s !! Text.GOOGLE_GHA_CREDS_PATH in
  if truthy_opt credFile then
    match authenticateGcloudSDK w (narrowed credFile) with
    | Returns _ =>
        Result (Normal tt) s
          [EvAuthenticateGcloudSDK (narrowed credFile);
           EvInfo Text.authenticated_ok]
    | Raises e =>
        Result (Throw e) s [EvAuthenticateGcloudSDK (narrowed credFile)]
    end
  else
    Result (Normal tt) s
      (EvIsAuthenticated ::
       match isAuthenticated w with
       | Returns true => []
       | _ => [EvWarning Text.not_authenticated]
       end).
Proof.
  unfold authenticate, bind, try_catch. unfold_calls. cbv zeta.
  destruct (truthy_opt (process_env s !! Text.GOOGLE_GHA_CREDS_PATH)).
  - destruct (authenticateGcloudSDK w _) as [[] | e]; reflexivity.
  - destruct (isAuthenticated w) as [[] | e]; reflexivity.
Qed.

Lemma configureProject_unfold p s :
  configureProject w p s =
  if truthy p then
    match setProject w p with
    | Returns _ =>
        Result (Normal tt) s [EvSetProject p; EvInfo Text.project_ok]
    | Raises e => Result (Throw e) s [EvSetProject p]
    end
  else Result (Normal tt) s [].
Proof.
  unfold configureProject, bind. unfold_calls.
  destruct (truthy p); [ | reflexivity ].
  destruct (setProject w p) as [[] | e]; reflexivity.
Qed.

(** A contained computation ends normally or throws. *)
Lemma contained_cases {A : Type} (m : M A) s :
  contained m ->
  (exists a, ended (m s) = Normal a) \/ (exists e, ended (m s) = Throw e).
Proof.
  intros H. destruct (H s) as [_ Hexit].
  destruct (ended (m s)) as [a | e | c]; eauto.
  destruct (Hexit c). reflexivity.
Qed.

Lemma finish_unfold comps p v s :
  finish w comps p v s =
  match ended (installComponents w comps s) with
  | Throw e => Result (Throw e) s (calls (installComponents w comps s))
  | _ =>
      prepend (calls (installComponents w comps s))
        match ended (authenticate w s) with
        | Throw e => Result (Throw e) s (calls (authenticate w s))
        | _ =>
            prepend (calls (authenticate w s))
              match ended (configureProject w p s) with
              | Throw e => Result (Throw e) s (calls (configureProject w p s))
              | _ =>
                  prepend (calls (configureProject w p s))
                    (Result (Normal tt) s [EvSetOutput Text.version v])
              end
        end
  end.
Proof.
  unfold finish.
  rewrite bind_contained by apply contained_installComponents.
  destruct (contained_cases _ s (contained_installComponents comps))
    as [[[] ->] | [e ->]]; [ | reflexivity ].
  rewrite bind_contained by apply contained_authenticate.
  destruct (contained_cases _ s contained_authenticate)
    as [[[] ->] | [e ->]]; [ | reflexivity ].
  rewrite bind_contained by apply contained_configureProject.
  destruct (contained_cases _ s (contained_configureProject p))
    as [[[] ->] | [e ->]]; reflexivity.
Qed.

(** The blocks of [finish] do not look at the search path: where they
    start from makes no difference to how they end and what they call, as
    long as the credentials variable is the same. *)
Lemma installComponents_anywhere comps s s' :
  ended (installComponents w comps s') = ended (installComponents w comps s) /\
  calls (installComponents w comps s') = calls (installComponents w comps s).
Proof.
  rewrite !installComponents_unfold.
  destruct (truthy comps); [ | split; reflexivity ].
  cbv zeta. destruct (installComponent w _); split; reflexivity.
Qed.

Lemma configureProject_anywhere p s s' :
  ended (configureProject w p s') = ended (configureProject w p s) /\
  calls (configureProject w p s') = calls (configureProject w p s).
Proof.
  rewrite !configureProject_unfold.
  destruct (truthy p); [ | split; reflexivity ].
  destruct (setProject w p); split; reflexivity.
Qed.

Lemma authenticate_moved s s' :
  same_but_path s s' ->
  ended (authenticate w s') = ended (authenticate w s) /\
  calls (authenticate w s') = calls (authenticate w s).
Proof.
  intros H. rewrite !authenticate_unfold. cbv zeta.
  rewrite (same_but_path_credentials s s' H).
  destruct (truthy_opt _).
  - destruct (authenticateGcloudSDK w _); split; reflexivity.
  - split; reflexivity.
Qed.

Lemma finish_moved comps p v s s' :
  same_but_path s s' ->
  finish w comps p v s' =
  Result (ended (finish w comps p v s)) s' (calls (finish w comps p v s)).
Proof.
  intros H. rewrite !finish_unfold.
  destruct (installComponents_anywhere comps s s') as [-> ->].
  destruct (authenticate_moved s s' H) as [-> ->].
  destruct (configureProject_anywhere p s s') as [-> ->].
  destruct (ended (installComponents w comps s)); try reflexivity;
    destruct (ended (authenticate w s)); try reflexivity;
    destruct (ended (configureProject w p s)); reflexivity.
Qed.

(** The state [finish] starts from: the one [provision] leaves. *)
Lemma steps_unfold sk v comps p c s :
  steps w sk v comps p c s =
  match ended (provision w sk v comps c s) with
  | Normal v' =>
      Result (ended (finish w comps p v' s))
             (final (provision w sk v comps c s))
             (calls (provision w sk v comps c s)
              ++ calls (finish w comps p v' s))
  | Throw e =>
      Result (Throw e) (final (provision w sk v comps c s))
             (calls (provision w sk v comps c s))
  | Exit x =>
      Result (Exit x) (final (provision w sk v comps c s))
             (calls (provision w sk v comps c s))
  end.
Proof.
  unfold steps. rewrite bind_unfold.
  destruct (ended (provision w sk v comps c s)) as [v' | e | x];
    [ | reflexivity .. ].
  rewrite (finish_moved comps p v' s) by apply sheltered_provision.
  reflexivity.
Qed.

Lemma provision_install v comps c s :
  provision w false v comps c s =
  match ended (resolve w v s) with
  | Normal rv =>
      prepend (calls (resolve w v s))
        match ended (acquire w rv c s) with
        | Throw e =>
            Result (Throw e) (final (acquire w rv c s))
                   (calls (acquire w rv c s))
        | _ =>
            Result (Normal (Some rv)) (final (acquire w rv c s))
                   (calls (acquire w rv c s))
        end
  | Throw e => Result (Throw e) s (calls (resolve w v s))
  | Exit x => Result (Exit x) s (calls (resolve w v s))
  end.
Proof.
  unfold provision.
  rewrite bind_contained by apply contained_resolve.
  destruct (ended (resolve w v s)) as [rv | e | x]; try reflexivity.
  rewrite bind_unfold.
  destruct (sheltered_cases _ s (sheltered_acquire rv c))
    as [[[] ->] | [e ->]]; [ | reflexivity ].
  unfold prepend, ret. cbn. rewrite app_nil_r. reflexivity.
Qed.

(** The whole run, cut at the error boundary. *)
Lemma execute_calls :
  rejected w = false ->
  calls (execute w) =
  check_calls w ++ publish_calls w ++ calls (main w (ready w))
  ++ failure_calls w (ended (main w (ready w))).
Proof.
  intros H. rewrite execute_unfold, H, calls_prepend, try_catch_unfold.
  rewrite <- app_assoc. do 2 f_equal.
  destruct (ended (main w (ready w))); cbn; rewrite ?app_nil_r; reflexivity.
Qed.

Lemma main_calls sk c s :
  parseBoolean w (getInput w Text.skip_install) = Returns sk ->
  parseBoolean w (getInput w Text.cache) = Returns c ->
  main w s =
  prepend input_reads
    (steps w sk (presence w (getInput w Text.version))
       (getInput w Text.install_components) (getInput w Text.project_id) c s).
Proof. intros H1 H2. rewrite main_unfold, H1, H2. reflexivity. Qed.

End Phases.

(** ** Failures of delegated calls reach the error boundary *)

Section Propagates.

Variable w : World.

Lemma propagates_ret {A : Type} (a : A) : propagates w (ret a).
Proof. intros s e x []. Qed.

Lemma propagates_attempt {A : Type} (o : outcome A) : propagates w (attempt o).
Proof. intros s e x. unfold attempt. destruct o; intros []. Qed.

Lemma propagates_read_process_env name : propagates w (read_process_env name).
Proof. intros s e x []. Qed.

Lemma propagates_emit e : raised w e = None -> propagates w (emit e).
Proof.
  intros H s e' x [<- | []] Hx. rewrite H in Hx. discriminate.
Qed.

Lemma propagates_getInput name : propagates w (core_getInput w name).
Proof. intros s e x [<- | []] Hx. discriminate. Qed.

Lemma propagates_find tool v : propagates w (toolCache_find_call w tool v).
Proof. intros s e x [<- | []] Hx. discriminate. Qed.

Lemma propagates_addPath dir : propagates w (core_addPath w dir).
Proof. intros s e x [<- | []] Hx. discriminate. Qed.

Lemma propagates_await {A : Type} e (o : outcome A) :
  raised w e = match o with Returns _ => None | Raises x => Some x end ->
  propagates w (await e o).
Proof.
  intros H s e' x Hin Hx. unfold await in *.
  destruct o as [a | err]; destruct Hin as [<- | []];
    rewrite H in Hx; [ discriminate | ].
  injection Hx as ->. reflexivity.
Qed.

Lemma propagates_bind {A B : Type} (m : M A) (k : A -> M B) :
  propagates w m -> (forall a, propagates w (k a)) -> propagates w (bind m k).
Proof.
  intros Hm Hk s e x. rewrite bind_unfold.
  specialize (Hm s e x).
  destruct (ended (m s)) as [a | err | c] eqn:E; cbn [calls ended prepend].
  - intros Hin Hx. apply in_app_or in Hin. destruct Hin as [Hin | Hin].
    + specialize (Hm Hin Hx). discriminate.
    + exact (Hk a _ e x Hin Hx).
  - intros Hin Hx. specialize (Hm Hin Hx). injection Hm as ->. reflexivity.
  - intros Hin Hx. specialize (Hm Hin Hx). discriminate.
Qed.

Lemma propagates_swallow {A : Type} (m : M A) (h : js_error -> M A) :
  every (fun e => raised w e = None) m ->
  (forall err, propagates w (h err)) ->
  propagates w (try_catch m h).
Proof.
  intros Hm Hh s e x. rewrite try_catch_unfold.
  specialize (Hm s). rewrite List.Forall_forall in Hm.
  assert (Hquiet : In e (calls (m s)) -> raised w e = Some x -> False).
  { intros Hin Hx. rewrite (Hm e Hin) in Hx. discriminate. }
  destruct (ended (m s)) as [a | err | c] eqn:E;
    [ intros Hin Hx; destruct (Hquiet Hin Hx) | | intros Hin Hx; destruct (Hquiet Hin Hx) ].
  cbn [calls ended prepend]. intros Hin Hx.
  apply in_app_or in Hin. destruct Hin as [Hin | Hin].
  - destruct (Hquiet Hin Hx).
  - exact (Hh err _ e x Hin Hx).
Qed.

Lemma propagates_when (b : bool) (m : M unit) :
  propagates w m -> propagates w (when b m).
Proof. destruct b; cbn; [ auto | intros _; apply propagates_ret ]. Qed.

Lemma propagates_if {A : Type} (b : bool) (m1 m2 : M A) :
  propagates w m1 -> propagates w m2 -> propagates w (if b then m1 else m2).
Proof. destruct b; auto. Qed.

Ltac propagates_step :=
  cbv beta zeta;
  lazymatch goal with
  | |- propagates _ (bind _ _) => apply propagates_bind; [ | intros ? ]
  | |- propagates _ (try_catch _ _) =>
      apply propagates_swallow;
      [ apply every_await; reflexivity | intros ? ]
  | |- propagates _ (when _ _) => apply propagates_when
  | |- propagates _ (if _ then _ else _) => apply propagates_if
  | |- propagates _ (ret _) => apply propagates_ret
  | |- propagates _ (attempt _) => apply propagates_attempt
  | |- propagates _ (read_process_env _) => apply propagates_read_process_env
  | |- propagates _ (core_getInput _ _) => apply propagates_getInput
  | |- propagates _ (toolCache_find_call _ _ _) => apply propagates_find
  | |- propagates _ (core_addPath _ _) => apply propagates_addPath
  | |- propagates _ (await _ _) => apply propagates_await; reflexivity
  | |- propagates _ (emit _) => apply propagates_emit; reflexivity
  end.

Lemma propagates_main : propagates w (main w).
Proof.
  unfold main, steps, finish, provision, resolve, acquire, installComponents,
    authenticate, configureProject,
    core_error, core_info, core_warning, core_debug,
    core_setOutput, core_setFailed.
  repeat propagates_step.
Qed.

End Propagates.

(** ** Facts shared by the claims *)

Section Shared.

Variable w : World.

(** A kind of call that the preamble never makes is made, if at all,
    inside the error boundary. *)
Lemma only_publish_calls P :
  (forall n v, P (EvExportVariable n v) = false) ->
  (forall n v, P (EvProcessEnvAssign n v) = false) ->
  (forall m, P (EvWarning m) = false) ->
  only P (publish_calls w) = [].
Proof.
  intros H1 H2 H3. unfold publish_calls, only. cbn.
  rewrite !H1, H2. destruct (isPinnedToHead w); cbn; rewrite ?H3; reflexivity.
Qed.

Lemma only_check_calls P :
  (forall u t, P (EvAxiosGet u t) = false) ->
  (forall m, P (EvInfo m) = false) ->
  only P (check_calls w) = [].
Proof.
  intros H1 H2. unfold check_calls, only. cbn. rewrite H1.
  destruct (axios_get w (api_url w) 3000); cbn; rewrite ?H2; reflexivity.
Qed.

Lemma main_head s :
  exists rest, calls (main w s) = EvGetInput Text.skip_install :: rest.
Proof.
  rewrite main_unfold.
  destruct (parseBoolean w (getInput w Text.skip_install)); [ | eauto ].
  destruct (parseBoolean w (getInput w Text.cache)); cbn; eauto.
Qed.

Lemma ready_job_env name :
  job_env (ready w) !! name =
  if decide (Text.CLOUDSDK_METRICS_ENVIRONMENT_VERSION = name)
  then Some (appVersion w)
  else if decide (Text.CLOUDSDK_METRICS_ENVIRONMENT = name)
       then Some Text.metrics_environment
       else None.
Proof.
  unfold ready, job_env.
  rewrite lookup_insert. case_decide; [ reflexivity | ].
  rewrite lookup_insert. case_decide; [ reflexivity | ].
  apply lookup_empty.
Qed.

Lemma ready_process_env name :
  name <> Text.CLOUDSDK_CORE_DISABLE_PROMPTS ->
  name <> Text.CLOUDSDK_METRICS_ENVIRONMENT_VERSION ->
  name <> Text.CLOUDSDK_METRICS_ENVIRONMENT ->
  process_env (ready w) !! name = initial_env w !! name.
Proof.
  intros H1 H2 H3. unfold ready, process_env.
  rewrite !lookup_insert_ne by congruence. reflexivity.
Qed.

Lemma execute_final :
  rejected w = false -> same_but_path (ready w) (final (execute w)).
Proof.
  intros H. rewrite execute_unfold, H, final_prepend. apply boundary_final.
Qed.

Lemma execute_ended : rejected w = false -> ended (execute w) = Normal tt.
Proof.
  intros H. rewrite execute_unfold, H, ended_prepend. apply boundary_ended.
Qed.

(** Calls of a kind that neither the preamble nor the [catch] block makes
    are the calls of that kind inside the [try] block. *)
Lemma only_execute_boundary P :
  (forall u t, P (EvAxiosGet u t) = false) ->
  (forall m, P (EvError m) = false) ->
  (forall m, P (EvInfo m) = false) ->
  only P (publish_calls w) = [] ->
  (forall m, P (EvSetFailed m) = false) ->
  only P (calls (execute w)) =
  if rejected w then [] else only P (calls (main w (ready w))).
Proof.
  intros H1 H2 H3 H4 H7.
  destruct (rejected w) eqn:Hrej.
  - rewrite execute_unfold, Hrej. cbn. rewrite H1, H2. reflexivity.
  - rewrite execute_calls by exact Hrej.
    rewrite !only_app, only_check_calls, H4 by assumption.
    destruct (ended (main w (ready w))); cbn; rewrite ?H7, app_nil_r;
      reflexivity.
Qed.

Lemma only_execute P :
  (forall u t, P (EvAxiosGet u t) = false) ->
  (forall m, P (EvError m) = false) ->
  (forall m, P (EvInfo m) = false) ->
  (forall n v, P (EvExportVariable n v) = false) ->
  (forall n v, P (EvProcessEnvAssign n v) = false) ->
  (forall m, P (EvWarning m) = false) ->
  (forall m, P (EvSetFailed m) = false) ->
  only P (calls (execute w)) =
  if rejected w then [] else only P (calls (main w (ready w))).
Proof.
  intros. apply only_execute_boundary; try assumption.
  apply only_publish_calls; assumption.
Qed.

Lemma only_publish_warns msg :
  pinned_notice_differs w msg -> only (warns msg) (publish_calls w) = [].
Proof.
  intros H. unfold publish_calls, pinned_notice_differs in *.
  destruct (isPinnedToHead w); [ | reflexivity ].
  apply eqb_neq in H; [ | reflexivity ].
  unfold only. cbn [List.filter app warns is_export]. rewrite H. reflexivity.
Qed.

Lemma only_main P s :
  (forall n, P (EvGetInput n) = false) ->
  only P (calls (main w s)) =
  match parseBoolean w (getInput w Text.skip_install),
        parseBoolean w (getInput w Text.cache) with
  | Returns sk, Returns c =>
      only P (calls (steps w sk (presence w (getInput w Text.version))
                       (getInput w Text.install_components)
                       (getInput w Text.project_id) c s))
  | _, _ => []
  end.
Proof.
  intros H. rewrite main_unfold.
  destruct (parseBoolean w (getInput w Text.skip_install)) as [sk | e];
    [ | cbn; rewrite H; reflexivity ].
  destruct (parseBoolean w (getInput w Text.cache)) as [c | e];
    [ rewrite calls_prepend, only_app | ];
    cbn; rewrite !H; reflexivity.
Qed.

Lemma steps_skip v comps p c s :
  steps w true v comps p c s =
  prepend (calls (provision w true v comps c s)) (finish w comps p v s).
Proof.
  rewrite steps_unfold, provision_skip. cbn [ended final calls]. unfold prepend.
  rewrite (proj1 (contained_finish w comps p v s)). reflexivity.
Qed.

Lemma finish_calls comps p v s :
  calls (finish w comps p v s) =
  calls (installComponents w comps s) ++
  match ended (installComponents w comps s) with
  | Throw _ => []
  | _ =>
      calls (authenticate w s) ++
      match ended (authenticate w s) with
      | Throw _ => []
      | _ =>
          calls (configureProject w p s) ++
          match ended (configureProject w p s) with
          | Throw _ => []
          | _ => [EvSetOutput Text.version v]
          end
      end
  end.
Proof.
  rewrite finish_unfold.
  destruct (ended (installComponents w comps s));
    destruct (ended (authenticate w s));
    destruct (ended (configureProject w p s));
    unfold prepend; cbn [calls]; rewrite ?app_nil_r; reflexivity.
Qed.

Lemma finish_ended comps p v s :
  ended (finish w comps p v s) =
  match ended (installComponents w comps s) with
  | Throw e => Throw e
  | _ =>
      match ended (authenticate w s) with
      | Throw e => Throw e
      | _ =>
          match ended (configureProject w p s) with
          | Throw e => Throw e
          | _ => Normal tt
          end
      end
  end.
Proof.
  rewrite finish_unfold.
  destruct (ended (installComponents w comps s));
    destruct (ended (authenticate w s));
    destruct (ended (configureProject w p s)); reflexivity.
Qed.

(** The output is reported when [finish] runs to its end, and only then. *)
Lemma finish_outputs comps p v s :
  only is_output (calls (finish w comps p v s)) =
  match ended (finish w comps p v s) with
  | Normal _ => [EvSetOutput Text.version v]
  | _ => []
  end.
Proof.
  assert (H1 : only is_output (calls (installComponents w comps s)) = []).
  { apply only_none.
    apply (ltac:(every_call; reflexivity) :
             every (fun e => is_output e = false) (installComponents w comps)). }
  assert (H2 : only is_output (calls (authenticate w s)) = []).
  { apply only_none.
    apply (ltac:(every_call; reflexivity) :
             every (fun e => is_output e = false) (authenticate w)). }
  assert (H3 : only is_output (calls (configureProject w p s)) = []).
  { apply only_none.
    apply (ltac:(every_call; reflexivity) :
             every (fun e => is_output e = false) (configureProject w p)). }
  rewrite finish_calls, finish_ended, !only_app, H1.
  destruct (ended (installComponents w comps s)); [ | reflexivity | ];
    rewrite only_app, H2;
    (destruct (ended (authenticate w s)); [ | reflexivity | ]);
    rewrite only_app, H3;
    destruct (ended (configureProject w p s)); reflexivity.
Qed.

Lemma only_finish_none P comps p v s :
  (forall l, P (EvInstallComponent l) = false) ->
  (forall f, P (EvAuthenticateGcloudSDK f) = false) ->
  P EvIsAuthenticated = false ->
  (forall m, P (EvInfo m) = false) ->
  P (EvWarning Text.not_authenticated) = false ->
  (forall i, P (EvSetProject i) = false) ->
  (forall n x, P (EvSetOutput n x) = false) ->
  only P (calls (finish w comps p v s)) = [].
Proof.
  intros. apply only_none.
  apply (ltac:(every_call; auto) :
           every (fun e => P e = false) (finish w comps p v)).
Qed.

Lemma only_provision_none P sk v comps c s :
  (forall m, P (EvInfo m) = false) ->
  (forall m, P (EvWarning m) = false) ->
  (forall m, P (EvDebug m) = false) ->
  (forall r, P (EvBestVersion r) = false) ->
  (forall t x, P (EvToolCacheFind t x) = false) ->
  (forall d, P (EvAddPath d) = false) ->
  (forall x b, P (EvInstallGcloudSDK x b) = false) ->
  only P (calls (provision w sk v comps c s)) = [].
Proof.
  intros. apply only_none.
  apply (ltac:(every_call; auto) :
           every (fun e => P e = false) (provision w sk v comps c)).
Qed.

Lemma only_provision_skip P v comps c s :
  (forall m, P (EvInfo m) = false) ->
  (forall m, P (EvWarning m) = false) ->
  only P (calls (provision w true v comps c s)) = [].
Proof.
  intros H1 H2. rewrite provision_skip. cbn [calls].
  apply only_none. constructor; [ apply H1 | ].
  apply Forall_app. split;
    match goal with
    | |- context [if ?b then _ else _] => destruct b
    end; repeat constructor; apply H2.
Qed.

Lemma steps_outputs sk v comps p c s :
  only is_output (calls (steps w sk v comps p c s)) =
  match ended (provision w sk v comps c s) with
  | Normal v' =>
      match ended (finish w comps p v' s) with
      | Normal _ => [EvSetOutput Text.version v']
      | _ => []
      end
  | _ => []
  end.
Proof.
  pose proof (only_provision_none is_output sk v comps c s) as H.
  rewrite steps_unfold.
  destruct (ended (provision w sk v comps c s)) as [v' | e | x];
    cbn [calls]; [ rewrite only_app, finish_outputs | .. ];
    rewrite H by reflexivity; reflexivity.
Qed.

Lemma only_failure_execute :
  rejected w = false ->
  only is_failure_report (calls (execute w)) =
  failure_calls w (ended (main w (ready w))).
Proof.
  intros Hrej. rewrite execute_calls by exact Hrej.
  rewrite !only_app, only_check_calls, only_publish_calls by reflexivity.
  assert (H : only is_failure_report (calls (main w (ready w))) = []).
  { apply only_none.
    apply (ltac:(every_call; reflexivity) :
             every (fun e => is_failure_report e = false) (main w)). }
  rewrite H. destruct (ended (main w (ready w))); reflexivity.
Qed.

Lemma main_ended sk c s :
  parseBoolean w (getInput w Text.skip_install) = Returns sk ->
  parseBoolean w (getInput w Text.cache) = Returns c ->
  ended (main w s) =
  ended (steps w sk (presence w (getInput w Text.version))
           (getInput w Text.install_components) (getInput w Text.project_id)
           c s).
Proof. intros H1 H2. rewrite (main_calls w sk c) by assumption. reflexivity. Qed.

Lemma finish_components comps p v s :
  only is_component_install (calls (finish w comps p v s)) =
  if truthy comps
  then [EvInstallComponent (List.map trim (split comma comps))]
  else [].
Proof.
  assert (H2 : only is_component_install (calls (authenticate w s)) = []).
  { apply only_none.
    apply (ltac:(every_call; reflexivity) :
             every (fun e => is_component_install e = false) (authenticate w)). }
  assert (H3 : only is_component_install (calls (configureProject w p s)) = []).
  { apply only_none.
    apply (ltac:(every_call; reflexivity) :
             every (fun e => is_component_install e = false)
                   (configureProject w p)). }
  rewrite finish_calls, only_app.
  assert (Hrest :
    only is_component_install
      match ended (installComponents w comps s) with
      | Throw _ => []
      | _ =>
          calls (authenticate w s) ++
          match ended (authenticate w s) with
          | Throw _ => []
          | _ =>
              calls (configureProject w p s) ++
              match ended (configureProject w p s) with
              | Throw _ => []
              | _ => [EvSetOutput Text.version v]
              end
          end
      end = []).
  { destruct (ended (installComponents w comps s)); [ | reflexivity | ];
      rewrite only_app, H2;
      (destruct (ended (authenticate w s)); [ | reflexivity | ]);
      rewrite only_app, H3;
      destruct (ended (configureProject w p s)); reflexivity. }
  rewrite Hrest, app_nil_r, installComponents_unfold.
  destruct (truthy comps); [ | reflexivity ].
  cbv zeta. destruct (installComponent w _); reflexivity.
Qed.

Lemma steps_components sk v comps p c s :
  only is_component_install (calls (steps w sk v comps p c s)) =
  match ended (provision w sk v comps c s) with
  | Normal _ =>
      if truthy comps
      then [EvInstallComponent (List.map trim (split comma comps))]
      else []
  | _ => []
  end.
Proof.
  pose proof (only_provision_none is_component_install sk v comps c s) as H.
  rewrite steps_unfold.
  destruct (ended (provision w sk v comps c s)) as [v' | e | x];
    cbn [calls]; [ rewrite only_app, finish_components | .. ];
    rewrite H by reflexivity; reflexivity.
Qed.

(** *** Provisioning when installation is wanted *)

Lemma resolve_ended v s :
  ended (resolve w v s) =
  match resolved_version w v with
  | Returns rv => Normal rv
  | Raises e => Throw e
  end.
Proof.
  unfold resolved_version.
  destruct (truthy_opt v) eqn:Hv; [ | rewrite resolve_unset by exact Hv; reflexivity ].
  destruct (eqb (narrowed v) Text.latest) eqn:Hl;
    [ | rewrite resolve_literal by assumption; reflexivity ].
  rewrite resolve_latest by assumption.
  destruct (bestVersion w Text.any_version); reflexivity.
Qed.

Lemma resolve_only P v s :
  (forall m, P (EvDebug m) = false) ->
  only P (calls (resolve w v s)) =
  if truthy_opt v && eqb (narrowed v) Text.latest
  then only P [EvBestVersion Text.any_version]
  else [].
Proof.
  intros H.
  destruct (truthy_opt v) eqn:Hv;
    [ | rewrite resolve_unset by exact Hv; cbn; rewrite H; reflexivity ].
  destruct (eqb (narrowed v) Text.latest) eqn:Hl;
    [ | rewrite resolve_literal by assumption; reflexivity ].
  rewrite resolve_latest by assumption.
  destruct (bestVersion w Text.any_version); cbn; rewrite !H; reflexivity.
Qed.

Lemma acquire_only P rv c s :
  (forall m, P (EvDebug m) = false) ->
  only P (calls (acquire w rv c s)) =
  only P
    (EvToolCacheFind Text.gcloud rv ::
     if eqb (toolCache_find w Text.gcloud rv) []
     then [EvInstallGcloudSDK rv c]
     else [EvAddPath (path_join w (toolCache_find w Text.gcloud rv) Text.bin)]).
Proof.
  intros H.
  destruct (eqb (toolCache_find w Text.gcloud rv) []) eqn:Hfind;
    [ | rewrite acquire_hit by exact Hfind; reflexivity ].
  rewrite acquire_miss by exact Hfind. cbv zeta.
  destruct (installGcloudSDK w rv c); cbn; rewrite H; reflexivity.
Qed.

Lemma provision_install_calls v comps c s :
  calls (provision w false v comps c s) =
  calls (resolve w v s) ++
  match resolved_version w v with
  | Returns rv => calls (acquire w rv c s)
  | Raises _ => []
  end.
Proof.
  rewrite provision_install. pose proof (resolve_ended v s) as H.
  destruct (resolved_version w v) as [rv | e]; rewrite H;
    [ | cbn; rewrite app_nil_r; reflexivity ].
  destruct (ended (acquire w rv c s)); reflexivity.
Qed.

Lemma provision_install_ended v comps c s :
  ended (provision w false v comps c s) =
  match resolved_version w v with
  | Returns rv =>
      match ended (acquire w rv c s) with
      | Throw e => Throw e
      | _ => Normal (Some rv)
      end
  | Raises e => Throw e
  end.
Proof.
  rewrite provision_install. pose proof (resolve_ended v s) as H.
  destruct (resolved_version w v) as [rv | e]; rewrite H; [ | reflexivity ].
  destruct (ended (acquire w rv c s)); reflexivity.
Qed.

(** Calls of a kind that [finish] never makes come from [provision]. *)
Lemma steps_provisioning P sk v comps p c s :
  (forall l, P (EvInstallComponent l) = false) ->
  (forall f, P (EvAuthenticateGcloudSDK f) = false) ->
  P EvIsAuthenticated = false ->
  (forall m, P (EvInfo m) = false) ->
  P (EvWarning Text.not_authenticated) = false ->
  (forall i, P (EvSetProject i) = false) ->
  (forall n x, P (EvSetOutput n x) = false) ->
  only P (calls (steps w sk v comps p c s)) =
  only P (calls (provision w sk v comps c s)).
Proof.
  intros. rewrite steps_unfold.
  destruct (ended (provision w sk v comps c s)); try reflexivity.
  cbn [calls]. rewrite only_app, only_finish_none by assumption.
  apply app_nil_r.
Qed.

(** The provisioning calls of a whole run that wants installation. *)
Lemma execute_provisioning c :
  rejected w = false ->
  parseBoolean w (getInput w Text.skip_install) = Returns false ->
  parseBoolean w (getInput w Text.cache) = Returns c ->
  forall P,
  (forall u t, P (EvAxiosGet u t) = false) ->
  (forall m, P (EvError m) = false) ->
  (forall m, P (EvInfo m) = false) ->
  (forall n v, P (EvExportVariable n v) = false) ->
  (forall n v, P (EvProcessEnvAssign n v) = false) ->
  (forall m, P (EvWarning m) = false) ->
  (forall m, P (EvSetFailed m) = false) ->
  (forall n, P (EvGetInput n) = false) ->
  (forall l, P (EvInstallComponent l) = false) ->
  (forall f, P (EvAuthenticateGcloudSDK f) = false) ->
  P EvIsAuthenticated = false ->
  (forall i, P (EvSetProject i) = false) ->
  (forall n x, P (EvSetOutput n x) = false) ->
  (forall m, P (EvDebug m) = false) ->
  only P (calls (execute w)) =
  (if truthy_opt (presence w (getInput w Text.version))
      && eqb (narrowed (presence w (getInput w Text.version))) Text.latest
   then only P [EvBestVersion Text.any_version]
   else []) ++
  match resolved_version w (presence w (getInput w Text.version)) with
  | Returns rv =>
      only P
        (EvToolCacheFind Text.gcloud rv ::
         if eqb (toolCache_find w Text.gcloud rv) []
         then [EvInstallGcloudSDK rv c]
         else [EvAddPath (path_join w (toolCache_find w Text.gcloud rv)
                            Text.bin)])
  | Raises _ => []
  end.
Proof.
  intros Hrej Hskip Hcache P; intros.
  rewrite only_execute, Hrej by assumption.
  rewrite only_main, Hskip, Hcache by assumption.
  rewrite steps_provisioning by auto.
  rewrite provision_install_calls, only_app, resolve_only by assumption.
  destruct (resolved_version w (presence w (getInput w Text.version)))
    as [rv | e]; [ | reflexivity ].
  rewrite acquire_only by assumption. reflexivity.
Qed.

(** The step output of a run that got as far as the installation
    decision. *)
Lemma execute_outputs sk c :
  rejected w = false ->
  parseBoolean w (getInput w Text.skip_install) = Returns sk ->
  parseBoolean w (getInput w Text.cache) = Returns c ->
  only is_output (calls (execute w)) =
  match ended (provision w sk (presence w (getInput w Text.version))
                 (getInput w Text.install_components) c (ready w)),
        only is_failure_report (calls (execute w)) with
  | Normal v', [] => [EvSetOutput Text.version v']
  | _, _ => []
  end.
Proof.
  intros Hrej Hskip Hcache.
  rewrite only_failure_execute by exact Hrej.
  rewrite only_execute, Hrej by reflexivity.
  rewrite only_main, Hskip, Hcache by reflexivity.
  rewrite (main_ended sk c) by assumption.
  rewrite steps_outputs, steps_unfold.
  destruct (ended (provision w sk _ _ c (ready w))) as [v' | e | x];
    [ | reflexivity | reflexivity ].
  cbn [ended].
  destruct (contained_cases _ (ready w)
              (contained_finish w (getInput w Text.install_components)
                 (getInput w Text.project_id) v'))
    as [[[] ->] | [e ->]]; reflexivity.
Qed.

Lemma execute_outputs_value sk c v' :
  rejected w = false ->
  parseBoolean w (getInput w Text.skip_install) = Returns sk ->
  parseBoolean w (getInput w Text.cache) = Returns c ->
  (forall x,
     ended (provision w sk (presence w (getInput w Text.version))
              (getInput w Text.install_components) c (ready w)) = Normal x ->
     x = v') ->
  only is_output (calls (execute w)) =
  match only is_failure_report (calls (execute w)) with
  | [] => [EvSetOutput Text.version v']
  | _ :: _ => []
  end.
Proof.
  intros Hrej Hskip Hcache Hvalue.
  rewrite (execute_outputs sk c) by assumption.
  rewrite only_failure_execute by exact Hrej.
  rewrite (main_ended sk c) by assumption.
  rewrite steps_unfold.
  destruct (sheltered_cases _ (ready w)
              (sheltered_provision w sk (presence w (getInput w Text.version))
                 (getInput w Text.install_components) c))
    as [[x Hx] | [e Hx]]; rewrite Hx; [ | reflexivity ].
  rewrite (Hvalue x Hx). cbn [ended].
  destruct (ended (finish w _ _ v' (ready w))); reflexivity.
Qed.

(** *** The output comes last *)

Lemma finish_output_last comps p v s :
  match ended (finish w comps p v s) with
  | Normal _ =>
      exists pre,
        calls (finish w comps p v s) = pre ++ [EvSetOutput Text.version v] /\
        only is_output pre = []
  | _ => only is_output (calls (finish w comps p v s)) = []
  end.
Proof.
  pose proof (finish_outputs comps p v s) as Houtputs.
  destruct (ended (finish w comps p v s)) as [[] | e | x] eqn:Hended;
    try exact Houtputs.
  rewrite finish_ended in Hended. rewrite finish_calls in *.
  destruct (ended (installComponents w comps s)); try discriminate;
    destruct (ended (authenticate w s)); try discriminate;
    destruct (ended (configureProject w p s)); try discriminate.
  all: exists (calls (installComponents w comps s) ++
               calls (authenticate w s) ++ calls (configureProject w p s)).
  all: rewrite <- !app_assoc; split; [ reflexivity | ].
  all: rewrite !app_assoc, only_app, <- !app_assoc in Houtputs.
  all: apply app_eq_unit in Houtputs.
  all: destruct Houtputs as [[H _] | [_ H]]; [ exact H | discriminate ].
Qed.

Lemma main_output_last s :
  match ended (main w s) with
  | Normal _ =>
      exists pre v,
        calls (main w s) = pre ++ [EvSetOutput Text.version v] /\
        only is_output pre = []
  | _ => only is_output (calls (main w s)) = []
  end.
Proof.
  rewrite main_unfold.
  destruct (parseBoolean w (getInput w Text.skip_install)) as [sk | e];
    [ | reflexivity ].
  destruct (parseBoolean w (getInput w Text.cache)) as [c | e];
    [ | reflexivity ].
  rewrite ended_prepend, calls_prepend, steps_unfold.
  pose proof (only_provision_none is_output sk
                (presence w (getInput w Text.version))
                (getInput w Text.install_components) c s) as Hprovision.
  destruct (ended (provision w sk _ _ c s)) as [v' | e | x];
    [ | cbn [ended calls]; rewrite only_app, Hprovision by reflexivity;
        reflexivity .. ].
  cbn [ended calls].
  pose proof (finish_output_last (getInput w Text.install_components)
                (getInput w Text.project_id) v' s) as Hfinish.
  destruct (ended (finish w _ _ v' s)) as [[] | e | x].
  - destruct Hfinish as [pre [-> Hpre]].
    exists (input_reads ++ calls (provision w sk
                                    (presence w (getInput w Text.version))
                                    (getInput w Text.install_components) c s)
            ++ pre), v'.
    rewrite <- !app_assoc. split; [ reflexivity | ].
    rewrite !only_app, Hprovision, Hpre by reflexivity. reflexivity.
  - rewrite !only_app, Hprovision, Hfinish by reflexivity. reflexivity.
  - rewrite !only_app, Hprovision, Hfinish by reflexivity. reflexivity.
Qed.

(** A delegated call that fails is a call of the [try] block, and its
    failure is what the block throws. *)
Lemma raised_call_ends_main e x :
  In e (calls (execute w)) -> raised w e = Some x ->
  rejected w = false /\ ended (main w (ready w)) = Throw x.
Proof.
  intros Hin Hx.
  destruct (rejected w) eqn:Hrej.
  - rewrite execute_unfold, Hrej in Hin.
    destruct Hin as [<- | [<- | []]]; discriminate.
  - split; [ reflexivity | ].
    rewrite execute_calls in Hin by exact Hrej.
    apply in_app_or in Hin. destruct Hin as [Hin | Hin].
    { unfold check_calls in Hin.
      destruct (axios_get w (api_url w) 3000);
        repeat (destruct Hin as [<- | Hin]; [ discriminate | ]);
        destruct Hin. }
    apply in_app_or in Hin. destruct Hin as [Hin | Hin].
    { unfold publish_calls in Hin.
      destruct (isPinnedToHead w);
        repeat (destruct Hin as [<- | Hin]; [ discriminate | ]);
        destruct Hin. }
    apply in_app_or in Hin. destruct Hin as [Hin | Hin].
    { exact (propagates_main w _ e x Hin Hx). }
    destruct (ended (main w (ready w))); try destruct Hin as [<- | []];
      try destruct Hin; discriminate.
Qed.

Lemma main_throw_reported x :
  rejected w = false -> ended (main w (ready w)) = Throw x ->
  only is_failure_report (calls (execute w))
  = [EvSetFailed (cat Text.failed_with (errorMessage w x))] /\
  only is_output (calls (execute w)) = [].
Proof.
  intros Hrej Hended.
  rewrite only_failure_execute, Hended by exact Hrej.
  split; [ reflexivity | ].
  rewrite only_execute, Hrej by reflexivity.
  pose proof (main_output_last (ready w)) as Hlast.
  rewrite Hended in Hlast. exact Hlast.
Qed.

(** *** Authentication *)

Lemma ready_credentials :
  process_env (ready w) !! Text.GOOGLE_GHA_CREDS_PATH
  = initial_env w !! Text.GOOGLE_GHA_CREDS_PATH.
Proof.
  apply ready_process_env; intros H; vm_compute in H; discriminate H.
Qed.

Lemma finish_authentication P comps p v s :
  (forall l, P (EvInstallComponent l) = false) ->
  (forall m, P (EvInfo m) = false) ->
  (forall i, P (EvSetProject i) = false) ->
  (forall n x, P (EvSetOutput n x) = false) ->
  ended (installComponents w comps s) = Normal tt ->
  only P (calls (finish w comps p v s)) = only P (calls (authenticate w s)).
Proof.
  intros H1 H2 H3 H4 Hcomponents.
  assert (Hic : only P (calls (installComponents w comps s)) = []).
  { apply only_none.
    apply (ltac:(every_call; auto) :
             every (fun e => P e = false) (installComponents w comps)). }
  assert (Hcp : only P (calls (configureProject w p s)) = []).
  { apply only_none.
    apply (ltac:(every_call; auto) :
             every (fun e => P e = false) (configureProject w p)). }
  rewrite finish_calls, Hcomponents, !only_app, Hic.
  destruct (ended (authenticate w s));
    rewrite ?only_app, ?Hcp;
    try destruct (ended (configureProject w p s));
    unfold only; cbn [List.filter app]; rewrite ?H4, ?app_nil_r; reflexivity.
Qed.

(** The calls of one kind made by a run that reaches authentication. *)
Lemma execute_authentication sk c v' :
  rejected w = false ->
  parseBoolean w (getInput w Text.skip_install) = Returns sk ->
  parseBoolean w (getInput w Text.cache) = Returns c ->
  ended (provision w sk (presence w (getInput w Text.version))
           (getInput w Text.install_components) c (ready w)) = Normal v' ->
  ended (installComponents w (getInput w Text.install_components)
           (final (provision w sk (presence w (getInput w Text.version))
                     (getInput w Text.install_components) c (ready w))))
  = Normal tt ->
  forall P,
  (forall u t, P (EvAxiosGet u t) = false) ->
  (forall m, P (EvError m) = false) ->
  (forall m, P (EvInfo m) = false) ->
  only P (publish_calls w) = [] ->
  (forall m, P (EvSetFailed m) = false) ->
  (forall n, P (EvGetInput n) = false) ->
  only P (calls (provision w sk (presence w (getInput w Text.version))
                   (getInput w Text.install_components) c (ready w))) = [] ->
  (forall l, P (EvInstallComponent l) = false) ->
  (forall i, P (EvSetProject i) = false) ->
  (forall n x, P (EvSetOutput n x) = false) ->
  only P (calls (execute w)) = only P (calls (authenticate w (ready w))).
Proof.
  intros Hrej Hskip Hcache Hprovision Hcomponents P; intros.
  rewrite only_execute_boundary, Hrej by assumption.
  rewrite only_main, Hskip, Hcache by assumption.
  rewrite steps_unfold, Hprovision. cbn [calls]. rewrite only_app.
  rewrite (proj1 (installComponents_anywhere w _ (ready w) _)) in Hcomponents.
  rewrite finish_authentication by assumption.
  replace (only P (calls (provision w sk _ _ c (ready w)))) with (@nil event).
  reflexivity.
Qed.

Lemma execute_ended_main sk c v' :
  rejected w = false ->
  parseBoolean w (getInput w Text.skip_install) = Returns sk ->
  parseBoolean w (getInput w Text.cache) = Returns c ->
  ended (provision w sk (presence w (getInput w Text.version))
           (getInput w Text.install_components) c (ready w)) = Normal v' ->
  ended (installComponents w (getInput w Text.install_components)
           (final (provision w sk (presence w (getInput w Text.version))
                     (getInput w Text.install_components) c (ready w))))
  = Normal tt ->
  ended (main w (ready w)) =
  match ended (authenticate w (ready w)) with
  | Throw e => Throw e
  | _ =>
      match ended (configureProject w (getInput w Text.project_id) (ready w)) with
      | Throw e => Throw e
      | _ => Normal tt
      end
  end.
Proof.
  intros Hrej Hskip Hcache Hprovision Hcomponents.
  rewrite (main_ended sk c), steps_unfold, Hprovision by assumption.
  cbn [ended]. rewrite finish_ended.
  rewrite (proj1 (installComponents_anywhere w _ (ready w) _)) in Hcomponents.
  rewrite Hcomponents. reflexivity.
Qed.

End Shared.

(** ** Three runs, call by call *)

(** [version: latest] on a cold cache: the newest release is resolved,
    probed for, installed with caching on, and reported; nobody is
    authenticated, which only earns a warning. *)
Example run_latest_cold :
  let w := Sample.world Sample.latest_cold in
  execute w =
  Result (Normal tt) (ready w)
    ([EvAxiosGet (api_url w) 3000;
      EvExportVariable Text.CLOUDSDK_METRICS_ENVIRONMENT
        Text.metrics_environment;
      EvExportVariable Text.CLOUDSDK_METRICS_ENVIRONMENT_VERSION (js "3.0.1");
      EvProcessEnvAssign Text.CLOUDSDK_CORE_DISABLE_PROMPTS (js "1")]
     ++ input_reads ++
     [EvDebug Text.resolving_latest;
      EvBestVersion (js "> 0.0.0");
      EvDebug (js "resolved latest version to 500.0.0");
      EvToolCacheFind (js "gcloud") (js "500.0.0");
      EvDebug (Text.no_version_matching ++ js "500.0.0" ++ Text.is_installed);
      EvInstallGcloudSDK (js "500.0.0") true;
      EvIsAuthenticated;
      EvWarning Text.not_authenticated;
      EvSetOutput (js "version") (Some (js "500.0.0"))]).
Proof. vm_compute. reflexivity. Qed.

(** [version: 4.0.0] on a warm cache: nothing is resolved or installed,
    the cached [bin] directory goes on the search path. *)
Example run_pinned_warm :
  let w := Sample.world Sample.pinned_warm in
  calls (execute w) =
  [EvAxiosGet (api_url w) 3000]
  ++ publish_calls w ++ input_reads ++
  [EvToolCacheFind (js "gcloud") (js "4.0.0");
   EvAddPath (js "/opt/hostedtoolcache/gcloud/4.0.0/bin");
   EvIsAuthenticated;
   EvWarning Text.not_authenticated;
   EvSetOutput (js "version") (Some (js "4.0.0"))].
Proof. vm_compute. reflexivity. Qed.

(** [skip_install: true] with [version: 1.2.3]: two log lines, no
    provisioning call, and the version input comes back as the output. *)
Example run_skip_pinned :
  let w := Sample.world Sample.skip_pinned in
  calls (execute w) =
  [EvAxiosGet (api_url w) 3000]
  ++ publish_calls w ++ input_reads ++
  [EvInfo Text.skipping_installation;
   EvWarning Text.ignoring_version;
   EvIsAuthenticated;
   EvWarning Text.not_authenticated;
   EvSetOutput (js "version") (Some (js "1.2.3"))].
Proof. vm_compute. reflexivity. Qed.

(** ** The claims *)

(** C1 (as stated) fails: with [skip_install: true] and [version: 1.2.3]
    the step output is not absent, it is 1.2.3. *)
Lemma skip_install_reports_pinned_version :
  let w := Sample.world Sample.skip_pinned in
  ~ (parseBoolean w (getInput w Text.skip_install) = Returns true ->
     forall v, In (EvSetOutput Text.version v) (calls (execute w)) -> v = None).
Proof.
  intros w H.
  specialize (H eq_refl (Some (js "1.2.3"))).
  assert (Hin : In (EvSetOutput Text.version (Some (js "1.2.3")))
                   (calls (execute w))).
  { vm_compute. repeat (first [ left; reflexivity | right ]). }
  specialize (H Hin). discriminate.
Qed.

(** C1 (amended) -- with [skipInstall = true] a run never resolves the
    latest version, never probes the tool cache and never installs; the
    step output, reported when the run neither exits nor fails, is the
    [version] input as it was given: [undefined] only when the input is
    absent, the pinned version when one was supplied. *)
Theorem skip_install_bypasses_provisioning (w : World) :
  parseBoolean w (getInput w Text.skip_install) = Returns true ->
  let log := calls (execute w) in
  only is_latest_resolution log = [] /\
  only is_cache_probe log = [] /\
  only is_install log = [] /\
  only is_output log =
    if rejected w then []
    else match only is_failure_report log with
         | [] => [EvSetOutput Text.version (presence w (getInput w Text.version))]
         | _ :: _ => []
         end.
Proof.
  intros Hskip log. subst log.
  assert (Hnone : forall P,
             (forall u t, P (EvAxiosGet u t) = false) ->
             (forall m, P (EvError m) = false) ->
             (forall m, P (EvInfo m) = false) ->
             (forall n v, P (EvExportVariable n v) = false) ->
             (forall n v, P (EvProcessEnvAssign n v) = false) ->
             (forall m, P (EvWarning m) = false) ->
             (forall m, P (EvSetFailed m) = false) ->
             (forall n, P (EvGetInput n) = false) ->
             (forall l, P (EvInstallComponent l) = false) ->
             (forall f, P (EvAuthenticateGcloudSDK f) = false) ->
             P EvIsAuthenticated = false ->
             (forall i, P (EvSetProject i) = false) ->
             (forall n x, P (EvSetOutput n x) = false) ->
             only P (calls (execute w)) = []).
  { intros P; intros.
    rewrite only_execute by assumption.
    destruct (rejected w); [ reflexivity | ].
    rewrite only_main, Hskip by assumption.
    destruct (parseBoolean w (getInput w Text.cache)) as [c | e];
      [ | reflexivity ].
    rewrite steps_skip, calls_prepend, only_app.
    rewrite only_finish_none, only_provision_skip by auto.
    reflexivity. }
  split; [ apply Hnone; reflexivity | ].
  split; [ apply Hnone; reflexivity | ].
  split; [ apply Hnone; reflexivity | ].
  destruct (rejected w) eqn:Hrej.
  - rewrite only_execute, Hrej by reflexivity. reflexivity.
  - rewrite only_failure_execute by exact Hrej.
    rewrite only_execute, Hrej by reflexivity.
    rewrite only_main by reflexivity.
    rewrite main_unfold, Hskip.
    destruct (parseBoolean w (getInput w Text.cache)) as [c | e];
      [ | reflexivity ].
    rewrite ended_prepend, steps_outputs, steps_skip, ended_prepend.
    rewrite provision_skip. cbn [ended].
    destruct (contained_cases _ (ready w)
                (contained_finish w (getInput w Text.install_components)
                   (getInput w Text.project_id)
                   (presence w (getInput w Text.version))))
      as [[[] ->] | [e ->]]; reflexivity.
Qed.

(** C1, on a concrete runner. *)
Lemma skip_install_bypasses_provisioning_witness :
  let w := Sample.world Sample.skip_pinned in
  parseBoolean w (getInput w Text.skip_install) = Returns true /\
  only is_install (calls (execute w)) = [] /\
  only is_output (calls (execute w))
  = [EvSetOutput (js "version") (Some (js "1.2.3"))].
Proof.
  intros w. split; [ reflexivity | ].
  pose proof (skip_install_bypasses_provisioning w eq_refl)
    as [_ [_ [Hinstall Houtput]]].
  split; [ exact Hinstall | exact Houtput ].
Defined.

(** C2 (as stated) fails: a stray comma leaves an empty entry in the list
    handed to the component installer. *)
Lemma stray_comma_yields_empty_component :
  let w := Sample.world Sample.stray_comma in
  ~ (forall l, In (EvInstallComponent l) (calls (execute w)) -> ~ In [] l).
Proof.
  intros w H.
  apply (H [js "a"; []; js "b"]).
  - vm_compute. repeat (first [ left; reflexivity | right ]).
  - right. left. reflexivity.
Qed.

(** C2 (amended) -- when [install_components] is not empty and nothing
    before the component step throws, the component installer is called
    exactly once, with the comma-split list whose entries are each
    trimmed, in the order written.  No entry is dropped: the list has one
    entry more than the input has commas, so a stray comma yields an empty
    entry.  The input " a, b ,c" yields exactly a, b, c. *)
Theorem components_installed_in_one_call
    (w : World) (sk c : bool) (v' : option jsstring) :
  rejected w = false ->
  parseBoolean w (getInput w Text.skip_install) = Returns sk ->
  parseBoolean w (getInput w Text.cache) = Returns c ->
  ended (provision w sk (presence w (getInput w Text.version))
           (getInput w Text.install_components) c (ready w)) = Normal v' ->
  truthy (getInput w Text.install_components) = true ->
  let components := getInput w Text.install_components in
  let l := List.map trim (split comma components) in
  only is_component_install (calls (execute w)) = [EvInstallComponent l] /\
  List.length l = S (occurrences comma components) /\
  join comma (split comma components) = components /\
  Forall (fun entry => is_trimmed entry = true) l /\
  List.map trim (split comma (js " a, b ,c")) = [js "a"; js "b"; js "c"].
Proof.
  intros Hrej Hskip Hcache Hprov Hcomps components l. subst components l.
  split; [ | split; [ | split; [ | split ] ] ].
  - rewrite only_execute, Hrej by reflexivity.
    rewrite only_main, Hskip, Hcache by reflexivity.
    rewrite steps_components, Hprov, Hcomps. reflexivity.
  - rewrite List.length_map. apply split_length.
  - apply join_split.
  - apply List.Forall_forall. intros entry Hin.
    apply List.in_map_iff in Hin. destruct Hin as [piece [<- _]].
    apply trim_is_trimmed.
  - reflexivity.
Qed.

(** C2, on a concrete runner: the installer would throw, but the pinned
    version is cached and the installer is not called. *)
Lemma components_installed_in_one_call_witness :
  let w := Sample.with_failing_installer Sample.warm_with_components in
  rejected w = false /\
  parseBoolean w (getInput w Text.skip_install) = Returns false /\
  parseBoolean w (getInput w Text.cache) = Returns false /\
  installGcloudSDK w (js "4.0.0") false = Raises Sample.installer_failure /\
  ended (provision w false (presence w (getInput w Text.version))
           (getInput w Text.install_components) false (ready w))
  = Normal (Some (js "4.0.0")) /\
  truthy (getInput w Text.install_components) = true /\
  only is_component_install (calls (execute w))
  = [EvInstallComponent [js "a"; js "b"; js "c"]].
Proof.
  intros w. do 6 (split; [ reflexivity | ]).
  apply (components_installed_in_one_call w false false (Some (js "4.0.0")));
    reflexivity.
Defined.

(** C3 (as stated) fails: on a runner where everything succeeds, the
    prompt-disabling flag is not among the variables handed on to later
    steps. *)
Lemma prompts_flag_is_not_exported :
  ~ (forall name,
       In name [Text.CLOUDSDK_METRICS_ENVIRONMENT;
                Text.CLOUDSDK_METRICS_ENVIRONMENT_VERSION;
                Text.CLOUDSDK_CORE_DISABLE_PROMPTS] ->
       exists value,
         job_env (final (execute (Sample.world Sample.defaults))) !! name
         = Some value).
Proof.
  intros H.
  destruct (H Text.CLOUDSDK_CORE_DISABLE_PROMPTS) as [value Hvalue].
  - right. right. left. reflexivity.
  - vm_compute in Hvalue. discriminate.
Qed.

(** C3 (amended) -- in every run that the entitlement check lets pass,
    the two metrics variables are published with [core.exportVariable]
    before any input is read, and so reach the later steps of the job;
    [CLOUDSDK_CORE_DISABLE_PROMPTS] is assigned in [process.env] of the
    running process only and is not exported. *)
Theorem metrics_exported_prompts_flag_process_local (w : World) :
  rejected w = false ->
  let r := execute w in
  job_env (final r) !! Text.CLOUDSDK_METRICS_ENVIRONMENT
    = Some Text.metrics_environment /\
  job_env (final r) !! Text.CLOUDSDK_METRICS_ENVIRONMENT_VERSION
    = Some (appVersion w) /\
  job_env (final r) !! Text.CLOUDSDK_CORE_DISABLE_PROMPTS = None /\
  process_env (final r) !! Text.CLOUDSDK_CORE_DISABLE_PROMPTS = Some (js "1") /\
  only is_export (calls r) =
    [EvExportVariable Text.CLOUDSDK_METRICS_ENVIRONMENT Text.metrics_environment;
     EvExportVariable Text.CLOUDSDK_METRICS_ENVIRONMENT_VERSION (appVersion w)] /\
  exists rest,
    calls r =
    check_calls w ++
    [EvExportVariable Text.CLOUDSDK_METRICS_ENVIRONMENT Text.metrics_environment;
     EvExportVariable Text.CLOUDSDK_METRICS_ENVIRONMENT_VERSION (appVersion w);
     EvProcessEnvAssign Text.CLOUDSDK_CORE_DISABLE_PROMPTS (js "1")] ++
    rest.
Proof.
  intros Hpass r. subst r.
  destruct (execute_final w Hpass) as [Hjob Henv].
  rewrite Hjob, !ready_job_env.
  split; [ reflexivity | ].
  split; [ reflexivity | ].
  split; [ reflexivity | ].
  split; [ | split ].
  - rewrite Henv by (intros H; vm_compute in H; discriminate H).
    unfold ready, process_env. apply lookup_insert_eq.
  - rewrite execute_calls by exact Hpass.
    rewrite !only_app, only_check_calls by reflexivity.
    assert (Hmain : only is_export (calls (main w (ready w))) = []).
    { apply only_none.
      apply (ltac:(every_call; reflexivity) :
               every (fun e => is_export e = false) (main w)). }
    rewrite Hmain.
    destruct (ended (main w (ready w))); unfold publish_calls;
      destruct (isPinnedToHead w); reflexivity.
  - rewrite execute_calls by exact Hpass. unfold publish_calls.
    rewrite <- !app_assoc. eexists. reflexivity.
Qed.

(** C3, on a concrete runner. *)
Lemma metrics_exported_prompts_flag_process_local_witness :
  rejected (Sample.world Sample.defaults) = false /\
  job_env (final (execute (Sample.world Sample.defaults)))
    !! Text.CLOUDSDK_CORE_DISABLE_PROMPTS = None.
Proof.
  split; [ reflexivity | ].
  apply (metrics_exported_prompts_flag_process_local
           (Sample.world Sample.defaults)).
  reflexivity.
Defined.

(** C4 -- when installation is wanted and [version] is "latest", the
    latest-resolution call is made exactly once, for "> 0.0.0".  What it
    returns is what the tool cache is probed for, what is installed on a
    cache miss, and what the step output reports when the run does not
    fail; if it throws, nothing is probed, installed or reported. *)
Theorem latest_is_resolved_once (w : World) (c : bool) :
  rejected w = false ->
  parseBoolean w (getInput w Text.skip_install) = Returns false ->
  parseBoolean w (getInput w Text.cache) = Returns c ->
  presence w (getInput w Text.version) = Some (js "latest") ->
  let log := calls (execute w) in
  only is_latest_resolution log = [EvBestVersion (js "> 0.0.0")] /\
  match bestVersion w (js "> 0.0.0") with
  | Returns resolved =>
      only is_cache_probe log = [EvToolCacheFind (js "gcloud") resolved] /\
      only is_install log =
        (if eqb (toolCache_find w (js "gcloud") resolved) []
         then [EvInstallGcloudSDK resolved c]
         else []) /\
      only is_output log =
        match only is_failure_report log with
        | [] => [EvSetOutput (js "version") (Some resolved)]
        | _ :: _ => []
        end
  | Raises _ =>
      only is_cache_probe log = [] /\
      only is_install log = [] /\
      only is_output log = []
  end.
Proof.
  intros Hrej Hskip Hcache Hversion log. subst log.
  assert (Hresolved :
            resolved_version w (presence w (getInput w Text.version))
            = bestVersion w Text.any_version).
  { unfold resolved_version. rewrite Hversion. reflexivity. }
  pose proof (execute_provisioning w c Hrej Hskip Hcache) as Hprovisioning.
  rewrite Hresolved, Hversion in Hprovisioning.
  change (truthy_opt (Some (js "latest"))
          && eqb (narrowed (Some (js "latest"))) Text.latest)
    with true in Hprovisioning.
  change (js "> 0.0.0") with Text.any_version.
  change (js "gcloud") with Text.gcloud.
  split.
  - rewrite Hprovisioning by reflexivity.
    destruct (bestVersion w Text.any_version) as [resolved | e];
      [ | reflexivity ].
    destruct (eqb (toolCache_find w Text.gcloud resolved) []); reflexivity.
  - destruct (bestVersion w Text.any_version) as [resolved | e] eqn:Hbest.
    + split; [ | split ].
      * rewrite Hprovisioning by reflexivity.
        destruct (eqb (toolCache_find w Text.gcloud resolved) []);
          reflexivity.
      * rewrite Hprovisioning by reflexivity.
        destruct (eqb (toolCache_find w Text.gcloud resolved) []);
          reflexivity.
      * apply (execute_outputs_value w false c); try assumption.
        intros x. rewrite provision_install_ended, Hresolved.
        destruct (ended (acquire w resolved c (ready w)));
          intros Hx; inversion Hx; reflexivity.
    + split; [ | split ].
      * rewrite Hprovisioning by reflexivity. reflexivity.
      * rewrite Hprovisioning by reflexivity. reflexivity.
      * rewrite (execute_outputs w false c) by assumption.
        rewrite provision_install_ended, Hresolved. reflexivity.
Qed.

(** C4, on a concrete runner. *)
Lemma latest_is_resolved_once_witness :
  let w := Sample.world Sample.latest_cold in
  rejected w = false /\
  parseBoolean w (getInput w Text.skip_install) = Returns false /\
  parseBoolean w (getInput w Text.cache) = Returns true /\
  presence w (getInput w Text.version) = Some (js "latest") /\
  only is_latest_resolution (calls (execute w))
  = [EvBestVersion (js "> 0.0.0")] /\
  only is_install (calls (execute w))
  = [EvInstallGcloudSDK (js "500.0.0") true] /\
  only is_output (calls (execute w))
  = [EvSetOutput (js "version") (Some (js "500.0.0"))].
Proof.
  intros w. do 4 (split; [ reflexivity | ]).
  pose proof (latest_is_resolved_once w true eq_refl eq_refl eq_refl eq_refl)
    as [Hlatest [_ [Hinstall Houtput]]].
  split; [ exact Hlatest | ]. split; [ exact Hinstall | exact Houtput ].
Defined.

(** C5 (as stated) fails: with the credentials-file variable set, to the
    empty string, [authenticateGcloudSDK] is not called with it; the run
    asks [isAuthenticated] instead. *)
Lemma empty_credentials_path_is_not_used :
  let w := Sample.world Sample.empty_credentials in
  ~ (forall credFile,
       initial_env w !! Text.GOOGLE_GHA_CREDS_PATH = Some credFile ->
       In (EvAuthenticateGcloudSDK credFile) (calls (execute w))).
Proof.
  intros w H.
  specialize (H [] eq_refl).
  apply (in_only is_authentication) in H; [ | reflexivity ].
  vm_compute in H. destruct H as [H | []]. discriminate H.
Qed.

(** C5 (amended) -- in a run that reaches the authentication step: when
    the credentials-file variable holds a non-empty path,
    [authenticateGcloudSDK] is the one authentication call, made with that
    path, and if it throws the run is reported failed with its exception
    and sets no output; when the variable is unset or empty,
    [isAuthenticated] is the one authentication call, the
    not-authenticated warning is logged exactly once unless the check
    returned true -- also when the check threw -- and the run reports no
    failure unless the project configuration it goes on to make throws. *)
Theorem authentication_policy
    (w : World) (sk c : bool) (v' : option jsstring) :
  rejected w = false ->
  parseBoolean w (getInput w Text.skip_install) = Returns sk ->
  parseBoolean w (getInput w Text.cache) = Returns c ->
  ended (provision w sk (presence w (getInput w Text.version))
           (getInput w Text.install_components) c (ready w)) = Normal v' ->
  ended (installComponents w (getInput w Text.install_components)
           (final (provision w sk (presence w (getInput w Text.version))
                     (getInput w Text.install_components) c (ready w))))
  = Normal tt ->
  pinned_notice_differs w Text.not_authenticated ->
  let log := calls (execute w) in
  let projectId := getInput w Text.project_id in
  let ambient :=
    only is_authentication log = [EvIsAuthenticated] /\
    only (warns Text.not_authenticated) log =
      match isAuthenticated w with
      | Returns true => []
      | Returns false | Raises _ => [EvWarning Text.not_authenticated]
      end /\
    ((truthy projectId = true -> forall e, setProject w projectId <> Raises e) ->
     only is_failure_report log = []) in
  match initial_env w !! Text.GOOGLE_GHA_CREDS_PATH with
  | None => ambient
  | Some credFile =>
      if eqb credFile [] then ambient
      else
        only is_authentication log = [EvAuthenticateGcloudSDK credFile] /\
        forall e,
          authenticateGcloudSDK w credFile = Raises e ->
          only is_failure_report log
          = [EvSetFailed (cat Text.failed_with (errorMessage w e))] /\
          only is_output log = []
  end.
Proof.
  intros Hrej Hskip Hcache Hprovision Hcomponents Hpinned log projectId ambient.
  pose proof (execute_authentication w sk c v' Hrej Hskip Hcache Hprovision
                Hcomponents) as Hcalls.
  pose proof (execute_ended_main w sk c v' Hrej Hskip Hcache Hprovision
                Hcomponents) as Hended.
  pose proof (authenticate_unfold w (ready w)) as Hauth.
  cbv zeta in Hauth. rewrite ready_credentials in Hauth.
  assert (Hambient :
            truthy_opt (initial_env w !! Text.GOOGLE_GHA_CREDS_PATH) = false ->
            ambient).
  { intros Hunset. rewrite Hunset in Hauth. subst ambient log projectId.
    split; [ | split ].
    - rewrite Hcalls, Hauth;
        first [ reflexivity
              | apply only_provision_none; reflexivity
              | apply only_publish_calls; reflexivity
              | idtac ].
      destruct (isAuthenticated w) as [[] | e]; reflexivity.
    - rewrite Hcalls, Hauth;
        first [ reflexivity
              | apply only_publish_warns; exact Hpinned
              | idtac ].
      + destruct (isAuthenticated w) as [[] | e]; reflexivity.
      + apply only_none.
        apply (ltac:(every_call; reflexivity) :
                 every (fun e => warns Text.not_authenticated e = false)
                       (provision w sk _ _ c)).
    - intros Hproject.
      rewrite only_failure_execute, Hended, Hauth by exact Hrej.
      cbn [ended]. rewrite configureProject_unfold.
      destruct (truthy (getInput w Text.project_id)); [ | reflexivity ].
      destruct (setProject w (getInput w Text.project_id)) as [[] | e] eqn:E;
        [ reflexivity | destruct (Hproject eq_refl e eq_refl) ]. }
  destruct (initial_env w !! Text.GOOGLE_GHA_CREDS_PATH) as [credFile | ];
    [ | apply Hambient; reflexivity ].
  cbn [truthy_opt narrowed] in *. rewrite truthy_eqb_nil in *.
  destruct (eqb credFile []); [ apply Hambient; reflexivity | ].
  cbn [negb] in Hauth.
  assert (Hcall : only is_authentication log
                  = [EvAuthenticateGcloudSDK credFile]).
  { subst log. rewrite Hcalls, Hauth;
      first [ reflexivity
            | apply only_provision_none; reflexivity
            | apply only_publish_calls; reflexivity
            | idtac ].
    destruct (authenticateGcloudSDK w credFile); reflexivity. }
  split; [ exact Hcall | ].
  intros e Hraises.
  apply (main_throw_reported w e Hrej).
  rewrite Hended, Hauth, Hraises. reflexivity.
Qed.

(** C5, on a concrete runner: the component installer would throw, but no
    component is asked for and the run reaches authentication. *)
Lemma authentication_policy_witness :
  let w := Sample.with_failing_components Sample.with_credentials in
  rejected w = false /\
  parseBoolean w (getInput w Text.skip_install) = Returns true /\
  parseBoolean w (getInput w Text.cache) = Returns false /\
  installComponent w [] = Raises Sample.components_failure /\
  pinned_notice_differs w Text.not_authenticated /\
  initial_env w !! Text.GOOGLE_GHA_CREDS_PATH = Some (js "/tmp/creds.json") /\
  only is_authentication (calls (execute w))
  = [EvAuthenticateGcloudSDK (js "/tmp/creds.json")].
Proof.
  intros w.
  assert (Hpinned : pinned_notice_differs w Text.not_authenticated)
    by discriminate.
  do 6 (split; [ first [ reflexivity | assumption ] | ]).
  apply (authentication_policy w true false None eq_refl eq_refl eq_refl
           eq_refl eq_refl Hpinned).
Defined.

(** C6 -- the entitlement check is the first thing a run does.  When the
    endpoint answers 403 the process exits with status 1 right after
    logging an error: nothing was exported, no input was read and no
    failure message was reported.  Any other failure of the request logs
    an informational message, and the run goes on to publish its
    variables and read its inputs, and ends normally. *)
Theorem entitlement_check_comes_first (w : World) :
  match axios_get w (api_url w) 3000 with
  | Raises error =>
      if is_axios_error error && status_is error 403 then
        execute w =
        Result (Exit 1) (start w)
          [EvAxiosGet (api_url w) 3000; EvError Text.subscription_invalid]
      else
        ended (execute w) = Normal tt /\
        exists rest,
          calls (execute w) =
          EvAxiosGet (api_url w) 3000 :: EvInfo Text.api_unreachable ::
          publish_calls w ++ EvGetInput Text.skip_install :: rest
  | Returns _ =>
      ended (execute w) = Normal tt /\
      exists rest,
        calls (execute w) =
        EvAxiosGet (api_url w) 3000 ::
        publish_calls w ++ EvGetInput Text.skip_install :: rest
  end.
Proof.
  pose proof (execute_unfold w) as Hrun.
  pose proof (execute_ended w) as Hend.
  pose proof (execute_calls w) as Hcalls.
  destruct (main_head w (ready w)) as [rest Hmain].
  unfold rejected, check_calls in *.
  destruct (axios_get w (api_url w) 3000) as [[] | error].
  - split; [ auto | ].
    rewrite Hcalls, Hmain by reflexivity. cbn [app]. eexists. reflexivity.
  - destruct (is_axios_error error && status_is error 403); [ exact Hrun | ].
    split; [ auto | ].
    rewrite Hcalls, Hmain by reflexivity. cbn [app]. eexists. reflexivity.
Qed.

(** C6, on a concrete runner. *)
Lemma entitlement_check_comes_first_witness :
  let w := Sample.world Sample.turned_away in
  execute w =
  Result (Exit 1) (start w)
    [EvAxiosGet
       (js "https://agent.api.stepsecurity.io/v1/github/undefined/actions/subscription")
       3000;
     EvError Text.subscription_invalid].
Proof.
  intros w. exact (entitlement_check_comes_first w).
Defined.

(** C7 -- with [skipInstall = true], the warning that [version] is
    ignored is logged exactly once when a version other than "latest" was
    given, and not at all when the version is "latest" or absent. *)
Theorem ignored_version_warned_once (w : World) (c : bool) :
  rejected w = false ->
  parseBoolean w (getInput w Text.skip_install) = Returns true ->
  parseBoolean w (getInput w Text.cache) = Returns c ->
  pinned_notice_differs w Text.ignoring_version ->
  let warnings := only (warns Text.ignoring_version) (calls (execute w)) in
  match presence w (getInput w Text.version) with
  | None => warnings = []
  | Some given =>
      if eqb given (js "latest") then warnings = []
      else if eqb given [] then warnings = []
      else warnings = [EvWarning Text.ignoring_version]
  end.
Proof.
  intros Hrej Hskip Hcache Hpinned warnings.
  assert (Hwarnings :
    warnings =
    if truthy_opt (presence w (getInput w Text.version))
       && negb (eqb (narrowed (presence w (getInput w Text.version)))
                  Text.latest)
    then [EvWarning Text.ignoring_version] else []).
  { subst warnings.
    rewrite only_execute_boundary, Hrej
      by (try apply only_publish_warns; auto).
    rewrite only_main, Hskip, Hcache by reflexivity.
    rewrite steps_skip, calls_prepend, only_app.
    rewrite only_finish_none by reflexivity.
    rewrite provision_skip. cbn [calls].
    destruct (truthy_opt _ && negb _);
      destruct (truthy (getInput w Text.install_components)); reflexivity. }
  rewrite Hwarnings.
  destruct (presence w (getInput w Text.version)) as [given | ];
    [ | reflexivity ].
  cbn [truthy_opt narrowed]. change (js "latest") with Text.latest.
  rewrite truthy_eqb_nil.
  destruct (eqb given Text.latest);
    [ rewrite andb_false_r; reflexivity | ].
  destruct (eqb given []); reflexivity.
Qed.

(** C7, on a concrete runner. *)
Lemma ignored_version_warned_once_witness :
  let w := Sample.world Sample.skip_pinned in
  rejected w = false /\
  parseBoolean w (getInput w Text.skip_install) = Returns true /\
  parseBoolean w (getInput w Text.cache) = Returns false /\
  pinned_notice_differs w Text.ignoring_version /\
  presence w (getInput w Text.version) = Some (js "1.2.3") /\
  only (warns Text.ignoring_version) (calls (execute w))
  = [EvWarning Text.ignoring_version].
Proof.
  intros w.
  assert (Hpinned : pinned_notice_differs w Text.ignoring_version)
    by discriminate.
  do 5 (split; [ first [ reflexivity | exact Hpinned ] | ]).
  apply (ignored_version_warned_once w false eq_refl eq_refl eq_refl Hpinned).
Defined.

(** C8 -- when installation is wanted and no version was given, the tool
    cache is probed for "> 0.0.0", the latest version is not resolved, and
    what is installed on a cache miss is "> 0.0.0" as well. *)
Theorem absent_version_means_any_version (w : World) (c : bool) :
  rejected w = false ->
  parseBoolean w (getInput w Text.skip_install) = Returns false ->
  parseBoolean w (getInput w Text.cache) = Returns c ->
  truthy_opt (presence w (getInput w Text.version)) = false ->
  let log := calls (execute w) in
  only is_latest_resolution log = [] /\
  only is_cache_probe log = [EvToolCacheFind (js "gcloud") (js "> 0.0.0")] /\
  only is_install log =
    if eqb (toolCache_find w (js "gcloud") (js "> 0.0.0")) []
    then [EvInstallGcloudSDK (js "> 0.0.0") c]
    else [].
Proof.
  intros Hrej Hskip Hcache Hversion log. subst log.
  split; [ | split ].
  all: rewrite (execute_provisioning w c Hrej Hskip Hcache) by reflexivity.
  all: unfold resolved_version; rewrite Hversion; cbn [andb app only].
  all: change Text.gcloud with (js "gcloud");
       change Text.any_version with (js "> 0.0.0").
  all: destruct (eqb (toolCache_find w (js "gcloud") (js "> 0.0.0")) []);
       reflexivity.
Qed.

(** C8, on a concrete runner. *)
Lemma absent_version_means_any_version_witness :
  let w := Sample.world Sample.defaults in
  rejected w = false /\
  parseBoolean w (getInput w Text.skip_install) = Returns false /\
  parseBoolean w (getInput w Text.cache) = Returns false /\
  truthy_opt (presence w (getInput w Text.version)) = false /\
  only is_install (calls (execute w))
  = [EvInstallGcloudSDK (js "> 0.0.0") false].
Proof.
  intros w. do 4 (split; [ reflexivity | ]).
  apply (absent_version_means_any_version w false); reflexivity.
Defined.

(** C9 -- when installation is wanted, the tool cache is probed once, for
    gcloud at the resolved version.  On a hit the [bin] directory of the
    cached tool is added to the search path and nothing is installed --
    so a run against a warm cache never installs; on a miss the installer
    is called exactly once, with the resolved version and the [cache]
    flag. *)
Theorem cache_hit_skips_install (w : World) (c : bool) (rv : jsstring) :
  rejected w = false ->
  parseBoolean w (getInput w Text.skip_install) = Returns false ->
  parseBoolean w (getInput w Text.cache) = Returns c ->
  resolved_version w (presence w (getInput w Text.version)) = Returns rv ->
  let log := calls (execute w) in
  let toolPath := toolCache_find w (js "gcloud") rv in
  only is_cache_probe log = [EvToolCacheFind (js "gcloud") rv] /\
  if eqb toolPath []
  then only is_install log = [EvInstallGcloudSDK rv c] /\
       only is_path_addition log = []
  else only is_install log = [] /\
       only is_path_addition log = [EvAddPath (path_join w toolPath (js "bin"))].
Proof.
  intros Hrej Hskip Hcache Hresolved log toolPath. subst log toolPath.
  pose proof (execute_provisioning w c Hrej Hskip Hcache) as Hprovisioning.
  rewrite Hresolved in Hprovisioning.
  change (js "gcloud") with Text.gcloud. change (js "bin") with Text.bin.
  rewrite !Hprovisioning by reflexivity.
  destruct (truthy_opt (presence w (getInput w Text.version))
            && eqb (narrowed (presence w (getInput w Text.version)))
                 Text.latest);
    destruct (eqb (toolCache_find w Text.gcloud rv) []);
    repeat split.
Qed.

(** C9, on a concrete runner. *)
Lemma cache_hit_skips_install_witness :
  let w := Sample.world Sample.pinned_warm in
  rejected w = false /\
  parseBoolean w (getInput w Text.skip_install) = Returns false /\
  parseBoolean w (getInput w Text.cache) = Returns false /\
  resolved_version w (presence w (getInput w Text.version))
  = Returns (js "4.0.0") /\
  only is_install (calls (execute w)) = [] /\
  only is_path_addition (calls (execute w))
  = [EvAddPath (js "/opt/hostedtoolcache/gcloud/4.0.0/bin")].
Proof.
  intros w. do 4 (split; [ reflexivity | ]).
  apply (cache_hit_skips_install w false (js "4.0.0")); reflexivity.
Defined.

(** C10 -- the step output is set by the last call of a run or not at
    all, and only in a run that reports no failure.  Whenever a call to
    latest-resolution, installation, component installation,
    credentials-file authentication or project configuration throws, the
    run is marked failed with the message of that exception and the step
    output is never set. *)
Theorem output_only_after_everything_succeeded (w : World) :
  let log := calls (execute w) in
  (only is_output log = [] \/
   exists pre v,
     log = pre ++ [EvSetOutput (js "version") v] /\
     only is_output pre = [] /\
     only is_failure_report log = []) /\
  (forall e x,
     In e log -> raised w e = Some x ->
     only is_failure_report log
     = [EvSetFailed (cat Text.failed_with (errorMessage w x))] /\
     only is_output log = []).
Proof.
  intros log. subst log.
  split.
  - destruct (rejected w) eqn:Hrej.
    { left. rewrite only_execute, Hrej by reflexivity. reflexivity. }
    pose proof (main_output_last w (ready w)) as Hlast.
    destruct (sheltered_cases _ (ready w) (sheltered_main w))
      as [[[] Hended] | [x Hended]].
    + right. rewrite Hended in Hlast. destruct Hlast as [pre [v [Hcalls Hpre]]].
      exists (check_calls w ++ publish_calls w ++ pre), v.
      rewrite only_failure_execute, execute_calls by exact Hrej.
      rewrite Hended, Hcalls. cbn [failure_calls].
      rewrite app_nil_r, <- !app_assoc. split; [ reflexivity | ].
      split; [ | reflexivity ].
      rewrite !only_app, only_check_calls, only_publish_calls, Hpre
        by reflexivity.
      reflexivity.
    + left. apply (main_throw_reported w x Hrej Hended).
  - intros e x Hin Hx.
    destruct (raised_call_ends_main w e x Hin Hx) as [Hrej Hended].
    apply (main_throw_reported w x Hrej Hended).
Qed.

(** C10, on a concrete runner. *)
Lemma output_only_after_everything_succeeded_witness :
  let w := Sample.with_failing_components Sample.stray_comma in
  In (EvInstallComponent [js "a"; []; js "b"]) (calls (execute w)) /\
  only is_failure_report (calls (execute w))
  = [EvSetFailed (js "google-github-actions/setup-gcloud failed with: failure")] /\
  only is_output (calls (execute w)) = [].
Proof.
  intros w.
  assert (Hcall : In (EvInstallComponent [js "a"; []; js "b"])
                     (calls (execute w))).
  { vm_compute. repeat (first [ left; reflexivity | right ]). }
  split; [ exact Hcall | ].
  exact (proj2 (output_only_after_everything_succeeded w)
           (EvInstallComponent [js "a"; []; js "b"])
           Sample.components_failure Hcall eq_refl).
Defined.

(** ** Further properties of [run] *)

Lemma every_exportVariable (Q : event -> Prop) name value :
  Q (EvExportVariable name value) -> every Q (core_exportVariable name value).
Proof. intros H s. repeat constructor. exact H. Qed.

Lemma every_assign (Q : event -> Prop) name value :
  Q (EvProcessEnvAssign name value) -> every Q (assign_process_env name value).
Proof. intros H s. repeat constructor. exact H. Qed.

(** The syntax-directed search, for the whole of [run]. *)
Ltac every_run :=
  unfold run, preamble, validateSubscription, main, steps, finish, provision,
    resolve, acquire, installComponents, authenticate, configureProject,
    report_failure,
    core_error, core_info, core_warning, core_debug,
    core_setOutput, core_setFailed;
  repeat first [ every_step
               | apply every_exportVariable
               | apply every_assign ].

Section Boundary.

Variable w : World.

(** What the [try] block and its [catch] make of a parse failure. *)
Lemma execute_throwing_main x l :
  rejected w = false ->
  main w (ready w) = Result (Throw x) (ready w) l ->
  execute w =
  Result (Normal tt) (ready w)
    (check_calls w ++ publish_calls w ++ l
     ++ [EvSetFailed (cat Text.failed_with (errorMessage w x))]).
Proof.
  intros Hrej Hmain.
  rewrite execute_unfold, Hrej, try_catch_unfold, Hmain.
  unfold prepend. cbn [ended final calls report_failure core_setFailed emit].
  rewrite <- !app_assoc. reflexivity.
Qed.

End Boundary.

(** X1 -- when [skip_install] is not a boolean, the run stops at the first
    input: it reads [skip_install], reports the failure with the message
    of the parse error and ends normally, having read no other input and
    having called neither the provisioner nor the credential broker. *)
Theorem invalid_skip_install_fails_at_first_input (w : World) (e : js_error) :
  rejected w = false ->
  parseBoolean w (getInput w Text.skip_install) = Raises e ->
  execute w =
  Result (Normal tt) (ready w)
    (check_calls w ++ publish_calls w
     ++ [EvGetInput Text.skip_install;
         EvSetFailed (cat Text.failed_with (errorMessage w e))]).
Proof.
  intros Hrej Hskip.
  rewrite (execute_throwing_main w e [EvGetInput Text.skip_install] Hrej).
  - reflexivity.
  - rewrite main_unfold, Hskip. reflexivity.
Qed.

(** X1, on a concrete runner. *)
Lemma invalid_skip_install_fails_at_first_input_witness :
  let w := Sample.world Cases.bad_skip_install in
  rejected w = false /\
  parseBoolean w (getInput w Text.skip_install) = Raises (JsError false None 1) /\
  calls (execute w) =
  check_calls w ++ publish_calls w
  ++ [EvGetInput Text.skip_install;
      EvSetFailed (js "google-github-actions/setup-gcloud failed with: failure")].
Proof.
  intros w. do 2 (split; [ reflexivity | ]).
  rewrite (invalid_skip_install_fails_at_first_input w (JsError false None 1))
    by reflexivity.
  reflexivity.
Defined.

(** X2 -- when [cache] is not a boolean, the failure is reported after
    the five inputs have been read and before anything else happens:
    whatever [skip_install] and [version] say, nothing is resolved,
    probed, installed, authenticated or configured, and no output is
    set. *)
Theorem invalid_cache_fails_before_provisioning
    (w : World) (sk : bool) (e : js_error) :
  rejected w = false ->
  parseBoolean w (getInput w Text.skip_install) = Returns sk ->
  parseBoolean w (getInput w Text.cache) = Raises e ->
  execute w =
  Result (Normal tt) (ready w)
    (check_calls w ++ publish_calls w ++ input_reads
     ++ [EvSetFailed (cat Text.failed_with (errorMessage w e))]).
Proof.
  intros Hrej Hskip Hcache.
  apply (execute_throwing_main w e input_reads Hrej).
  rewrite main_unfold, Hskip, Hcache. reflexivity.
Qed.

(** X2, on a concrete runner. *)
Lemma invalid_cache_fails_before_provisioning_witness :
  let w := Sample.world Cases.bad_cache in
  rejected w = false /\
  parseBoolean w (getInput w Text.skip_install) = Returns false /\
  parseBoolean w (getInput w Text.cache) = Raises (JsError false None 1) /\
  only is_cache_probe (calls (execute w)) = [] /\
  only is_failure_report (calls (execute w))
  = [EvSetFailed (js "google-github-actions/setup-gcloud failed with: failure")].
Proof.
  intros w. do 3 (split; [ reflexivity | ]).
  rewrite (invalid_cache_fails_before_provisioning w false
             (JsError false None 1)) by reflexivity.
  split; reflexivity.
Defined.

(** X3 -- a version that is given and is not "latest" goes through
    untouched: the latest version is not resolved, the tool cache is
    probed for exactly that text, that text is what is installed on a
    miss, and it is the step output of a run that does not fail. *)
Theorem literal_version_is_used_verbatim
    (w : World) (c : bool) (given : jsstring) :
  rejected w = false ->
  parseBoolean w (getInput w Text.skip_install) = Returns false ->
  parseBoolean w (getInput w Text.cache) = Returns c ->
  presence w (getInput w Text.version) = Some given ->
  given <> [] ->
  given <> js "latest" ->
  let log := calls (execute w) in
  only is_latest_resolution log = [] /\
  only is_cache_probe log = [EvToolCacheFind (js "gcloud") given] /\
  only is_install log =
    (if eqb (toolCache_find w (js "gcloud") given) []
     then [EvInstallGcloudSDK given c]
     else []) /\
  only is_output log =
    match only is_failure_report log with
    | [] => [EvSetOutput (js "version") (Some given)]
    | _ :: _ => []
    end.
Proof.
  intros Hrej Hskip Hcache Hversion Hgiven Hlatest log. subst log.
  assert (Htruthy : truthy given = true)
    by (destruct given; [ destruct Hgiven | ]; reflexivity).
  apply eqb_neq in Hlatest.
  assert (Hresolved :
            resolved_version w (presence w (getInput w Text.version))
            = Returns given).
  { unfold resolved_version. rewrite Hversion. cbn [truthy_opt narrowed].
    rewrite Htruthy. change Text.latest with (js "latest").
    rewrite Hlatest. reflexivity. }
  pose proof (execute_provisioning w c Hrej Hskip Hcache) as Hprovisioning.
  rewrite Hresolved, Hversion in Hprovisioning.
  cbn [truthy_opt narrowed] in Hprovisioning.
  change Text.latest with (js "latest") in Hprovisioning.
  rewrite Htruthy, Hlatest in Hprovisioning.
  change (js "gcloud") with Text.gcloud.
  split; [ | split; [ | split ] ].
  - rewrite Hprovisioning by reflexivity.
    destruct (eqb (toolCache_find w Text.gcloud given) []); reflexivity.
  - rewrite Hprovisioning by reflexivity.
    destruct (eqb (toolCache_find w Text.gcloud given) []); reflexivity.
  - rewrite Hprovisioning by reflexivity.
    destruct (eqb (toolCache_find w Text.gcloud given) []); reflexivity.
  - apply (execute_outputs_value w false c); try assumption.
    intros x. rewrite provision_install_ended, Hresolved.
    destruct (ended (acquire w given c (ready w)));
      intros Hx; inversion Hx; reflexivity.
Qed.

(** X3, on a concrete runner. *)
Lemma literal_version_is_used_verbatim_witness :
  let w := Sample.world Cases.pinned_cold in
  rejected w = false /\
  parseBoolean w (getInput w Text.skip_install) = Returns false /\
  parseBoolean w (getInput w Text.cache) = Returns true /\
  presence w (getInput w Text.version) = Some (js "4.0.0") /\
  only is_latest_resolution (calls (execute w)) = [] /\
  only is_install (calls (execute w)) = [EvInstallGcloudSDK (js "4.0.0") true].
Proof.
  intros w. do 4 (split; [ reflexivity | ]).
  pose proof (literal_version_is_used_verbatim w true (js "4.0.0")
                eq_refl eq_refl eq_refl eq_refl
                ltac:(discriminate) ltac:(discriminate))
    as [Hlatest [_ [Hinstall _]]].
  split; [ exact Hlatest | exact Hinstall ].
Defined.

(** X4 -- in a run that wants installation, one version serves
    throughout: whatever is installed is the version the cache was probed
    for, installed with the [cache] flag and only because the probe found
    nothing; and whatever is reported as the output is that probed
    version, never [undefined]. *)
Theorem one_version_probed_installed_reported (w : World) (c : bool) :
  rejected w = false ->
  parseBoolean w (getInput w Text.skip_install) = Returns false ->
  parseBoolean w (getInput w Text.cache) = Returns c ->
  let log := calls (execute w) in
  (forall version useCache,
     In (EvInstallGcloudSDK version useCache) log ->
     useCache = c /\
     only is_cache_probe log = [EvToolCacheFind (js "gcloud") version] /\
     toolCache_find w (js "gcloud") version = []) /\
  (forall name value,
     In (EvSetOutput name value) log ->
     exists version,
       value = Some version /\
       only is_cache_probe log = [EvToolCacheFind (js "gcloud") version]).
Proof.
  intros Hrej Hskip Hcache log. subst log.
  pose proof (execute_provisioning w c Hrej Hskip Hcache) as Hprovisioning.
  pose proof (Hprovisioning is_cache_probe) as Hprobe.
  pose proof (Hprovisioning is_install) as Hinstall.
  change (js "gcloud") with Text.gcloud.
  assert (Hprobed : forall rv,
            resolved_version w (presence w (getInput w Text.version))
            = Returns rv ->
            only is_cache_probe (calls (execute w))
            = [EvToolCacheFind Text.gcloud rv]).
  { intros rv Hrv. rewrite Hprobe, Hrv by reflexivity.
    destruct (truthy_opt _ && eqb _ Text.latest);
      destruct (eqb (toolCache_find w Text.gcloud rv) []); reflexivity. }
  split.
  - intros version useCache Hin.
    assert (Hin' : In (EvInstallGcloudSDK version useCache)
                      (only is_install (calls (execute w))))
      by (apply List.filter_In; split; [ exact Hin | reflexivity ]).
    rewrite Hinstall in Hin' by reflexivity.
    destruct (resolved_version w (presence w (getInput w Text.version)))
      as [rv | x] eqn:Hrv.
    + assert (Hin'' : In (EvInstallGcloudSDK version useCache)
                         (if eqb (toolCache_find w Text.gcloud rv) []
                          then [EvInstallGcloudSDK rv c] else [])).
      { destruct (truthy_opt _ && eqb _ Text.latest);
          destruct (eqb (toolCache_find w Text.gcloud rv) []); exact Hin'. }
      destruct (eqb (toolCache_find w Text.gcloud rv) []) eqn:Hmiss;
        [ | destruct Hin'' ].
      destruct Hin'' as [Heq | []]. injection Heq as <- <-.
      apply eqb_eq in Hmiss. auto.
    + destruct (truthy_opt _ && eqb _ Text.latest); destruct Hin'.
  - intros name value Hin.
    assert (Hin' : In (EvSetOutput name value)
                      (only is_output (calls (execute w))))
      by (apply List.filter_In; split; [ exact Hin | reflexivity ]).
    rewrite (execute_outputs w false c) in Hin' by assumption.
    rewrite provision_install_ended in Hin'.
    destruct (resolved_version w (presence w (getInput w Text.version)))
      as [rv | x] eqn:Hrv; [ | destruct Hin' ].
    exists rv. split; [ | apply Hprobed; reflexivity ].
    destruct (ended (acquire w rv c (ready w)));
      destruct (only is_failure_report (calls (execute w)));
      try destruct Hin' as [Heq | []]; try destruct Hin';
      injection Heq as _ <-; reflexivity.
Qed.

(** X4, on a concrete runner. *)
Lemma one_version_probed_installed_reported_witness :
  let w := Sample.world Sample.latest_cold in
  rejected w = false /\
  parseBoolean w (getInput w Text.skip_install) = Returns false /\
  parseBoolean w (getInput w Text.cache) = Returns true /\
  In (EvInstallGcloudSDK (js "500.0.0") true) (calls (execute w)) /\
  only is_cache_probe (calls (execute w))
  = [EvToolCacheFind (js "gcloud") (js "500.0.0")].
Proof.
  intros w. do 3 (split; [ reflexivity | ]).
  assert (Hin : In (EvInstallGcloudSDK (js "500.0.0") true) (calls (execute w))).
  { vm_compute. repeat (first [ left; reflexivity | right ]). }
  split; [ exact Hin | ].
  apply (proj1 (one_version_probed_installed_reported w true
                  eq_refl eq_refl eq_refl) _ _ Hin).
Defined.

(** X5 -- the warning that installing components with the
    system-provided gcloud may fail is logged exactly once when
    [skipInstall] is true and components were asked for, and never
    otherwise. *)
Theorem components_warning_only_when_skipping (w : World) (sk c : bool) :
  rejected w = false ->
  parseBoolean w (getInput w Text.skip_install) = Returns sk ->
  parseBoolean w (getInput w Text.cache) = Returns c ->
  pinned_notice_differs w Text.components_may_fail ->
  only (warns Text.components_may_fail) (calls (execute w)) =
  if sk && truthy (getInput w Text.install_components)
  then [EvWarning Text.components_may_fail]
  else [].
Proof.
  intros Hrej Hskip Hcache Hpinned.
  rewrite only_execute_boundary, Hrej
    by (try apply only_publish_warns; auto).
  rewrite only_main, Hskip, Hcache by reflexivity.
  rewrite steps_unfold.
  assert (Hfinish : forall v',
            only (warns Text.components_may_fail)
              (calls (finish w (getInput w Text.install_components)
                        (getInput w Text.project_id) v' (ready w))) = [])
    by (intros v'; apply only_finish_none; reflexivity).
  destruct sk.
  - rewrite provision_skip. cbn [ended calls]. rewrite only_app, Hfinish.
    cbn [andb].
    destruct (truthy_opt _ && negb _);
      destruct (truthy (getInput w Text.install_components)); reflexivity.
  - assert (Hprovision :
              only (warns Text.components_may_fail)
                (calls (provision w false (presence w (getInput w Text.version))
                          (getInput w Text.install_components) c (ready w)))
              = []).
    { apply only_none.
      apply (ltac:(every_call; first [ reflexivity | discriminate ]) :
               every (fun e => warns Text.components_may_fail e = false)
                     (provision w false _ _ c)). }
    destruct (ended (provision w false _ _ c (ready w)));
      cbn [calls]; rewrite ?only_app, ?Hfinish, Hprovision; reflexivity.
Qed.

(** X5, on a concrete runner. *)
Lemma components_warning_only_when_skipping_witness :
  let w := Sample.world Cases.skip_with_components in
  rejected w = false /\
  parseBoolean w (getInput w Text.skip_install) = Returns true /\
  parseBoolean w (getInput w Text.cache) = Returns false /\
  pinned_notice_differs w Text.components_may_fail /\
  only (warns Text.components_may_fail) (calls (execute w))
  = [EvWarning Text.components_may_fail].
Proof.
  intros w.
  assert (Hpinned : pinned_notice_differs w Text.components_may_fail)
    by discriminate.
  do 4 (split; [ first [ reflexivity | exact Hpinned ] | ]).
  apply (components_warning_only_when_skipping w true false
           eq_refl eq_refl eq_refl Hpinned).
Defined.

Section Blocks.

Variable w : World.

Lemma finish_only P comps p v s :
  only P (calls (finish w comps p v s)) =
  only P (calls (installComponents w comps s)) ++
  match ended (installComponents w comps s) with
  | Throw _ => []
  | _ =>
      only P (calls (authenticate w s)) ++
      match ended (authenticate w s) with
      | Throw _ => []
      | _ =>
          only P (calls (configureProject w p s)) ++
          match ended (configureProject w p s) with
          | Throw _ => []
          | _ => only P [EvSetOutput Text.version v]
          end
      end
  end.
Proof.
  rewrite finish_calls, only_app.
  destruct (ended (installComponents w comps s)); try reflexivity;
    rewrite only_app;
    destruct (ended (authenticate w s)); try reflexivity;
    rewrite only_app;
    destruct (ended (configureProject w p s)); reflexivity.
Qed.

Lemma only_installComponents_none P comps s :
  (forall l, P (EvInstallComponent l) = false) ->
  only P (calls (installComponents w comps s)) = [].
Proof.
  intros H. rewrite installComponents_unfold.
  destruct (truthy comps); [ | reflexivity ].
  cbv zeta. destruct (installComponent w _); cbn; rewrite H; reflexivity.
Qed.

Lemma only_authenticate_none P s :
  (forall f, P (EvAuthenticateGcloudSDK f) = false) ->
  P EvIsAuthenticated = false ->
  (forall m, P (EvInfo m) = false) ->
  (forall m, P (EvWarning m) = false) ->
  only P (calls (authenticate w s)) = [].
Proof.
  intros H1 H2 H3 H4. rewrite authenticate_unfold. cbv zeta.
  destruct (truthy_opt _).
  - destruct (authenticateGcloudSDK w _); cbn; rewrite ?H1, ?H3; reflexivity.
  - destruct (isAuthenticated w) as [[] | x]; cbn; rewrite ?H2, ?H4;
      reflexivity.
Qed.

(** The project calls of the [try] block: none, or the one for the
    [project_id] input. *)
Lemma steps_projects sk v comps p c s :
  only is_project_configuration (calls (steps w sk v comps p c s)) = [] \/
  truthy p = true /\
  only is_project_configuration (calls (steps w sk v comps p c s))
  = [EvSetProject p].
Proof.
  rewrite steps_unfold.
  pose proof (only_provision_none w is_project_configuration sk v comps c s)
    as Hprovision.
  destruct (ended (provision w sk v comps c s)) as [v' | x | x];
    [ | left; cbn [calls]; apply Hprovision; reflexivity .. ].
  cbn [calls]. rewrite only_app, Hprovision, finish_only by reflexivity.
  rewrite only_installComponents_none, only_authenticate_none by reflexivity.
  rewrite configureProject_unfold.
  destruct (ended (installComponents w comps s)); [ | left; reflexivity | ];
    (destruct (ended (authenticate w s)); [ | left; reflexivity | ]);
    (destruct (truthy p); [ | left; reflexivity ]);
    destruct (setProject w p); right; split; reflexivity.
Qed.

Lemma execute_projects :
  only is_project_configuration (calls (execute w)) = [] \/
  truthy (getInput w Text.project_id) = true /\
  only is_project_configuration (calls (execute w))
  = [EvSetProject (getInput w Text.project_id)].
Proof.
  rewrite only_execute by reflexivity.
  destruct (rejected w); [ left; reflexivity | ].
  rewrite only_main by reflexivity.
  destruct (parseBoolean w (getInput w Text.skip_install)) as [sk | x];
    [ | left; reflexivity ].
  destruct (parseBoolean w (getInput w Text.cache)) as [c | x];
    [ | left; reflexivity ].
  apply steps_projects.
Qed.

Lemma execute_components :
  only is_component_install (calls (execute w)) = [] \/
  truthy (getInput w Text.install_components) = true /\
  only is_component_install (calls (execute w))
  = [EvInstallComponent
       (List.map trim (split comma (getInput w Text.install_components)))].
Proof.
  rewrite only_execute by reflexivity.
  destruct (rejected w); [ left; reflexivity | ].
  rewrite only_main by reflexivity.
  destruct (parseBoolean w (getInput w Text.skip_install)) as [sk | x];
    [ | left; reflexivity ].
  destruct (parseBoolean w (getInput w Text.cache)) as [c | x];
    [ | left; reflexivity ].
  rewrite steps_components.
  destruct (ended (provision w sk _ _ c (ready w)));
    [ | left; reflexivity .. ].
  destruct (truthy (getInput w Text.install_components));
    [ right; split; reflexivity | left; reflexivity ].
Qed.

End Blocks.

(** X6 -- an input left empty asks for nothing: with an empty
    [install_components] no run ever calls the component installer, and
    with an empty [project_id] no run ever sets a project; a project that
    is set is the [project_id] input itself. *)
Theorem empty_inputs_ask_for_nothing (w : World) :
  let log := calls (execute w) in
  (getInput w Text.install_components = [] ->
   forall l, ~ In (EvInstallComponent l) log) /\
  (getInput w Text.project_id = [] ->
   forall projectId, ~ In (EvSetProject projectId) log) /\
  (forall projectId,
     In (EvSetProject projectId) log ->
     projectId = getInput w Text.project_id).
Proof.
  intros log. subst log.
  split; [ | split ].
  - intros Hempty l Hin.
    apply (in_only is_component_install) in Hin; [ | reflexivity ].
    destruct (execute_components w) as [Hnone | [Htruthy _]].
    + rewrite Hnone in Hin. destruct Hin.
    + rewrite Hempty in Htruthy. discriminate.
  - intros Hempty p Hin.
    apply (in_only is_project_configuration) in Hin; [ | reflexivity ].
    destruct (execute_projects w) as [Hnone | [Htruthy _]].
    + rewrite Hnone in Hin. destruct Hin.
    + rewrite Hempty in Htruthy. discriminate.
  - intros p Hin.
    apply (in_only is_project_configuration) in Hin; [ | reflexivity ].
    destruct (execute_projects w) as [Hnone | [_ Hone]].
    + rewrite Hnone in Hin. destruct Hin.
    + rewrite Hone in Hin. destruct Hin as [[= <-] | []]. reflexivity.
Qed.

(** X6, on a concrete runner. *)
Lemma empty_inputs_ask_for_nothing_witness :
  let w := Sample.world Sample.latest_cold in
  getInput w Text.install_components = [] /\
  getInput w Text.project_id = [] /\
  (forall l, ~ In (EvInstallComponent l) (calls (execute w))) /\
  (forall projectId, ~ In (EvSetProject projectId) (calls (execute w))).
Proof.
  intros w. do 2 (split; [ reflexivity | ]).
  pose proof (empty_inputs_ask_for_nothing w) as [Hcomponents [Hproject _]].
  split; [ exact (Hcomponents eq_refl) | exact (Hproject eq_refl) ].
Defined.

Section Unfailed.

Variable w : World.

(** A run that is let pass and reports no failure went through the whole
    [try] block. *)
Lemma unfailed_main :
  rejected w = false ->
  only is_failure_report (calls (execute w)) = [] ->
  ended (main w (ready w)) = Normal tt.
Proof.
  intros Hrej Hnone. rewrite only_failure_execute in Hnone by exact Hrej.
  destruct (sheltered_cases _ (ready w) (sheltered_main w))
    as [[[] H] | [x H]]; [ exact H | ].
  rewrite H in Hnone. discriminate.
Qed.

Lemma unfailed_blocks :
  rejected w = false ->
  only is_failure_report (calls (execute w)) = [] ->
  exists sk c v',
    parseBoolean w (getInput w Text.skip_install) = Returns sk /\
    parseBoolean w (getInput w Text.cache) = Returns c /\
    ended (provision w sk (presence w (getInput w Text.version))
             (getInput w Text.install_components) c (ready w)) = Normal v' /\
    ended (installComponents w (getInput w Text.install_components) (ready w))
    = Normal tt /\
    ended (authenticate w (ready w)) = Normal tt /\
    ended (configureProject w (getInput w Text.project_id) (ready w))
    = Normal tt.
Proof.
  intros Hrej Hnone. pose proof (unfailed_main Hrej Hnone) as Hmain.
  rewrite main_unfold in Hmain.
  destruct (parseBoolean w (getInput w Text.skip_install)) as [sk | x];
    [ | discriminate ].
  destruct (parseBoolean w (getInput w Text.cache)) as [c | x];
    [ | discriminate ].
  rewrite ended_prepend, steps_unfold in Hmain.
  destruct (ended (provision w sk _ _ c (ready w))) as [v' | x | x] eqn:Hprov;
    [ | discriminate .. ].
  cbn [ended] in Hmain. rewrite finish_ended in Hmain.
  exists sk, c, v'. do 2 (split; [ reflexivity | ]). split; [ exact Hprov | ].
  destruct (contained_cases _ (ready w)
              (contained_installComponents w (getInput w Text.install_components)))
    as [[[] Hic] | [x Hic]]; rewrite Hic in *; [ | discriminate ].
  destruct (contained_cases _ (ready w) (contained_authenticate w))
    as [[[] Hau] | [x Hau]]; rewrite Hau in *; [ | discriminate ].
  destruct (contained_cases _ (ready w)
              (contained_configureProject w (getInput w Text.project_id)))
    as [[[] Hcp] | [x Hcp]]; rewrite Hcp in *; [ | discriminate ].
  repeat split.
Qed.

(** The calls of such a run, block by block. *)
Lemma unfailed_calls :
  rejected w = false ->
  only is_failure_report (calls (execute w)) = [] ->
  exists sk c v',
    calls (execute w) =
    check_calls w ++ publish_calls w ++ input_reads
    ++ calls (provision w sk (presence w (getInput w Text.version))
                (getInput w Text.install_components) c (ready w))
    ++ calls (installComponents w (getInput w Text.install_components)
                (ready w))
    ++ calls (authenticate w (ready w))
    ++ calls (configureProject w (getInput w Text.project_id) (ready w))
    ++ [EvSetOutput Text.version v'].
Proof.
  intros Hrej Hnone.
  destruct (unfailed_blocks Hrej Hnone)
    as [sk [c [v' [Hskip [Hcache [Hprov [Hic [Hau Hcp]]]]]]]].
  exists sk, c, v'.
  rewrite execute_calls, (unfailed_main Hrej Hnone) by exact Hrej.
  cbn [failure_calls]. rewrite app_nil_r.
  rewrite (main_calls w sk c) by assumption.
  rewrite calls_prepend, steps_unfold, Hprov. cbn [calls].
  rewrite finish_calls, Hic, Hau, Hcp, <- ?app_assoc. reflexivity.
Qed.

(** Of the calls that can throw, only the entitlement request and the
    authentication check have their exception handled on the spot. *)
Lemma threw_handled e :
  (exists url timeout, e = EvAxiosGet url timeout) \/
  e = EvIsAuthenticated \/
  threw w e = raised w e.
Proof. destruct e; eauto. Qed.

End Unfailed.

(** X7 -- a run that is let pass and reports no failure has done all it
    was asked to: both boolean inputs parsed, the components were
    installed in one call if any were named, exactly one authentication
    call was made, the project was set if one was named, and the step
    output was set as the very last call.  Of the calls it made, the only
    ones that can have thrown are the two whose exception [run] handles on
    the spot: the entitlement request, which then left its information
    message in the log, and the authentication check, which then left the
    not-authenticated warning. *)
Theorem unfailed_run_did_everything (w : World) :
  rejected w = false ->
  only is_failure_report (calls (execute w)) = [] ->
  let log := calls (execute w) in
  let components := getInput w Text.install_components in
  let projectId := getInput w Text.project_id in
  (exists sk c,
     parseBoolean w (getInput w Text.skip_install) = Returns sk /\
     parseBoolean w (getInput w Text.cache) = Returns c) /\
  only is_component_install log =
    (if truthy components
     then [EvInstallComponent (List.map trim (split comma components))]
     else []) /\
  (exists call, only is_authentication log = [call]) /\
  only is_project_configuration log =
    (if truthy projectId then [EvSetProject projectId] else []) /\
  (exists pre value,
     log = pre ++ [EvSetOutput (js "version") value] /\
     only is_output pre = []) /\
  (forall e x,
     In e log -> threw w e = Some x ->
     (e = EvAxiosGet (api_url w) 3000 /\
      In (EvInfo Text.api_unreachable) log) \/
     (e = EvIsAuthenticated /\
      In (EvWarning Text.not_authenticated) log)).
Proof.
  intros Hrej Hnone log components projectId. subst log components projectId.
  destruct (unfailed_blocks w Hrej Hnone)
    as [sk [c [v' [Hskip [Hcache [Hprov [Hic [Hau Hcp]]]]]]]].
  assert (Hsteps : forall P,
            (forall u t, P (EvAxiosGet u t) = false) ->
            (forall m, P (EvError m) = false) ->
            (forall m, P (EvInfo m) = false) ->
            (forall n v, P (EvExportVariable n v) = false) ->
            (forall n v, P (EvProcessEnvAssign n v) = false) ->
            (forall m, P (EvWarning m) = false) ->
            (forall m, P (EvSetFailed m) = false) ->
            (forall n, P (EvGetInput n) = false) ->
            (forall m, P (EvDebug m) = false) ->
            (forall r, P (EvBestVersion r) = false) ->
            (forall t x, P (EvToolCacheFind t x) = false) ->
            (forall d, P (EvAddPath d) = false) ->
            (forall x b, P (EvInstallGcloudSDK x b) = false) ->
            (forall n x, P (EvSetOutput n x) = false) ->
            only P (calls (execute w)) =
            only P (calls (installComponents w
                             (getInput w Text.install_components) (ready w)))
            ++ only P (calls (authenticate w (ready w)))
            ++ only P (calls (configureProject w
                                (getInput w Text.project_id) (ready w)))).
  { intros P; intros.
    rewrite only_execute, Hrej by assumption.
    rewrite only_main, Hskip, Hcache by assumption.
    rewrite steps_unfold, Hprov. cbn [calls]. rewrite only_app.
    rewrite only_provision_none by assumption.
    rewrite finish_only, Hic, Hau, Hcp.
    cbv beta iota.
    rewrite (only_none P [EvSetOutput Text.version v'])
      by (repeat constructor; auto).
    rewrite app_nil_r. reflexivity. }
  split; [ eauto | ].
  rewrite installComponents_unfold in Hic.
  rewrite configureProject_unfold in Hcp.
  split; [ | split; [ | split; [ | split ] ] ].
  - rewrite Hsteps by reflexivity.
    rewrite only_authenticate_none by reflexivity.
    rewrite (ltac:(apply only_none;
                   apply (ltac:(every_call; reflexivity) :
                            every (fun e => is_component_install e = false)
                                  (configureProject w _))) :
               only is_component_install
                 (calls (configureProject w (getInput w Text.project_id)
                           (ready w))) = []).
    rewrite !app_nil_r, installComponents_unfold.
    destruct (truthy (getInput w Text.install_components)); [ | reflexivity ].
    cbv zeta in *. destruct (installComponent w _); [ reflexivity | discriminate ].
  - rewrite Hsteps by reflexivity.
    rewrite only_installComponents_none by reflexivity.
    rewrite (ltac:(apply only_none;
                   apply (ltac:(every_call; reflexivity) :
                            every (fun e => is_authentication e = false)
                                  (configureProject w _))) :
               only is_authentication
                 (calls (configureProject w (getInput w Text.project_id)
                           (ready w))) = []).
    rewrite app_nil_r, authenticate_unfold. cbv zeta.
    destruct (truthy_opt _).
    + destruct (authenticateGcloudSDK w _); eexists; reflexivity.
    + destruct (isAuthenticated w) as [[] | x]; eexists; reflexivity.
  - rewrite Hsteps by reflexivity.
    rewrite only_installComponents_none, only_authenticate_none
      by reflexivity.
    rewrite configureProject_unfold.
    destruct (truthy (getInput w Text.project_id)); [ | reflexivity ].
    destruct (setProject w _); [ reflexivity | discriminate ].
  - pose proof (main_output_last w (ready w)) as Hlast.
    rewrite (unfailed_main w Hrej Hnone) in Hlast.
    destruct Hlast as [pre [value [Hcalls Hpre]]].
    exists (check_calls w ++ publish_calls w ++ pre), value.
    rewrite execute_calls, Hcalls, (unfailed_main w Hrej Hnone) by exact Hrej.
    cbn [failure_calls]. rewrite app_nil_r, <- !app_assoc.
    split; [ reflexivity | ].
    rewrite !only_app, only_check_calls, only_publish_calls, Hpre
      by reflexivity.
    reflexivity.
  - intros e x Hin Hthrew.
    pose proof (unfailed_main w Hrej Hnone) as Hnormal.
    destruct (unfailed_calls w Hrej Hnone) as [sk' [c' [v'' Hlog]]].
    destruct (threw_handled w e) as [[url [timeout ->]] | [-> | Hraised]].
    + left.
      assert (Hmain : every (fun e => forall u t, e <> EvAxiosGet u t) (main w))
        by (every_call; discriminate).
      specialize (Hmain (ready w)). rewrite List.Forall_forall in Hmain.
      rewrite execute_calls, Hnormal in Hin |- * by exact Hrej.
      cbn [failure_calls] in Hin |- *. rewrite app_nil_r in Hin |- *.
      apply in_app_or in Hin. destruct Hin as [Hin | Hin].
      * unfold check_calls in *.
        destruct Hin as [[= <- <-] | Hin].
        -- cbn [threw] in Hthrew. split; [ reflexivity | ].
           destruct (axios_get w (api_url w) 3000); [ discriminate | ].
           right. left. reflexivity.
        -- destruct (axios_get w (api_url w) 3000);
             [ destruct Hin | destruct Hin as [Hin | []]; discriminate Hin ].
      * apply in_app_or in Hin. destruct Hin as [Hin | Hin].
        -- unfold publish_calls in Hin.
           destruct (isPinnedToHead w);
             repeat (destruct Hin as [Hin | Hin]; [ discriminate Hin | ]);
             destruct Hin.
        -- destruct (Hmain _ Hin url timeout eq_refl).
    + right. split; [ reflexivity | ].
      cbn [threw] in Hthrew.
      rewrite Hlog in Hin |- *.
      assert (Hwarned : In (EvWarning Text.not_authenticated)
                           (calls (authenticate w (ready w)))).
      { apply in_app_or in Hin. destruct Hin as [Hin | Hin].
        { unfold check_calls in Hin.
          destruct (axios_get w (api_url w) 3000);
            repeat (destruct Hin as [Hin | Hin]; [ discriminate Hin | ]);
            destruct Hin. }
        apply in_app_or in Hin. destruct Hin as [Hin | Hin].
        { unfold publish_calls in Hin.
          destruct (isPinnedToHead w);
            repeat (destruct Hin as [Hin | Hin]; [ discriminate Hin | ]);
            destruct Hin. }
        apply in_app_or in Hin. destruct Hin as [Hin | Hin].
        { unfold input_reads in Hin.
          repeat (destruct Hin as [Hin | Hin]; [ discriminate Hin | ]);
            destruct Hin. }
        apply in_app_or in Hin. destruct Hin as [Hin | Hin].
        { exfalso. revert Hin.
          assert (H : every (fun e => e <> EvIsAuthenticated)
                            (provision w sk' (presence w (getInput w Text.version))
                               (getInput w Text.install_components) c'))
            by (every_call; discriminate).
          specialize (H (ready w)). rewrite List.Forall_forall in H.
          intros Hin. exact (H _ Hin eq_refl). }
        apply in_app_or in Hin. destruct Hin as [Hin | Hin].
        { exfalso. revert Hin.
          assert (H : every (fun e => e <> EvIsAuthenticated)
                            (installComponents w
                               (getInput w Text.install_components)))
            by (every_call; discriminate).
          specialize (H (ready w)). rewrite List.Forall_forall in H.
          intros Hin. exact (H _ Hin eq_refl). }
        apply in_app_or in Hin. destruct Hin as [Hin | Hin].
        { rewrite authenticate_unfold in Hin |- *. cbv zeta in Hin |- *.
          destruct (truthy_opt _).
          - destruct (authenticateGcloudSDK w _);
              repeat (destruct Hin as [Hin | Hin]; [ discriminate Hin | ]);
              destruct Hin.
          - destruct (isAuthenticated w) as [[] | y]; try discriminate.
            right. left. reflexivity. }
        apply in_app_or in Hin. destruct Hin as [Hin | Hin].
        { exfalso. revert Hin.
          assert (H : every (fun e => e <> EvIsAuthenticated)
                            (configureProject w (getInput w Text.project_id)))
            by (every_call; discriminate).
          specialize (H (ready w)). rewrite List.Forall_forall in H.
          intros Hin. exact (H _ Hin eq_refl). }
        destruct Hin as [Hin | []]. discriminate Hin. }
      do 5 (apply in_or_app; right). apply in_or_app. left. exact Hwarned.
    + exfalso. rewrite Hraised in Hthrew.
      destruct (raised_call_ends_main w e x Hin Hthrew) as [_ Hthrow].
      rewrite Hnormal in Hthrow. discriminate.
Qed.

(** X7, on a concrete runner: asking whether anybody is authenticated
    fails, and the run carries on with the warning. *)
Lemma unfailed_run_did_everything_witness :
  let w := Cases.unauthenticated in
  rejected w = false /\
  only is_failure_report (calls (execute w)) = [] /\
  In EvIsAuthenticated (calls (execute w)) /\
  threw w EvIsAuthenticated = Some (JsError false None 9) /\
  In (EvWarning Text.not_authenticated) (calls (execute w)).
Proof.
  intros w. do 2 (split; [ reflexivity | ]).
  assert (Hin : In EvIsAuthenticated (calls (execute w))).
  { vm_compute. repeat (first [ left; reflexivity | right ]). }
  do 2 (split; [ first [ exact Hin | reflexivity ] | ]).
  pose proof (unfailed_run_did_everything w eq_refl eq_refl)
    as [_ [_ [_ [_ [_ Hthrew]]]]].
  destruct (Hthrew EvIsAuthenticated (JsError false None 9) Hin eq_refl)
    as [[Heq _] | [_ Hwarned]]; [ discriminate Heq | exact Hwarned ].
Defined.

(** *** The order of the calls *)

Lemma sorted_app (mid : nat) (l1 l2 : list nat) :
  StronglySorted le l1 -> StronglySorted le l2 ->
  Forall (fun n => (n <= mid)%nat) l1 ->
  Forall (fun n => (mid <= n)%nat) l2 ->
  StronglySorted le (l1 ++ l2).
Proof.
  intros H1 H2 Hlow Hhigh.
  induction H1 as [ | x l1 Hsorted IH Hx ]; [ exact H2 | ].
  apply List.Forall_cons_iff in Hlow. destruct Hlow as [Hxmid Hlow].
  cbn. constructor; [ exact (IH Hlow) | ].
  apply Forall_app. split; [ exact Hx | ].
  eapply List.Forall_impl; [ | exact Hhigh ].
  cbn. intros n Hn. lia.
Qed.

Lemma sorted_pair (a b c : list nat) (x y : nat) :
  StronglySorted le (a ++ x :: b ++ y :: c) -> (x <= y)%nat.
Proof.
  induction a as [ | z a IH ]; cbn; intros H; apply StronglySorted_inv in H;
    destruct H as [Hrest Hall]; [ | exact (IH Hrest) ].
  apply Forall_app in Hall. destruct Hall as [_ Hall].
  apply List.Forall_cons_iff in Hall. tauto.
Qed.

Lemma stages_app l1 l2 : stages (l1 ++ l2) = stages l1 ++ stages l2.
Proof. apply omap_app. Qed.

Lemma stages_cons e n l : stage e = Some n -> stages (e :: l) = n :: stages l.
Proof. intros H. unfold stages. cbn. rewrite H. reflexivity. Qed.

Lemma stages_at_stage n l :
  Forall (at_stage n) l ->
  StronglySorted le (stages l) /\
  Forall (fun k => (n <= k <= n)%nat) (stages l).
Proof.
  induction 1 as [ | e l He _ [IHsorted IHall] ]; [ split; constructor | ].
  unfold stages, at_stage in *. cbn.
  destruct (stage e) as [k | ]; [ subst k | split; assumption ].
  split.
  - constructor; [ exact IHsorted | ].
    eapply List.Forall_impl; [ | exact IHall ]. cbn. intros; lia.
  - constructor; [ lia | exact IHall ].
Qed.

Section Within.

Lemma within_stage {A : Type} n (m : M A) :
  every (at_stage n) m -> within n n m.
Proof. intros H s. apply stages_at_stage, H. Qed.

Lemma within_weaken {A : Type} lo hi lo' hi' (m : M A) :
  (lo' <= lo)%nat -> (hi <= hi')%nat -> within lo hi m -> within lo' hi' m.
Proof.
  intros Hlo Hhi H s. destruct (H s) as [Hsorted Hall].
  split; [ exact Hsorted | ].
  eapply List.Forall_impl; [ | exact Hall ]. cbn. intros; lia.
Qed.

(** Logging only: the computation fits anywhere. *)
Lemma within_quiet {A : Type} lo hi (m : M A) :
  every (fun e => stage e = None) m -> within lo hi m.
Proof.
  intros H s. specialize (H s).
  assert (Hnil : stages (calls (m s)) = []).
  { induction H as [ | e l He _ IH ]; [ reflexivity | ].
    unfold stages in *. cbn. rewrite He. exact IH. }
  rewrite Hnil. split; constructor.
Qed.

Lemma within_bind {A B : Type} lo mid hi (m : M A) (k : A -> M B) :
  (lo <= mid)%nat -> (mid <= hi)%nat ->
  within lo mid m -> (forall a, within mid hi (k a)) ->
  within lo hi (bind m k).
Proof.
  intros Hlo Hhi Hm Hk s. rewrite bind_unfold.
  destruct (Hm s) as [Hsorted Hall].
  assert (Hwide : Forall (fun n => (lo <= n <= hi)%nat) (stages (calls (m s)))).
  { eapply List.Forall_impl; [ | exact Hall ]. cbn. intros; lia. }
  destruct (ended (m s)) as [a | e | c]; cbn [calls prepend];
    [ | split; assumption .. ].
  destruct (Hk a (final (m s))) as [Hsorted' Hall'].
  rewrite stages_app. split.
  - apply (sorted_app mid); try assumption.
    + eapply List.Forall_impl; [ | exact Hall ]. cbn. intros; lia.
    + eapply List.Forall_impl; [ | exact Hall' ]. cbn. intros; lia.
  - apply Forall_app. split; [ exact Hwide | ].
    eapply List.Forall_impl; [ | exact Hall' ]. cbn. intros; lia.
Qed.

Lemma within_try_catch {A : Type} lo mid hi (m : M A) (h : js_error -> M A) :
  (lo <= mid)%nat -> (mid <= hi)%nat ->
  within lo mid m -> (forall e, within mid hi (h e)) ->
  within lo hi (try_catch m h).
Proof.
  intros Hlo Hhi Hm Hh s. rewrite try_catch_unfold.
  destruct (Hm s) as [Hsorted Hall].
  assert (Hwide : Forall (fun n => (lo <= n <= hi)%nat) (stages (calls (m s)))).
  { eapply List.Forall_impl; [ | exact Hall ]. cbn. intros; lia. }
  destruct (ended (m s)) as [a | e | c]; cbn [calls prepend];
    [ split; assumption | | split; assumption ].
  destruct (Hh e (final (m s))) as [Hsorted' Hall'].
  rewrite stages_app. split.
  - apply (sorted_app mid); try assumption.
    + eapply List.Forall_impl; [ | exact Hall ]. cbn. intros; lia.
    + eapply List.Forall_impl; [ | exact Hall' ]. cbn. intros; lia.
  - apply Forall_app. split; [ exact Hwide | ].
    eapply List.Forall_impl; [ | exact Hall' ]. cbn. intros; lia.
Qed.

Variable w : World.

Ltac one_stage :=
  apply within_stage; every_run; first [ exact I | exact eq_refl ].

Lemma within_validateSubscription : within 0 0 (validateSubscription w).
Proof. one_stage. Qed.

Lemma within_preamble : within 0 1 (preamble w).
Proof.
  unfold preamble.
  apply (within_bind 0 0 1); [ lia | lia | apply within_validateSubscription | ].
  intros _. apply (within_weaken 1 1); [ lia | lia | one_stage ].
Qed.

Lemma within_resolve v : within 3 3 (resolve w v).
Proof. one_stage. Qed.

Lemma within_acquire v c : within 4 5 (acquire w v c).
Proof.
  unfold acquire.
  apply (within_bind 4 4 5); [ lia | lia | one_stage | ].
  intros toolPath. apply (within_weaken 5 5); [ lia | lia | one_stage ].
Qed.

Lemma within_provision sk v comps c : within 3 5 (provision w sk v comps c).
Proof.
  unfold provision. destruct sk.
  - apply within_quiet. every_run; reflexivity.
  - apply (within_bind 3 3 5); [ lia | lia | apply within_resolve | ].
    intros rv. apply (within_weaken 4 5); [ lia | lia | ].
    apply (within_bind 4 5 5); [ lia | lia | apply within_acquire | ].
    intros _. apply within_quiet. every_run.
Qed.

Lemma within_finish comps p v : within 6 9 (finish w comps p v).
Proof.
  unfold finish.
  apply (within_bind 6 6 9); [ lia | lia | one_stage | ].
  intros _. apply (within_weaken 7 9); [ lia | lia | ].
  apply (within_bind 7 7 9); [ lia | lia | one_stage | ].
  intros _. apply (within_weaken 8 9); [ lia | lia | ].
  apply (within_bind 8 8 9); [ lia | lia | one_stage | ].
  intros _. apply (within_weaken 9 9); [ lia | lia | one_stage ].
Qed.

Lemma within_steps sk v comps p c : within 3 9 (steps w sk v comps p c).
Proof.
  unfold steps.
  apply (within_bind 3 5 9); [ lia | lia | apply within_provision | ].
  intros v'. apply (within_weaken 6 9); [ lia | lia | apply within_finish ].
Qed.

Lemma within_main : within 2 9 (main w).
Proof.
  unfold main.
  apply (within_bind 2 2 9); [ lia | lia | one_stage | ]. intros sk.
  apply (within_bind 2 2 9); [ lia | lia | one_stage | ]. intros v.
  apply (within_bind 2 2 9); [ lia | lia | one_stage | ]. intros comps.
  apply (within_bind 2 2 9); [ lia | lia | one_stage | ]. intros p.
  apply (within_bind 2 2 9); [ lia | lia | one_stage | ]. intros c.
  apply (within_weaken 3 9); [ lia | lia | apply within_steps ].
Qed.

Lemma within_run : within 0 10 (run w).
Proof.
  unfold run.
  apply (within_bind 0 1 10); [ lia | lia | apply within_preamble | ].
  intros _. apply (within_weaken 2 10); [ lia | lia | ].
  apply (within_try_catch 2 9 10); [ lia | lia | apply within_main | ].
  intros e. apply (within_weaken 10 10); [ lia | lia | one_stage ].
Qed.

End Within.

(** X8 -- the calls of every run come in the order of the program text:
    the entitlement request, the environment exports, the input reads,
    latest-resolution, the cache probe, the path addition or installation,
    component installation, authentication, project configuration, and
    last the step output or the failure report.  Of two calls of a run,
    the earlier one never belongs to a later stage. *)
Theorem calls_follow_the_stages (w : World) :
  StronglySorted le (stages (calls (execute w))) /\
  forall before e1 between e2 after n1 n2,
    calls (execute w) = before ++ e1 :: between ++ e2 :: after ->
    stage e1 = Some n1 -> stage e2 = Some n2 ->
    (n1 <= n2)%nat.
Proof.
  pose proof (proj1 (within_run w (start w))) as Hsorted.
  fold (execute w) in Hsorted.
  split; [ exact Hsorted | ].
  intros before e1 between e2 after n1 n2 Hcalls H1 H2.
  rewrite Hcalls, stages_app, (stages_cons e1 n1), stages_app,
    (stages_cons e2 n2) in Hsorted by assumption.
  exact (sorted_pair _ _ _ _ _ Hsorted).
Qed.

(** X8, on a concrete runner: the project is set after authentication. *)
Lemma calls_follow_the_stages_witness :
  let w := Sample.world Cases.full in
  exists before between after,
    calls (execute w)
    = before ++ EvAuthenticateGcloudSDK (js "/tmp/creds.json") :: between
      ++ EvSetProject (js "my-project") :: after /\
    (7 <= 8)%nat.
Proof.
  intros w.
  exists (firstn 13 (calls (execute w))), [EvInfo Text.authenticated_ok],
    (skipn 16 (calls (execute w))).
  assert (Hcalls : calls (execute w)
                   = firstn 13 (calls (execute w))
                     ++ EvAuthenticateGcloudSDK (js "/tmp/creds.json")
                     :: [EvInfo Text.authenticated_ok]
                     ++ EvSetProject (js "my-project")
                     :: skipn 16 (calls (execute w)))
    by (vm_compute; reflexivity).
  split; [ exact Hcalls | ].
  exact (proj2 (calls_follow_the_stages w) _ _ _ _ _ 7%nat 8%nat
           Hcalls eq_refl eq_refl).
Defined.

(** *** Nothing is called twice *)

Section Once.

Variable w : World.

Lemma execute_steps_only P :
  (forall u t, P (EvAxiosGet u t) = false) ->
  (forall m, P (EvError m) = false) ->
  (forall m, P (EvInfo m) = false) ->
  (forall n v, P (EvExportVariable n v) = false) ->
  (forall n v, P (EvProcessEnvAssign n v) = false) ->
  (forall m, P (EvWarning m) = false) ->
  (forall m, P (EvSetFailed m) = false) ->
  (forall n, P (EvGetInput n) = false) ->
  only P (calls (execute w)) = [] \/
  exists sk c,
    only P (calls (execute w)) =
    only P (calls (steps w sk (presence w (getInput w Text.version))
                     (getInput w Text.install_components)
                     (getInput w Text.project_id) c (ready w))).
Proof.
  intros. rewrite only_execute by assumption.
  destruct (rejected w); [ left; reflexivity | ].
  rewrite only_main by assumption.
  destruct (parseBoolean w (getInput w Text.skip_install)) as [sk | x];
    [ | left; reflexivity ].
  destruct (parseBoolean w (getInput w Text.cache)) as [c | x];
    [ | left; reflexivity ].
  right. exists sk, c. reflexivity.
Qed.

(** The provisioning calls of the [try] block, whatever was decided. *)
Lemma steps_provisioning_only P sk v comps p c s :
  (forall l, P (EvInstallComponent l) = false) ->
  (forall f, P (EvAuthenticateGcloudSDK f) = false) ->
  P EvIsAuthenticated = false ->
  (forall m, P (EvInfo m) = false) ->
  (forall m, P (EvWarning m) = false) ->
  (forall i, P (EvSetProject i) = false) ->
  (forall n x, P (EvSetOutput n x) = false) ->
  (forall m, P (EvDebug m) = false) ->
  only P (calls (steps w sk v comps p c s)) =
  if sk then []
  else
    (if truthy_opt v && eqb (narrowed v) Text.latest
     then only P [EvBestVersion Text.any_version]
     else []) ++
    match resolved_version w v with
    | Returns rv =>
        only P
          (EvToolCacheFind Text.gcloud rv ::
           if eqb (toolCache_find w Text.gcloud rv) []
           then [EvInstallGcloudSDK rv c]
           else [EvAddPath (path_join w (toolCache_find w Text.gcloud rv)
                              Text.bin)])
    | Raises _ => []
    end.
Proof.
  intros. rewrite steps_provisioning by auto.
  destruct sk; [ apply only_provision_skip; assumption | ].
  rewrite provision_install_calls, only_app, resolve_only by assumption.
  destruct (resolved_version w v) as [rv | x]; [ | reflexivity ].
  rewrite acquire_only by assumption. reflexivity.
Qed.

Lemma steps_authentications sk v comps p c s :
  (List.length (only is_authentication (calls (steps w sk v comps p c s)))
   <= 1)%nat.
Proof.
  rewrite steps_unfold.
  pose proof (only_provision_none w is_authentication sk v comps c s)
    as Hprovision.
  destruct (ended (provision w sk v comps c s)) as [v' | x | x];
    [ | cbn [calls]; rewrite Hprovision by reflexivity; cbn; lia .. ].
  cbn [calls]. rewrite only_app, Hprovision, finish_only by reflexivity.
  rewrite only_installComponents_none by reflexivity.
  rewrite (ltac:(apply only_none;
                 apply (ltac:(every_call; reflexivity) :
                          every (fun e => is_authentication e = false)
                                (configureProject w p))) :
             only is_authentication (calls (configureProject w p s)) = []).
  rewrite authenticate_unfold. cbv zeta.
  destruct (ended (installComponents w comps s)); cbn [app length];
    try lia;
    (destruct (truthy_opt _);
     [ destruct (authenticateGcloudSDK w _)
     | destruct (isAuthenticated w) as [[] | x] ]);
    destruct (ended (configureProject w p s)); cbn; lia.
Qed.

End Once.

(** X9 -- nothing is retried: in every run each of latest-resolution, the
    cache probe, installation, the path addition, component installation,
    authentication, project configuration, the step output and the failure
    report is called at most once. *)
Theorem no_call_is_repeated (w : World) :
  Forall (fun kind =>
            (List.length (only kind (calls (execute w))) <= 1)%nat)
         [is_latest_resolution; is_cache_probe; is_install; is_path_addition;
          is_component_install; is_authentication; is_project_configuration;
          is_output; is_failure_report].
Proof.
  assert (Hprovisioning : forall P,
            P = is_latest_resolution \/ P = is_cache_probe \/
            P = is_install \/ P = is_path_addition ->
            (List.length (only P (calls (execute w))) <= 1)%nat).
  { intros P HP.
    assert (Hsteps : only P (calls (execute w)) = [] \/ _)
      by (apply (execute_steps_only w P);
          destruct HP as [-> | [-> | [-> | ->]]]; reflexivity).
    destruct Hsteps as [-> | [sk [c ->]]]; [ cbn; lia | ].
    rewrite steps_provisioning_only
      by (destruct HP as [-> | [-> | [-> | ->]]]; reflexivity).
    destruct sk; [ cbn; lia | ].
    destruct (truthy_opt _ && eqb _ Text.latest);
      destruct (resolved_version w _) as [rv | x];
      try destruct (eqb (toolCache_find w Text.gcloud rv) []);
      destruct HP as [-> | [-> | [-> | ->]]]; cbn; lia. }
  repeat match goal with
         | |- Forall _ (_ :: _) => apply List.Forall_cons
         | |- Forall _ [] => apply List.Forall_nil
         end;
    try (apply Hprovisioning; tauto).
  - destruct (execute_components w) as [-> | [_ ->]]; cbn; lia.
  - destruct (execute_steps_only w is_authentication)
      as [-> | [sk [c ->]]]; try reflexivity; [ cbn; lia | ].
    apply steps_authentications.
  - destruct (execute_projects w) as [-> | [_ ->]]; cbn; lia.
  - rewrite only_execute by reflexivity.
    destruct (rejected w); [ cbn; lia | ].
    pose proof (main_output_last w (ready w)) as Hlast.
    destruct (ended (main w (ready w)));
      [ destruct Hlast as [pre [v [-> Hpre]]]; rewrite only_app, Hpre
      | rewrite Hlast .. ]; cbn; lia.
  - destruct (rejected w) eqn:Hrej.
    + rewrite execute_unfold, Hrej. cbn. lia.
    + rewrite only_failure_execute by exact Hrej.
      destruct (ended (main w (ready w))); cbn; lia.
Qed.

(** *** What a run writes *)

Section Written.

Variable w : World.

Lemma acquire_final rv c s :
  final (acquire w rv c s) =
  if eqb (toolCache_find w Text.gcloud rv) [] then s
  else final (core_addPath w
                (path_join w (toolCache_find w Text.gcloud rv) Text.bin) s).
Proof.
  destruct (eqb (toolCache_find w Text.gcloud rv) []) eqn:H.
  - rewrite acquire_miss by exact H. cbv zeta.
    destruct (installGcloudSDK w rv c); reflexivity.
  - rewrite acquire_hit by exact H. reflexivity.
Qed.

Lemma provision_final sk v comps c s :
  final (provision w sk v comps c s) =
  if sk then s
  else match resolved_version w v with
       | Returns rv => final (acquire w rv c s)
       | Raises _ => s
       end.
Proof.
  destruct sk; [ rewrite provision_skip; reflexivity | ].
  rewrite provision_install. pose proof (resolve_ended w v s) as H.
  destruct (resolved_version w v) as [rv | e]; rewrite H; [ | reflexivity ].
  rewrite final_prepend. destruct (ended (acquire w rv c s)); reflexivity.
Qed.

Lemma main_final s :
  final (main w s) =
  match parseBoolean w (getInput w Text.skip_install),
        parseBoolean w (getInput w Text.cache) with
  | Returns sk, Returns c =>
      final (provision w sk (presence w (getInput w Text.version))
               (getInput w Text.install_components) c s)
  | _, _ => s
  end.
Proof.
  rewrite main_unfold.
  destruct (parseBoolean w (getInput w Text.skip_install)) as [sk | e];
    [ | reflexivity ].
  destruct (parseBoolean w (getInput w Text.cache)) as [c | e];
    [ | reflexivity ].
  rewrite final_prepend, steps_unfold.
  destruct (ended (provision w sk _ _ c s)); reflexivity.
Qed.

Lemma execute_final_main :
  rejected w = false -> final (execute w) = final (main w (ready w)).
Proof.
  intros H. rewrite execute_unfold, H, final_prepend, try_catch_unfold.
  destruct (ended (main w (ready w))); reflexivity.
Qed.

(** A directory is put on the search path by a run that wants
    installation and finds the tool in the cache, and by no other. *)
Lemma execute_path_addition dir :
  In (EvAddPath dir) (calls (execute w)) ->
  exists c rv,
    rejected w = false /\
    parseBoolean w (getInput w Text.skip_install) = Returns false /\
    parseBoolean w (getInput w Text.cache) = Returns c /\
    resolved_version w (presence w (getInput w Text.version)) = Returns rv /\
    eqb (toolCache_find w Text.gcloud rv) [] = false /\
    dir = path_join w (toolCache_find w Text.gcloud rv) Text.bin.
Proof.
  intros Hin. apply (in_only is_path_addition) in Hin; [ | reflexivity ].
  destruct (rejected w) eqn:Hrej;
    [ rewrite only_execute, Hrej in Hin by reflexivity; destruct Hin | ].
  destruct (parseBoolean w (getInput w Text.skip_install)) as [sk | x] eqn:Hskip;
    [ | rewrite only_execute, Hrej, only_main, Hskip in Hin by reflexivity;
        destruct Hin ].
  destruct (parseBoolean w (getInput w Text.cache)) as [c | x] eqn:Hcache;
    [ | rewrite only_execute, Hrej, only_main, Hskip, Hcache in Hin
          by reflexivity;
        destruct Hin ].
  destruct sk.
  { rewrite only_execute, Hrej, only_main, Hskip, Hcache in Hin by reflexivity.
    rewrite steps_provisioning_only in Hin by reflexivity. destruct Hin. }
  rewrite (execute_provisioning w c Hrej Hskip Hcache) in Hin by reflexivity.
  destruct (resolved_version w (presence w (getInput w Text.version)))
    as [rv | x];
    [ | destruct (truthy_opt _ && eqb _ Text.latest); destruct Hin ].
  exists c, rv.
  destruct (eqb (toolCache_find w Text.gcloud rv) []);
    destruct (truthy_opt _ && eqb _ Text.latest);
    unfold only in Hin; cbn [List.filter app is_path_addition] in Hin;
    try (destruct Hin; fail);
    destruct Hin as [Hin | []];
    injection Hin as <-; repeat split; reflexivity.
Qed.

End Written.

(** X11 -- what a run writes of its surroundings.  It assigns three
    variables of [process.env] and exports two of them; every other
    variable but [PATH] is left as it was found -- the credentials path
    among them -- and no other variable is handed on to the later steps.
    When a run puts a directory on the search path, it is the one
    directory handed on to the later steps, and [PATH] of the process is
    that directory, the path delimiter, and [PATH] as it was found. *)
Theorem other_variables_are_left_alone (w : World) :
  let r := execute w in
  (forall name,
     name <> Text.CLOUDSDK_METRICS_ENVIRONMENT ->
     name <> Text.CLOUDSDK_METRICS_ENVIRONMENT_VERSION ->
     name <> Text.CLOUDSDK_CORE_DISABLE_PROMPTS ->
     name <> Text.PATH ->
     process_env (final r) !! name = initial_env w !! name) /\
  (forall name,
     name <> Text.CLOUDSDK_METRICS_ENVIRONMENT ->
     name <> Text.CLOUDSDK_METRICS_ENVIRONMENT_VERSION ->
     job_env (final r) !! name = None) /\
  (forall dir,
     In (EvAddPath dir) (calls r) ->
     process_env (final r) !! Text.PATH
     = Some (cat dir (cat (path_delimiter w)
                        (interpolate (initial_env w !! Text.PATH)))) /\
     job_path (final r) = [dir]).
Proof.
  intros r. subst r. split; [ | split ].
  - intros name H1 H2 H3 H4. rewrite execute_unfold.
    destruct (rejected w); [ reflexivity | ].
    rewrite final_prepend.
    rewrite (proj2 (boundary_final w (ready w))) by exact H4.
    apply ready_process_env; assumption.
  - intros name H1 H2. rewrite execute_unfold.
    destruct (rejected w); [ apply lookup_empty | ].
    rewrite final_prepend, (proj1 (boundary_final w (ready w))).
    rewrite ready_job_env. repeat case_decide; congruence.
  - intros dir Hin.
    destruct (execute_path_addition w dir Hin)
      as [c [rv [Hrej [Hskip [Hcache [Hresolved [Hhit ->]]]]]]].
    rewrite (execute_final_main w Hrej), main_final, Hskip, Hcache.
    rewrite provision_final, Hresolved, acquire_final, Hhit.
    unfold core_addPath. cbn [final process_env job_path].
    split; [ | reflexivity ].
    rewrite lookup_insert_eq, ready_process_env
      by (intros H; vm_compute in H; discriminate H).
    reflexivity.
Qed.

(** X11, on a concrete runner: the cached tool goes in front of the
    search path, and the credentials path is left alone. *)
Lemma other_variables_are_left_alone_witness :
  let w := Cases.warm_runner in
  In (EvAddPath (js "/opt/hostedtoolcache/gcloud/4.0.0/bin"))
     (calls (execute w)) /\
  process_env (final (execute w)) !! Text.PATH
  = Some (js "/opt/hostedtoolcache/gcloud/4.0.0/bin:/usr/bin") /\
  job_path (final (execute w)) = [js "/opt/hostedtoolcache/gcloud/4.0.0/bin"] /\
  process_env (final (execute w)) !! Text.GOOGLE_GHA_CREDS_PATH = None.
Proof.
  intros w.
  assert (Hin : In (EvAddPath (js "/opt/hostedtoolcache/gcloud/4.0.0/bin"))
                   (calls (execute w))).
  { vm_compute. repeat (first [ left; reflexivity | right ]). }
  split; [ exact Hin | ].
  pose proof (other_variables_are_left_alone w) as [Hother [_ Hpath]].
  destruct (Hpath _ Hin) as [HPATH Hjob].
  split; [ exact HPATH | ]. split; [ exact Hjob | ].
  rewrite (Hother Text.GOOGLE_GHA_CREDS_PATH);
    first [ reflexivity | intros H; vm_compute in H; discriminate H ].
Defined.

(** *** What the information messages say *)

Section Messages.

Variable w : World.

Lemma provision_infos sk v comps c s m :
  In (EvInfo m) (calls (provision w sk v comps c s)) ->
  m = Text.skipping_installation /\ sk = true.
Proof.
  destruct sk.
  - rewrite provision_skip. cbn [calls].
    intros [[= <-] | Hin]; [ split; reflexivity | ].
    apply in_app_or in Hin.
    destruct (truthy_opt _ && negb _); destruct (truthy comps);
      destruct Hin as [Hin | Hin];
      repeat (destruct Hin as [Hin | Hin]; [ discriminate Hin | ]);
      destruct Hin.
  - intros Hin. exfalso. revert Hin.
    assert (H : every (fun e => e <> EvInfo m) (provision w false v comps c))
      by (every_call; discriminate).
    specialize (H s). rewrite List.Forall_forall in H.
    intros Hin. exact (H _ Hin eq_refl).
Qed.

Lemma finish_infos comps p v s m :
  In (EvInfo m) (calls (finish w comps p v s)) ->
  (m = Text.authenticated_ok /\
   exists credFile,
     process_env s !! Text.GOOGLE_GHA_CREDS_PATH = Some credFile /\
     authenticateGcloudSDK w credFile = Returns tt) \/
  (m = Text.project_ok /\ setProject w p = Returns tt).
Proof.
  rewrite finish_calls. intros Hin.
  apply in_app_or in Hin. destruct Hin as [Hin | Hin].
  { rewrite installComponents_unfold in Hin.
    destruct (truthy comps); [ | destruct Hin ].
    cbv zeta in Hin. destruct (installComponent w _);
      destruct Hin as [Hin | []]; discriminate Hin. }
  destruct (ended (installComponents w comps s)); [ | destruct Hin | ].
  all: apply in_app_or in Hin; destruct Hin as [Hin | Hin].
  all: try (left; rewrite authenticate_unfold in Hin; cbv zeta in Hin;
            destruct (process_env s !! Text.GOOGLE_GHA_CREDS_PATH)
              as [credFile | ];
            cbn [truthy_opt narrowed] in Hin;
            [ destruct (truthy credFile);
              [ destruct (authenticateGcloudSDK w credFile) as [[] | x] eqn:E;
                [ destruct Hin as [Hin | [[= <-] | []]];
                  [ discriminate Hin | split; [ reflexivity | eauto ] ]
                | destruct Hin as [Hin | []]; discriminate Hin ]
              | ]
            | ];
            destruct (isAuthenticated w) as [[] | x];
            repeat (destruct Hin as [Hin | Hin]; [ discriminate Hin | ]);
            destruct Hin).
  all: destruct (ended (authenticate w s)); [ | destruct Hin | ].
  all: apply in_app_or in Hin; destruct Hin as [Hin | Hin].
  all: try (right; rewrite configureProject_unfold in Hin;
            destruct (truthy p); [ | destruct Hin ];
            destruct (setProject w p) as [[] | x];
            [ destruct Hin as [Hin | [[= <-] | []]];
              [ discriminate Hin | split; reflexivity ]
            | destruct Hin as [Hin | []]; discriminate Hin ]).
  all: destruct (ended (configureProject w p s));
    repeat (destruct Hin as [Hin | Hin]; [ discriminate Hin | ]);
    destruct Hin.
Qed.

End Messages.

(** X12 -- the information messages of a run tell the truth.  Each one is
    one of four texts: the entitlement request failed (without a 403),
    installation is skipped because [skip_install] is true, the
    authentication with the credentials file returned, or the project
    configuration returned. *)
Theorem information_messages_are_truthful (w : World) (m : jsstring) :
  In (EvInfo m) (calls (execute w)) ->
  (m = Text.api_unreachable /\
   exists e, axios_get w (api_url w) 3000 = Raises e) \/
  (m = Text.skipping_installation /\
   parseBoolean w (getInput w Text.skip_install) = Returns true) \/
  (m = Text.authenticated_ok /\
   exists credFile,
     initial_env w !! Text.GOOGLE_GHA_CREDS_PATH = Some credFile /\
     authenticateGcloudSDK w credFile = Returns tt) \/
  (m = Text.project_ok /\
   setProject w (getInput w Text.project_id) = Returns tt).
Proof.
  intros Hin. rewrite execute_unfold in Hin.
  destruct (rejected w) eqn:Hrej.
  { destruct Hin as [Hin | [Hin | []]]; discriminate Hin. }
  rewrite calls_prepend, try_catch_unfold in Hin.
  apply in_app_or in Hin. destruct Hin as [Hin | Hin].
  { apply in_app_or in Hin. destruct Hin as [Hin | Hin].
    - left. unfold check_calls in Hin.
      destruct (axios_get w (api_url w) 3000) as [[] | e].
      + destruct Hin as [Hin | []]. discriminate Hin.
      + destruct Hin as [Hin | [[= <-] | []]]; [ discriminate Hin | ].
        split; [ reflexivity | eauto ].
    - exfalso. unfold publish_calls in Hin.
      destruct (isPinnedToHead w);
        repeat (destruct Hin as [Hin | Hin]; [ discriminate Hin | ]);
        destruct Hin. }
  right.
  assert (Hmain : In (EvInfo m) (calls (main w (ready w)))).
  { destruct (ended (main w (ready w))); try exact Hin.
    unfold prepend, report_failure, core_setFailed, emit in Hin.
    cbn [calls] in Hin. apply in_app_or in Hin.
    destruct Hin as [Hin | [Hin | []]]; [ exact Hin | discriminate Hin ]. }
  clear Hin. rewrite main_unfold in Hmain.
  destruct (parseBoolean w (getInput w Text.skip_install)) as [sk | x];
    [ | destruct Hmain as [Hin | []]; discriminate Hin ].
  destruct (parseBoolean w (getInput w Text.cache)) as [c | x];
    [ | unfold input_reads in Hmain; cbn [calls] in Hmain;
        repeat (destruct Hmain as [Hin | Hmain]; [ discriminate Hin | ]);
        destruct Hmain ].
  rewrite calls_prepend in Hmain. apply in_app_or in Hmain.
  destruct Hmain as [Hin | Hin].
  { unfold input_reads in Hin.
    repeat (destruct Hin as [Hin' | Hin]; [ discriminate Hin' | ]).
    destruct Hin. }
  rewrite steps_unfold in Hin.
  assert (Hsteps :
            In (EvInfo m)
               (calls (provision w sk (presence w (getInput w Text.version))
                         (getInput w Text.install_components) c (ready w))) \/
            exists v',
              In (EvInfo m)
                 (calls (finish w (getInput w Text.install_components)
                           (getInput w Text.project_id) v' (ready w)))).
  { destruct (ended (provision w sk _ _ c (ready w))) as [v' | x | x];
      [ | left; exact Hin .. ].
    cbn [calls] in Hin. apply in_app_or in Hin.
    destruct Hin as [Hin | Hin]; [ left; exact Hin | right; eauto ]. }
  destruct Hsteps as [Hprov | [v' Hfin]].
  - left. apply provision_infos in Hprov. destruct Hprov as [-> ->].
    split; reflexivity.
  - right. apply finish_infos in Hfin. rewrite ready_credentials in Hfin.
    exact Hfin.
Qed.

(** X12, on a concrete runner. *)
Lemma information_messages_are_truthful_witness :
  let w := Sample.world Cases.full in
  In (EvInfo Text.project_ok) (calls (execute w)) /\
  setProject w (getInput w Text.project_id) = Returns tt.
Proof.
  intros w.
  assert (Hin : In (EvInfo Text.project_ok) (calls (execute w))).
  { vm_compute. repeat (first [ left; reflexivity | right ]). }
  split; [ exact Hin | ].
  destruct (information_messages_are_truthful w Text.project_ok Hin)
    as [[H _] | [[H _] | [[H _] | [_ H]]]];
    first [ exact H | vm_compute in H; discriminate H ].
Defined.

(** *** The names handed to the component installer *)

Lemma occurrences_app sep a b :
  occurrences sep (a ++ b) = (occurrences sep a + occurrences sep b)%nat.
Proof. unfold occurrences. rewrite List.filter_app. apply List.length_app. Qed.

Lemma split_pieces_have_no_separator sep s :
  Forall (fun piece => occurrences sep piece = 0%nat) (split sep s).
Proof.
  induction s as [ | c s IH ]; [ repeat constructor | ].
  cbn. destruct (N.eqb c sep) eqn:E; [ constructor; [ reflexivity | exact IH ] | ].
  destruct (split sep s) as [ | piece pieces ]; [ | inversion IH; subst ].
  - constructor; [ | constructor ].
    unfold occurrences. cbn. rewrite N.eqb_sym, E. reflexivity.
  - constructor; [ | assumption ].
    unfold occurrences in *. cbn. rewrite N.eqb_sym, E. assumption.
Qed.

Lemma trim_keeps_separator_free sep s :
  occurrences sep s = 0%nat -> occurrences sep (trim s) = 0%nat.
Proof.
  intros H. unfold trim.
  destruct (trimStart_suffix s) as [ws Hs].
  destruct (trimEnd_prefix (trimStart s)) as [ws' Hs'].
  rewrite Hs, occurrences_app in H.
  rewrite Hs', occurrences_app in H. lia.
Qed.

(** X13 -- whatever the component installer is called with is the
    [install_components] input cut at its commas: a list that is never
    empty and whose names contain no comma and neither start nor end with
    white space. *)
Theorem component_names_are_clean (w : World) (l : list jsstring) :
  In (EvInstallComponent l) (calls (execute w)) ->
  l = List.map trim (split comma (getInput w Text.install_components)) /\
  l <> [] /\
  Forall (fun name =>
            occurrences comma name = 0%nat /\ is_trimmed name = true) l.
Proof.
  intros Hin.
  apply (in_only is_component_install) in Hin; [ | reflexivity ].
  destruct (execute_components w) as [Hnone | [_ Hone]];
    [ rewrite Hnone in Hin; destruct Hin | ].
  rewrite Hone in Hin. destruct Hin as [[= <-] | []].
  split; [ reflexivity | split ].
  - intros Hnil. apply List.map_eq_nil in Hnil.
    exact (split_not_empty _ _ Hnil).
  - apply List.Forall_forall. intros name Hname.
    apply List.in_map_iff in Hname. destruct Hname as [piece [<- Hpiece]].
    split; [ | apply trim_is_trimmed ].
    apply trim_keeps_separator_free.
    pose proof (split_pieces_have_no_separator comma
                  (getInput w Text.install_components)) as Hfree.
    rewrite List.Forall_forall in Hfree. exact (Hfree piece Hpiece).
Qed.

(** X13, on a concrete runner. *)
Lemma component_names_are_clean_witness :
  let w := Sample.world Cases.full in
  In (EvInstallComponent [js "alpha"; js "beta"]) (calls (execute w)) /\
  Forall (fun name =>
            occurrences comma name = 0%nat /\ is_trimmed name = true)
         [js "alpha"; js "beta"].
Proof.
  intros w.
  assert (Hin : In (EvInstallComponent [js "alpha"; js "beta"])
                   (calls (execute w))).
  { vm_compute. repeat (first [ left; reflexivity | right ]). }
  split; [ exact Hin | ].
  apply (component_names_are_clean w _ Hin).
Defined.

(** X14 -- the two pre-flight checks are advisory: unless the entitlement
    request is answered with a 403, neither its outcome nor the notice
    about a mutable reference changes what follows.  Two runs that differ
    in those answers only end alike, leave the same environment, and make
    the same calls from the first input read on. *)
Theorem preflight_checks_are_advisory
    (w : World) (request : jsstring -> Z -> outcome unit)
    (pinned : bool) (notice : jsstring -> jsstring) :
  let w' := with_preflight w request pinned notice in
  rejected w = false ->
  rejected w' = false ->
  ended (execute w') = ended (execute w) /\
  final (execute w') = final (execute w) /\
  exists rest,
    calls (execute w) = check_calls w ++ publish_calls w ++ rest /\
    calls (execute w') = check_calls w' ++ publish_calls w' ++ rest.
Proof.
  intros w' Hrej Hrej'. rewrite !execute_unfold, Hrej, Hrej'.
  change (main w') with (main w).
  change (report_failure w') with (report_failure w).
  change (ready w') with (ready w).
  split; [ reflexivity | ]. split; [ reflexivity | ].
  exists (calls (try_catch (main w) (report_failure w) (ready w))).
  rewrite !calls_prepend, <- !app_assoc. split; reflexivity.
Qed.

(** X14, on a concrete runner: the endpoint times out and the action is
    pinned to a branch. *)
Lemma preflight_checks_are_advisory_witness :
  let w := Sample.world Cases.full in
  let w' := with_preflight w (fun _ _ => Raises (JsError true None 0)) true
              (fun ref => ref) in
  rejected w = false /\
  rejected w' = false /\
  final (execute w') = final (execute w).
Proof.
  intros w w'. do 2 (split; [ reflexivity | ]).
  exact (proj1 (proj2 (preflight_checks_are_advisory w
                         (fun _ _ => Raises (JsError true None 0)) true
                         (fun ref => ref) eq_refl eq_refl))).
Defined.
